(** * Stress spectrum generator: a shallow embedding of [stress-spectrum.py]

    The program builds fatigue stress spectra: three factories reduce a
    loading history to an [Event] (equivalent cycles, minimum and maximum
    stress), a collector scales the events and writes them in the
    "max min cycle" text format.

    Python numbers are modelled as they are: an [int] is an unbounded
    integer ([Z]), a [float] is an IEEE 754 binary64 value (the kernel's
    primitive [float], whose operations round to nearest even exactly as
    CPython's do).  Exceptions are values of an error monad. *)

From Stdlib Require Import ZArith Floats List String Ascii Bool Lia.
From Stdlib Require Import Permutation Sorted DecimalString.
Import ListNotations.

Set Warnings "-inexact-float".

Local Open Scope Z_scope.

(** ** Exceptions and the error monad *)

Inductive exn : Type :=
| ValueError
| OverflowError
| ZeroDivisionError
| KeyError
| OSError.

Inductive result (A : Type) : Type :=
| Ok (a : A)
| Raise (e : exn).

Arguments Ok {A} a.
Arguments Raise {A} e.

Definition bind {A B : Type} (r : result A) (k : A -> result B) : result B :=
  match r with
  | Ok a => k a
  | Raise e => Raise e
  end.

Notation "x <- r ;; k" := (bind r (fun x => k))
  (at level 61, r at next level, right associativity).

Definition is_ok {A : Type} (r : result A) : bool :=
  match r with Ok _ => true | Raise _ => false end.

(** [[f(x) for x in l]] where [f] may raise: the first failure aborts. *)
Fixpoint map_result {A B : Type} (f : A -> result B) (l : list A) : result (list B) :=
  match l with
  | [] => Ok []
  | a :: l' => b <- f a ;; bs <- map_result f l' ;; Ok (b :: bs)
  end.

(** ** Python numbers *)

Inductive num : Type :=
| PyInt (z : Z)
| PyFloat (f : float).

(** The signed integer mantissa of a finite binary64 value [m * 2^e]. *)
Definition signed (s : bool) (m : positive) : Z :=
  if s then Z.neg m else Z.pos m.

Definition is_finite (f : float) : bool :=
  match Prim2SF f with
  | S754_zero _ | S754_finite _ _ _ => true
  | S754_infinity _ | S754_nan => false
  end.

(** [float(n)] for an [int]: correctly rounded (ties to even);
    [OverflowError] when the rounded value exceeds the binary64 range. *)
Definition float_of_int (z : Z) : result float :=
  match binary_normalize prec emax z 0 false with
  | S754_infinity _ => Raise OverflowError
  | sf => Ok (SF2Prim sf)
  end.

Definition to_float (v : num) : result float :=
  match v with
  | PyInt z => float_of_int z
  | PyFloat f => Ok f
  end.

(** Binary arithmetic: [int op int] stays exact, anything else is carried
    out on floats after converting the [int] operand. *)
Definition arith (iop : Z -> Z -> Z) (fop : float -> float -> float)
    (a b : num) : result num :=
  match a, b with
  | PyInt x, PyInt y => Ok (PyInt (iop x y))
  | _, _ => x <- to_float a ;; y <- to_float b ;; Ok (PyFloat (fop x y))
  end.

Definition py_add : num -> num -> result num := arith Z.add PrimFloat.add.
Definition py_sub : num -> num -> result num := arith Z.sub PrimFloat.sub.
Definition py_mul : num -> num -> result num := arith Z.mul PrimFloat.mul.

Definition py_neg (a : num) : num :=
  match a with
  | PyInt x => PyInt (- x)
  | PyFloat f => PyFloat (- f)%float
  end.

(** [a / b] with a [float] divisor: the dividend is converted, a zero
    divisor raises. *)
Definition py_truediv_float (a : num) (b : float) : result float :=
  x <- to_float a ;;
  if (b =? 0)%float then Raise ZeroDivisionError else Ok (x / b)%float.

(** Exact comparison of an [int] with a [float] ([None] against NaN). *)
Definition compare_int_float (z : Z) (f : float) : option comparison :=
  match Prim2SF f with
  | S754_nan => None
  | S754_infinity s => Some (if s then Gt else Lt)
  | S754_zero _ => Some (z ?= 0)
  | S754_finite s m e =>
      if 0 <=? e then Some (z ?= signed s m * 2 ^ e)
      else Some (z * 2 ^ (- e) ?= signed s m)
  end.

Definition py_compare (a b : num) : option comparison :=
  match a, b with
  | PyInt x, PyInt y => Some (x ?= y)
  | PyInt x, PyFloat g => compare_int_float x g
  | PyFloat f, PyInt y => option_map CompOpp (compare_int_float y f)
  | PyFloat f, PyFloat g =>
      match (f ?= g)%float with
      | FEq => Some Eq
      | FLt => Some Lt
      | FGt => Some Gt
      | FNotComparable => None
      end
  end.

Definition py_lt (a b : num) : bool :=
  match py_compare a b with Some Lt => true | _ => false end.
Definition py_gt (a b : num) : bool :=
  match py_compare a b with Some Gt => true | _ => false end.
Definition py_eq (a b : num) : bool :=
  match py_compare a b with Some Eq => true | _ => false end.

(** [math.ceil]: an [int] is returned as it is; a finite [float] gives the
    least integer not below it; infinities and NaN raise. *)
Definition ceil_finite (s : bool) (m : positive) (e : Z) : Z :=
  if 0 <=? e then signed s m * 2 ^ e
  else - ((- signed s m) / 2 ^ (- e)).

Definition math_ceil (v : num) : result Z :=
  match v with
  | PyInt z => Ok z
  | PyFloat f =>
      match Prim2SF f with
      | S754_nan => Raise ValueError
      | S754_infinity _ => Raise OverflowError
      | S754_zero _ => Ok 0
      | S754_finite s m e => Ok (ceil_finite s m e)
      end
  end.

(** [max(l)] and [min(l)]: the first element is replaced whenever a later
    one compares strictly greater (smaller); empty input raises. *)
Definition py_max (l : list num) : result num :=
  match l with
  | [] => Raise ValueError
  | a :: l' => Ok (fold_left (fun best x => if py_gt x best then x else best) l' a)
  end.

Definition py_min (l : list num) : result num :=
  match l with
  | [] => Raise ValueError
  | a :: l' => Ok (fold_left (fun best x => if py_lt x best then x else best) l' a)
  end.

(** [sum(l)]: the items are added left to right, starting from the
    [int] 0, each addition rounded as it is made (CPython up to 3.11;
    from 3.12 on floats are added with a compensated sum, see
    [compensated_sum]). *)
Fixpoint sum_from (acc : num) (l : list num) : result num :=
  match l with
  | [] => Ok acc
  | a :: l' => acc' <- py_add acc a ;; sum_from acc' l'
  end.

Definition py_sum (l : list num) : result num := sum_from (PyInt 0) l.

(** ** Text formatting *)

Local Open Scope string_scope.
Local Open Scope Z_scope.

(** [str(n)] for an [int]. *)
Definition str_int (z : Z) : string := NilZero.string_of_int (Z.to_int z).

Definition digit (d : Z) : ascii := ascii_of_nat (48 + Z.to_nat d)%nat.

(** [n / d] rounded to the nearest integer, ties to even ([0 < d]). *)
Definition round_half_even (n d : Z) : Z :=
  let q := n / d in
  match 2 * (n mod d) ?= d with
  | Lt => q
  | Gt => q + 1
  | Eq => if Z.even q then q else q + 1
  end.

(** The magnitude [m * 2^e] in hundredths, correctly rounded. *)
Definition hundredths (m : positive) (e : Z) : Z :=
  if 0 <=? e then Z.pos m * 2 ^ e * 100
  else round_half_even (Z.pos m * 100) (2 ^ (- e)).

Definition fixed2 (negative : bool) (h : Z) : string :=
  (if negative then "-" else "") ++ str_int (h / 100) ++ "."
    ++ String (digit (h mod 100 / 10)) (String (digit (h mod 10)) "").

(** The ['.2f'] presentation of a float. *)
Definition format_2f (f : float) : string :=
  match Prim2SF f with
  | S754_nan => "nan"
  | S754_infinity s => if s then "-inf" else "inf"
  | S754_zero s => fixed2 s 0
  | S754_finite s m e => fixed2 s (hundredths m e)
  end.

Fixpoint spaces (n : nat) : string :=
  match n with
  | O => ""
  | S n' => String " " (spaces n')
  end.

Definition rjust (width : nat) (s : string) : string :=
  spaces (width - String.length s)%nat ++ s.

Definition ljust (width : nat) (s : string) : string :=
  s ++ spaces (width - String.length s)%nat.

(** [f"{v:4.2f}"]: an [int] is converted to a float first; the result is
    right-aligned in a field of width 4. *)
Definition format_4_2f (v : num) : result string :=
  f <- to_float v ;; Ok (rjust 4 (format_2f f)).

Definition newline : string := String (ascii_of_nat 10) "".

(** ** Events and the collector *)

Record Event : Type := mkEvent {
  neq : num;
  s_min : num;
  s_max : num;
  desc : string
}.

Record StressSpectrum : Type := mkStressSpectrum {
  filename : string;
  prestres : num;
  sf_stress : num;
  sf_cycles : num;
  events : list Event
}.

(** [StressSpectrum(filename, prestress=0, sf_stress=1.0, sf_cycles=4.0)] *)
Definition init (filename : string) (prestress sf_stress sf_cycles : num)
  : StressSpectrum :=
  mkStressSpectrum filename prestress sf_stress sf_cycles [].

Definition default_prestress : num := PyInt 0.
Definition default_sf_stress : num := PyFloat 1.0.
Definition default_sf_cycles : num := PyFloat 4.0.

(** The program state a method runs in: the collector object, the file
    system (path to contents) and the lines printed so far. *)
Record state : Type := mkState {
  self : StressSpectrum;
  files : string -> option string;
  stdout : list string
}.

Definition set_self (sp : StressSpectrum) (st : state) : state :=
  mkState sp (files st) (stdout st).

Definition print (line : string) (st : state) : state :=
  mkState (self st) (files st) (stdout st ++ [line])%list.

(** [open(path, "w")] creates the file or truncates it (the path is taken
    to be writable). *)
Definition open_w (path : string) (st : state) : state :=
  mkState (self st)
    (fun p => if String.eqb p path then Some "" else files st p)
    (stdout st).

(** [fh.write(s)] appends to the file behind the handle. *)
Definition fh_write (path : string) (s : string) (st : state) : state :=
  mkState (self st)
    (fun p =>
       if String.eqb p path
       then Some (match files st path with Some c => c ++ s | None => s end)
       else files st p)
    (stdout st).

Definition append (event : Event) (st : state) : state :=
  let sp := self st in
  set_self (mkStressSpectrum (filename sp) (prestres sp) (sf_stress sp)
              (sf_cycles sp) (events sp ++ [event])%list) st.

(** The body of [save]'s loop up to the formatted line [s]. *)
Definition data_line (sp : StressSpectrum) (event : Event) : result string :=
  a <- py_mul (sf_stress sp) (s_min event) ;;
  smin <- py_add a (prestres sp) ;;
  b <- py_mul (sf_stress sp) (s_max event) ;;
  smax <- py_add b (prestres sp) ;;
  c <- py_mul (sf_cycles sp) (neq event) ;;
  n <- math_ceil c ;;
  fmax <- format_4_2f smax ;;
  fmin <- format_4_2f smin ;;
  Ok (fmax ++ "  " ++ fmin ++ "  " ++ str_int n).

Fixpoint save_loop (verbose : bool) (evs : list Event) (st : state)
  : result unit * state :=
  match evs with
  | [] => (Ok tt, st)
  | event :: rest =>
      match data_line (self st) event with
      | Raise e => (Raise e, st)
      | Ok s =>
          let st1 := fh_write (filename (self st)) (s ++ newline) st in
          let st2 :=
            if verbose then print (ljust 26 s ++ " | " ++ desc event) st1
            else st1 in
          save_loop verbose rest st2
      end
  end.

Definition header : string := "max min cycle format".

(** [save] when the target opens; the call with a target that may not
    open is [IO.save] below. *)
Definition save (verbose : bool) (st : state) : result unit * state :=
  let path := filename (self st) in
  let st1 := fh_write path (header ++ newline) (open_w path st) in
  let st2 := if verbose then print "==============" st1 else st1 in
  save_loop verbose (events (self st)) st2.

(** [self.sf_cycles * sum([_.neq for _ in self.events])], rounded up. *)
Definition total_cycles (sp : StressSpectrum) : result Z :=
  s <- py_sum (map neq (events sp)) ;;
  total_n <- py_mul (sf_cycles sp) s ;;
  math_ceil total_n.

Section Stats.

(** [str(x)] of a float (the shortest string that reads back as [x]) is
    only used to echo the two safety factors; it is left as a parameter. *)
Variable str_float : float -> string.

Definition str_num (v : num) : string :=
  match v with
  | PyInt z => str_int z
  | PyFloat f => str_float f
  end.

Definition stats (st : state) : result unit * state :=
  let sp := self st in
  match (m <- py_max (map s_max (events sp)) ;;
         a <- py_mul (sf_stress sp) m ;;
         smax <- py_add a (prestres sp) ;;
         format_4_2f smax) with
  | Raise e => (Raise e, st)
  | Ok fmax =>
      let st1 := print ("> Peak max stress: " ++ fmax ++ " MPa") st in
      match (m <- py_min (map s_min (events sp)) ;;
             a <- py_mul (sf_stress sp) m ;;
             smin <- py_add a (prestres sp) ;;
             format_4_2f smin) with
      | Raise e => (Raise e, st1)
      | Ok fmin =>
          let st2 := print ("> Peak min stress: " ++ fmin ++ " MPa") st1 in
          match total_cycles sp with
          | Raise e => (Raise e, st2)
          | Ok n =>
              let st3 := print ("> Total number of cycles: " ++ str_int n) st2 in
              let st4 := print "> The following safety factors are included:" st3 in
              let st5 := print (">> cycles=" ++ str_num (sf_cycles sp)) st4 in
              (Ok tt, print (">> stress=" ++ str_num (sf_stress sp)) st5)
          end
      end
  end.

End Stats.

(** ** Linear interpolation over a dict table *)

(** A [Dict[float, float]] in insertion order; its keys are pairwise
    different as dict keys are. *)
Definition table : Type := list (float * float).

Definition keys (t : table) : list float := map fst t.

(** [table[k]]: the entry whose key equals [k]; a NaN never equals a key. *)
Fixpoint getitem (t : table) (k : float) : result float :=
  match t with
  | [] => Raise KeyError
  | (k', v) :: t' => if (k' =? k)%float then Ok v else getitem t' k
  end.

(** [sorted(l)]: insertion from the left, each element placed after the
    elements not greater than it.  On NaN-free input this is the ascending
    arrangement whatever the algorithm; a NaN key makes the lookup that
    follows raise [KeyError] wherever the NaN ends up. *)
Fixpoint insert_sorted (k : float) (l : list float) : list float :=
  match l with
  | [] => [k]
  | h :: l' => if (k <? h)%float then k :: l else h :: insert_sorted k l'
  end.

Definition sorted (l : list float) : list float :=
  fold_left (fun acc k => insert_sorted k acc) l [].

(** The line through [(xj, yj)] and [(xj1, yj1)] at [x_val], evaluated
    from the left end, and from the right end when that gives a NaN. *)
Definition segment_value (xj yj xj1 yj1 x_val : float) : float :=
  let slope := ((yj1 - yj) / (xj1 - xj))%float in
  let r := (slope * (x_val - xj) + yj)%float in
  if is_nan r then
    let r' := (slope * (x_val - xj1) + yj1)%float in
    if is_nan r' && (yj =? yj1)%float then yj else r'
  else r.

(** The kernel of [numpy.interp], which [interp1d] delegates to for float
    data, on ascending [xp] with [xp[0] <= x_val]: the segment
    [xp[j] <= x_val < xp[j+1]] is located, a point on a key gets the stored
    value, a point from the last key on gets the last value. *)
Fixpoint interp_segment (x_val : float) (xp fp : list float) : float :=
  match xp, fp with
  | xj :: ((xj1 :: _) as xp'), yj :: ((yj1 :: _) as fp') =>
      if (x_val <? xj1)%float then
        if (xj =? x_val)%float then yj
        else segment_value xj yj xj1 yj1 x_val
      else interp_segment x_val xp' fp'
  | _ :: _, yj :: _ => yj
  | _, _ => nan
  end.

(** [numpy.interp(x_val, xp, fp)]: a single point gives its value, a NaN
    is returned as it is, and outside the range the end values are used
    (which [interp1d] then rejects). *)
Definition np_interp (x_val : float) (xp fp : list float) : float :=
  match xp, fp with
  | [_], [y0] => y0
  | x0 :: _, y0 :: _ =>
      if is_nan x_val then x_val
      else if (x_val <? x0)%float then y0
      else if (last xp x0 <? x_val)%float then last fp y0
      else interp_segment x_val xp fp
  | _, _ => nan
  end.

(** [interp1d(x, y)(x_new)] with the defaults: linear, and a [ValueError]
    for a point below [x[0]] or above [x[-1]] (no extrapolation).  [x]
    arrives ascending, so the constructor's own sort leaves it as it is. *)
Definition interp1d (x y : list float) (x_new : float) : result float :=
  match x with
  | [] => Raise ValueError
  | x0 :: _ =>
      let y_new := np_interp x_new x y in
      if (x_new <? x0)%float then Raise ValueError
      else if (last x x0 <? x_new)%float then Raise ValueError
      else Ok y_new
  end.

(** The argument reaches the interpolant as a float64: an [int] is
    converted, as NumPy converts the ints that fit 64 bits (larger ones,
    which NumPy does not take, are not covered). *)
Definition linear_interpolation (t : table) (argument : num) : result float :=
  let args := sorted (keys t) in
  let x := args in
  y <- map_result (getitem t) x ;;
  x_new <- to_float argument ;;
  interp1d x y x_new.

(** ** Event factories *)

Definition table_n : table :=
  [ (2.0, 0.222); (3.0, 0.139); (4.0, 0.099); (5.0, 0.077); (6.0, 0.066) ]%float.

Definition RandomEvent (stress fn duration n : num) (desc : string)
  : result Event :=
  fd <- py_mul fn duration ;;
  c <- linear_interpolation table_n n ;;
  neq0 <- py_mul fd (PyFloat c) ;;
  neq1 <- math_ceil neq0 ;;
  Ok (mkEvent (PyInt neq1) (py_neg stress) stress desc).

(** [math.log(2)]: the binary64 value nearest to the natural logarithm
    of 2, as the C library returns it. *)
Definition math_log_2 : float := 0x1.62e42fefa39efp-1%float.

Definition SineEvent (stress_1g load sweep_rate : num) (desc : string)
  : result Event :=
  let df := PyInt (100 - 20) in
  d <- py_mul sweep_rate (PyFloat math_log_2) ;;
  d' <- to_float d ;;
  q <- py_truediv_float (PyInt 60) d' ;;
  neq0 <- py_mul (PyFloat q) df ;;
  neq1 <- math_ceil neq0 ;;
  stress <- py_mul load stress_1g ;;
  Ok (mkEvent (PyInt neq1) (py_neg stress) stress desc).

Definition ThermalEvent (stress_1K T_max T_min neq T_ref : num) (desc : string)
  : result Event :=
  dmin <- py_sub T_min T_ref ;;
  smin <- py_mul stress_1K dmin ;;
  dmax <- py_sub T_max T_ref ;;
  smax <- py_mul stress_1K dmax ;;
  Ok (mkEvent neq smin smax desc).

Definition default_n : num := PyFloat 2.0.
Definition default_neq : num := PyInt 1.
Definition default_T_ref : num := PyInt 20.

(** ** Opening the target

    [open(path, "w")] can fail: the path is a directory, a directory on
    the way is missing, permission is denied (an [OSError]), the name
    holds a null character (a [ValueError]).  What [open] raises for a
    path, if anything, is a fact of the file system the program runs on;
    it is given as [open_error].  [save] above is the run in which the
    target opens; [IO.save] is the call as the source has it. *)
Module IO.

Definition open (open_error : string -> option exn) (path : string) (st : state)
  : result state :=
  match open_error path with
  | Some e => Raise e
  | None => Ok (open_w path st)
  end.

(** [with open(self.filename, "w") as fh:] and the body under it. *)
Definition save (open_error : string -> option exn) (verbose : bool) (st : state)
  : result unit * state :=
  let path := filename (self st) in
  match open open_error path st with
  | Raise e => (Raise e, st)
  | Ok st0 =>
      let st1 := fh_write path (header ++ newline) st0 in
      let st2 := if verbose then print "==============" st1 else st1 in
      save_loop verbose (events (self st)) st2
  end.

End IO.

(** ** The script *)

(** The [__main__] block: two events are appended to a collector with
    [prestress=10.0], then [stats] and [save] run. *)
Definition main (open_error : string -> option exn) (str_float : float -> string)
    (fs : string -> option string) : result unit * state :=
  let spectrum := init "example.spc" (PyFloat 10.0) default_sf_stress
                    default_sf_cycles in
  let st0 := mkState spectrum fs [] in
  match RandomEvent (PyFloat (300 * 1.15)) (PyInt 200) (PyInt 120) default_n
          "Random X" with
  | Raise e => (Raise e, st0)
  | Ok random_x =>
      let st1 := append random_x st0 in
      match ThermalEvent (PyInt 10) (PyInt 50) (PyInt 0) (PyInt 365) (PyInt 20)
              "Thermoelastic" with
      | Raise e => (Raise e, st1)
      | Ok thermoelastic =>
          let st2 := append thermoelastic st1 in
          match stats str_float st2 with
          | (Raise e, st3) => (Raise e, st3)
          | (Ok _, st3) => IO.save open_error true st3
          end
      end
  end.

(** * Definitions used in the statements *)

(** The text of a file made of the given lines, each ended by a newline. *)
Fixpoint unlines (ls : list string) : string :=
  match ls with
  | [] => ""
  | l :: ls' => l ++ newline ++ unlines ls'
  end.

(** The lines [save]'s loop gets to write: those of the events before the
    first one whose line raises. *)
Fixpoint written_lines (sp : StressSpectrum) (evs : list Event) : list string :=
  match evs with
  | [] => []
  | event :: rest =>
      match data_line sp event with
      | Ok s => s :: written_lines sp rest
      | Raise _ => []
      end
  end.

Definition loop_outcome (sp : StressSpectrum) (evs : list Event) : result unit :=
  match map_result (data_line sp) evs with
  | Ok _ => Ok tt
  | Raise e => Raise e
  end.

(** The shape of a fixed-point text with exactly two decimal digits. *)
Definition two_decimals (s : string) : Prop :=
  exists (negative : bool) (whole d1 d2 : Z),
    0 <= whole /\ 0 <= d1 <= 9 /\ 0 <= d2 <= 9
    /\ s = (if negative then "-" else "") ++ str_int whole ++ "."
           ++ String (digit d1) (String (digit d2) "").

Definition scaled_stress (sp : StressSpectrum) (s : num) : result num :=
  a <- py_mul (sf_stress sp) s ;; py_add a (prestres sp).

Definition scaled_cycles (sp : StressSpectrum) (n : num) : result Z :=
  c <- py_mul (sf_cycles sp) n ;; math_ceil c.

(** [l] is the data line of [e]: the scaled maximum, the scaled minimum
    (both through ['4.2f']) and the scaled cycles rounded up, two spaces
    apart. *)
Definition scaled_line (sp : StressSpectrum) (e : Event) (l : string) : Prop :=
  exists (smax smin : num) (xmax xmin : float) (n : Z),
    scaled_stress sp (s_max e) = Ok smax /\ to_float smax = Ok xmax
    /\ scaled_stress sp (s_min e) = Ok smin /\ to_float smin = Ok xmin
    /\ scaled_cycles sp (neq e) = Ok n
    /\ l = rjust 4 (format_2f xmax) ++ "  " ++ rjust 4 (format_2f xmin)
           ++ "  " ++ str_int n.

Definition no_files : string -> option string := fun _ => None.

(** A collector in a program that has printed nothing and has no files. *)
Definition fresh (sp : StressSpectrum) : state := mkState sp no_files [].

(** [sf_stress=2.0, sf_cycles=1.0, prestress=5.0] and the single event
    [(neq=10, s_min=-10, s_max=10)]. *)
Definition spectrum_round_trip : StressSpectrum :=
  mkStressSpectrum "out.spc" (PyFloat 5.0) (PyFloat 2.0) (PyFloat 1.0)
    [mkEvent (PyInt 10) (PyInt (-10)) (PyInt 10) ""].

(** The default factors ([sf_cycles=4.0]) and one event of [1e308] cycles. *)
Definition spectrum_overflow : StressSpectrum :=
  mkStressSpectrum "out.spc" default_prestress default_sf_stress default_sf_cycles
    [mkEvent (PyFloat 1e308) (PyFloat (-1.0)) (PyFloat 1.0) ""].

Definition spectrum_empty : StressSpectrum :=
  init "out.spc" default_prestress default_sf_stress default_sf_cycles.

(** A key that orders the non-NaN values as the float comparison does:
    the class (infinities outermost, zeros in the middle), then the
    exponent, then the mantissa, the last two mirrored for negatives. *)
Definition rank (x : spec_float) : option (Z * Z * Z) :=
  match x with
  | S754_nan => None
  | S754_infinity s => Some (if s then -2 else 2, 0, 0)
  | S754_zero _ => Some (0, 0, 0)
  | S754_finite s m e => Some (if s then (-1, - e, Z.neg m) else (1, e, Z.pos m))
  end.

Definition cmp3 (a b : Z * Z * Z) : comparison :=
  let '(a1, a2, a3) := a in
  let '(b1, b2, b3) := b in
  match a1 ?= b1 with
  | Eq => match a2 ?= b2 with Eq => a3 ?= b3 | c => c end
  | c => c
  end.

Definition frank (x : float) : option (Z * Z * Z) := rank (Prim2SF x).

Definition flt (x y : float) : Prop := (x <? y)%float = true.

Definition not_nan (x : float) : Prop := (x =? x)%float = true.

(** No two of the values are equal (as floats compare). *)
Fixpoint distinct (l : list float) : bool :=
  match l with
  | [] => true
  | k :: l' => forallb (fun k' => negb (k =? k')%float) l' && distinct l'
  end.

(** The tables a dict literal can denote and look up: keys that are
    numbers, pairwise different. *)
Definition is_dict (t : table) : bool :=
  forallb (fun k => (k =? k)%float) (keys t) && distinct (keys t).

(** [fn * duration * c], as Python evaluates it. *)
Definition cycles_product (fn duration : num) (c : float) : result num :=
  fd <- py_mul fn duration ;; py_mul fd (PyFloat c).

(** [60 / (sweep_rate * math.log(2)) * df] on a float sweep rate. *)
Definition sweep_cycles (r : float) : float :=
  (60 / (r * math_log_2) * 80)%float.

Definition int_neq (e : Event) : bool :=
  match neq e with PyInt _ => true | PyFloat _ => false end.

Definition int_value (v : num) : Z :=
  match v with PyInt z => z | PyFloat _ => 0 end.

(** The mathematical sum of the integer cycle counts. *)
Definition sum_int_neq (evs : list Event) : Z :=
  fold_right Z.add 0 (map (fun e => int_value (neq e)) evs).

(** Cycle counts that are floats, in two orders. *)
Definition spectrum_big_first : StressSpectrum :=
  mkStressSpectrum "out.spc" default_prestress default_sf_stress (PyFloat 1.0)
    [ mkEvent (PyFloat 0x1p60) (PyFloat (-1.0)) (PyFloat 1.0) "";
      mkEvent (PyFloat 128.0) (PyFloat (-1.0)) (PyFloat 1.0) "";
      mkEvent (PyFloat 0x1p-46) (PyFloat (-1.0)) (PyFloat 1.0) "";
      mkEvent (PyFloat 0x1p-46) (PyFloat (-1.0)) (PyFloat 1.0) "" ].

Definition spectrum_big_last : StressSpectrum :=
  mkStressSpectrum "out.spc" default_prestress default_sf_stress (PyFloat 1.0)
    [ mkEvent (PyFloat 0x1p-46) (PyFloat (-1.0)) (PyFloat 1.0) "";
      mkEvent (PyFloat 0x1p-46) (PyFloat (-1.0)) (PyFloat 1.0) "";
      mkEvent (PyFloat 128.0) (PyFloat (-1.0)) (PyFloat 1.0) "";
      mkEvent (PyFloat 0x1p60) (PyFloat (-1.0)) (PyFloat 1.0) "" ].

(** Integer cycle counts, as the three factories produce them. *)
Definition spectrum_example : StressSpectrum :=
  mkStressSpectrum "example.spc" (PyFloat 10.0) default_sf_stress default_sf_cycles
    [ mkEvent (PyInt 5328) (PyFloat (-345.0)) (PyFloat 345.0) "Random X";
      mkEvent (PyInt 365) (PyInt (-200)) (PyInt 300) "Thermoelastic" ].

Definition spectrum_example_swapped : StressSpectrum :=
  mkStressSpectrum "example.spc" (PyFloat 10.0) default_sf_stress default_sf_cycles
    [ mkEvent (PyInt 365) (PyInt (-200)) (PyInt 300) "Thermoelastic";
      mkEvent (PyInt 5328) (PyFloat (-345.0)) (PyFloat 345.0) "Random X" ].

(** Two points with equal values, and two whose values differ by one unit
    in the last place. *)
Definition table_flat : table := [ (0.0, 1.0); (1.0, 1.0) ]%float.

Definition table_one_ulp : table :=
  [ (0.0, 1.0); (1.0, 0x1.0000000000001p+0) ]%float.

(** The one-event collector with the given cycle factor. *)
Definition single (sf : num) (ev : Event) : StressSpectrum :=
  mkStressSpectrum "out.spc" default_prestress default_sf_stress sf [ev].

(** The values a flat segment's slope can take. *)
Definition zero_or_nan (x : spec_float) : bool :=
  match x with
  | S754_zero _ | S754_nan => true
  | _ => false
  end.

(** CPython 3.12 and later add floats with a compensated sum: the rounding
    errors are collected in [c] and added to the total at the end. *)
Fixpoint compensated_sum (total c : float) (l : list float) : float :=
  match l with
  | [] =>
      if is_finite c && negb (c =? 0)%float then (total + c)%float else total
  | x :: l' =>
      let t := (total + x)%float in
      let err :=
        if (abs x <=? abs total)%float then ((total - t) + x)%float
        else ((x - t) + total)%float in
      compensated_sum t (c + err)%float l'
  end.

(** The lines [save] echoes when [verbose]: the data line padded to 26
    characters, a bar and the description, for the events before the first
    one whose line raises. *)
Fixpoint echoed_lines (sp : StressSpectrum) (evs : list Event) : list string :=
  match evs with
  | [] => []
  | event :: rest =>
      match data_line sp event with
      | Ok s => (ljust 26 s ++ " | " ++ desc event) :: echoed_lines sp rest
      | Raise _ => []
      end
  end.



(** The sign bit of [x] is [s], or [x] is a NaN. *)
Definition has_sign (s : bool) (x : spec_float) : bool :=
  match x with
  | S754_nan => true
  | S754_zero s' | S754_infinity s' | S754_finite s' _ _ => Bool.eqb s s'
  end.

(** Three events of which the second cannot be scaled: [4.0 * 1e308]
    overflows. *)
Definition spectrum_partial : StressSpectrum :=
  mkStressSpectrum "out.spc" default_prestress default_sf_stress default_sf_cycles
    [ mkEvent (PyInt 10) (PyFloat (-1.0)) (PyFloat 1.0) "first";
      mkEvent (PyFloat 1e308) (PyFloat (-2.0)) (PyFloat 2.0) "second";
      mkEvent (PyInt 30) (PyFloat (-3.0)) (PyFloat 3.0) "third" ].

(** Three events with float stresses, the largest in the middle. *)
Definition spectrum_floats : StressSpectrum :=
  mkStressSpectrum "out.spc" default_prestress default_sf_stress default_sf_cycles
    [ mkEvent (PyInt 10) (PyFloat (-1.0)) (PyFloat 1.0) "first";
      mkEvent (PyInt 20) (PyFloat (-3.0)) (PyFloat 3.0) "second";
      mkEvent (PyInt 30) (PyFloat (-2.0)) (PyFloat 2.0) "third" ].

(** A table one of whose keys is a NaN. *)
Definition table_nan_key : table := [ (2.0, 0.5); (nan, 1.0); (3.0, 1.5) ]%float.

(** The table of [RandomEvent] filled in another order. *)
Definition table_n_shuffled : table :=
  [ (4.0, 0.099); (6.0, 0.066); (2.0, 0.222); (5.0, 0.077); (3.0, 0.139) ]%float.

(** [f"{sf_stress * s + prestress:4.2f}"], the text of a scaled stress. *)
Definition stress_text (sp : StressSpectrum) (s : num) : result string :=
  v <- scaled_stress sp s ;; format_4_2f v.

(** The factor [1.5] and two events of one cycle each. *)
Definition spectrum_half_cycles : StressSpectrum :=
  mkStressSpectrum "out.spc" default_prestress default_sf_stress (PyFloat 1.5)
    [ mkEvent (PyInt 1) (PyFloat (-1.0)) (PyFloat 1.0) "";
      mkEvent (PyInt 1) (PyFloat (-1.0)) (PyFloat 1.0) "" ].

(** The sum of the cycle counts [save] writes. *)
Definition written_cycles (sp : StressSpectrum) : result Z :=
  ns <- map_result (fun e => scaled_cycles sp (neq e)) (events sp) ;;
  Ok (fold_right Z.add 0 ns).

(** A file system on which every path opens, and one on which none does. *)
Definition all_open : string -> option exn := fun _ => None.

Definition none_open : string -> option exn := fun _ => Some OSError.

(** A collector whose first event has NaN stresses, one where a later
    event has them, and the latter without that event. *)
Definition spectrum_nan_first : StressSpectrum :=
  mkStressSpectrum "out.spc" default_prestress default_sf_stress default_sf_cycles
    [ mkEvent (PyInt 10) (PyFloat nan) (PyFloat nan) "first";
      mkEvent (PyInt 20) (PyFloat (-3.0)) (PyFloat 3.0) "second" ].

Definition spectrum_nan_later : StressSpectrum :=
  mkStressSpectrum "out.spc" default_prestress default_sf_stress default_sf_cycles
    [ mkEvent (PyInt 10) (PyFloat (-1.0)) (PyFloat 1.0) "first";
      mkEvent (PyInt 20) (PyFloat nan) (PyFloat nan) "second";
      mkEvent (PyInt 30) (PyFloat (-2.0)) (PyFloat 2.0) "third" ].

Definition spectrum_floats_two : StressSpectrum :=
  mkStressSpectrum "out.spc" default_prestress default_sf_stress default_sf_cycles
    [ mkEvent (PyInt 10) (PyFloat (-1.0)) (PyFloat 1.0) "first";
      mkEvent (PyInt 30) (PyFloat (-2.0)) (PyFloat 2.0) "third" ].

(** * Properties *)

(** ** Strings *)

Lemma append_assoc (a b c : string) : (a ++ b) ++ c = a ++ (b ++ c).
Proof. induction a as [|ch a IH]; simpl; [reflexivity | now rewrite IH]. Qed.

Lemma append_nil_r (a : string) : a ++ "" = a.
Proof. induction a as [|ch a IH]; simpl; [reflexivity | now rewrite IH]. Qed.

Lemma length_append (a b : string) :
  String.length (a ++ b) = (String.length a + String.length b)%nat.
Proof. induction a as [|ch a IH]; simpl; [reflexivity | now rewrite IH]. Qed.

Lemma unlines_app (l1 l2 : list string) :
  unlines (l1 ++ l2)%list = unlines l1 ++ unlines l2.
Proof.
  induction l1 as [|l l1 IH]; simpl; [reflexivity |].
  now rewrite IH, !append_assoc.
Qed.

(** ** The error monad *)

Lemma bind_ok {A B : Type} (r : result A) (k : A -> result B) (b : B) :
  bind r k = Ok b -> exists a, r = Ok a /\ k a = Ok b.
Proof. destruct r as [a|e]; simpl; [eauto | discriminate]. Qed.

Ltac bind_inv H :=
  match type of H with
  | bind ?r ?k = Ok _ =>
      let a := fresh "a" in
      let Ha := fresh "Ha" in
      apply bind_ok in H; destruct H as (a & Ha & H); bind_inv H
  | _ => idtac
  end.

Lemma map_result_length {A B : Type} (f : A -> result B) (l : list A) (bs : list B) :
  map_result f l = Ok bs -> List.length bs = List.length l.
Proof.
  revert bs; induction l as [|a l IH]; simpl; intros bs H.
  - now inversion H.
  - bind_inv H. inversion H; subst; simpl. f_equal; auto.
Qed.

Lemma map_result_Forall2 {A B : Type} (f : A -> result B) (l : list A) (bs : list B) :
  map_result f l = Ok bs <-> Forall2 (fun a b => f a = Ok b) l bs.
Proof.
  revert bs; induction l as [|a l IH]; simpl; intros bs; split; intros H.
  - inversion H; constructor.
  - inversion H; reflexivity.
  - bind_inv H. inversion H; subst. constructor; [assumption | now apply IH].
  - inversion H as [|? b ? bs' Hab Hrest]; subst.
    rewrite Hab; simpl. apply IH in Hrest. now rewrite Hrest.
Qed.

Lemma map_result_all_ok {A B : Type} (f : A -> result B) (l : list A) :
  (forall a, In a l -> is_ok (f a) = true) -> exists bs, map_result f l = Ok bs.
Proof.
  induction l as [|a l IH]; simpl; intros H.
  - now exists [].
  - destruct (f a) as [b|e] eqn:Hfa.
    + destruct IH as [bs Hbs]; [intros; apply H; now right |].
      exists (b :: bs); simpl. now rewrite Hbs.
    + specialize (H a (or_introl eq_refl)). rewrite Hfa in H. discriminate.
Qed.

(** ** [save] *)

Lemma written_lines_all (sp : StressSpectrum) (evs : list Event) (ls : list string) :
  map_result (data_line sp) evs = Ok ls -> written_lines sp evs = ls.
Proof.
  revert ls; induction evs as [|e evs IH]; simpl; intros ls H.
  - now inversion H.
  - bind_inv H. inversion H; subst. rewrite Ha. f_equal; auto.
Qed.

Lemma written_lines_app (sp : StressSpectrum) (l1 l2 : list Event) (ls : list string) :
  map_result (data_line sp) l1 = Ok ls ->
  written_lines sp (l1 ++ l2) = (ls ++ written_lines sp l2)%list.
Proof.
  revert ls; induction l1 as [|e l1 IH]; simpl; intros ls H.
  - now inversion H.
  - destruct (data_line sp e) as [s|]; [simpl in H | discriminate].
    destruct (map_result (data_line sp) l1) as [ls'|]; [simpl in H | discriminate].
    inversion H; subst. simpl. f_equal. now apply IH.
Qed.

Lemma loop_outcome_app (sp : StressSpectrum) (l1 l2 : list Event) (ls : list string) :
  map_result (data_line sp) l1 = Ok ls ->
  loop_outcome sp (l1 ++ l2) = loop_outcome sp l2.
Proof.
  revert ls; induction l1 as [|e l1 IH]; simpl; intros ls H; [reflexivity |].
  destruct (data_line sp e) as [s|] eqn:Es; [simpl in H | discriminate].
  destruct (map_result (data_line sp) l1) as [ls'|] eqn:El; [| discriminate].
  specialize (IH ls' eq_refl). unfold loop_outcome in *. simpl. rewrite Es. simpl.
  destruct (map_result (data_line sp) (l1 ++ l2)), (map_result (data_line sp) l2);
    simpl; congruence.
Qed.

Section SaveLoop.

Variable verbose : bool.

Lemma save_loop_spec (evs : list Event) :
  forall (st : state) (c : string),
    files st (filename (self st)) = Some c ->
    let sp := self st in
    let st' := snd (save_loop verbose evs st) in
    fst (save_loop verbose evs st) = loop_outcome sp evs
    /\ self st' = sp
    /\ files st' (filename sp) = Some (c ++ unlines (written_lines sp evs))
    /\ (forall p, p <> filename sp -> files st' p = files st p).
Proof.
  induction evs as [|e evs IH]; intros st c Hc; cbn zeta.
  - simpl. rewrite append_nil_r. auto.
  - unfold loop_outcome. simpl.
    destruct (data_line (self st) e) as [s|err] eqn:Hl; simpl.
    + set (st2 := if verbose then _ else _).
      assert (Hself : self st2 = self st) by (subst st2; now destruct verbose).
      assert (Hf : forall p, files st2 p =
                if String.eqb p (filename (self st))
                then Some (c ++ s ++ newline) else files st p).
      { intros p. subst st2. destruct verbose; simpl; now rewrite Hc. }
      destruct (IH st2 (c ++ s ++ newline)) as (H1 & H2 & H3 & H4).
      { rewrite Hself, Hf, String.eqb_refl. reflexivity. }
      rewrite Hself in *. repeat split.
      * rewrite H1. unfold loop_outcome.
        now destruct (map_result (data_line (self st)) evs).
      * assumption.
      * rewrite H3. now rewrite !append_assoc.
      * intros p Hp. rewrite (H4 p Hp), Hf.
        apply String.eqb_neq in Hp. now rewrite Hp.
    + rewrite append_nil_r. auto.
Qed.

(** What [save] leaves behind: the collector as it was, the target file
    rewritten from the collector alone, every other file untouched. *)
Lemma save_spec (st : state) :
  let sp := self st in
  let st' := snd (save verbose st) in
  fst (save verbose st) = loop_outcome sp (events sp)
  /\ self st' = sp
  /\ files st' (filename sp)
     = Some (unlines (header :: written_lines sp (events sp)))
  /\ (forall p, p <> filename sp -> files st' p = files st p).
Proof.
  unfold save. cbv zeta.
  set (st2 := if verbose then _ else _).
  assert (Hself : self st2 = self st) by (subst st2; now destruct verbose).
  assert (Hf : forall p, files st2 p =
            if String.eqb p (filename (self st))
            then Some (header ++ newline) else files st p).
  { intros p. subst st2.
    destruct verbose; unfold print, fh_write, open_w; cbn [files self];
      rewrite String.eqb_refl; now destruct (String.eqb p _). }
  destruct (save_loop_spec (events (self st)) st2 (header ++ newline))
    as (H1 & H2 & H3 & H4).
  { rewrite Hself, Hf, String.eqb_refl. reflexivity. }
  rewrite Hself in *. split; [assumption | split; [assumption | split]].
  - rewrite H3. cbn [unlines]. now rewrite !append_assoc.
  - intros p Hp. rewrite (H4 p Hp), Hf.
    apply String.eqb_neq in Hp. now rewrite Hp.
Qed.

End SaveLoop.

(** ** Opening the target *)

(** When the target opens, the call is the run [save] describes. *)
Lemma IO_save_opened (open_error : string -> option exn) (verbose : bool) (st : state) :
  open_error (filename (self st)) = None ->
  IO.save open_error verbose st = save verbose st.
Proof.
  intros H. unfold IO.save, IO.open, save. cbv zeta. now rewrite H.
Qed.

(** When [open] raises, nothing is written and nothing is printed. *)
Lemma IO_save_refused (open_error : string -> option exn) (verbose : bool)
    (st : state) (err : exn) :
  open_error (filename (self st)) = Some err ->
  IO.save open_error verbose st = (Raise err, st).
Proof.
  intros H. unfold IO.save, IO.open. cbv zeta. now rewrite H.
Qed.

(** ** Formatting with two decimals *)

Lemma str_int_nonempty (z : Z) : (1 <= String.length (str_int z))%nat.
Proof.
  unfold str_int. destruct (Z.to_int z) as [d|d]; simpl.
  - destruct d; simpl; lia.
  - lia.
Qed.

Lemma round_half_even_nonneg (n d : Z) : 0 <= n -> 0 < d -> 0 <= round_half_even n d.
Proof.
  intros Hn Hd. unfold round_half_even.
  assert (0 <= n / d) by (apply Z.div_pos; lia).
  destruct (2 * (n mod d) ?= d); [destruct (Z.even (n / d)) | |]; lia.
Qed.

Lemma hundredths_nonneg (m : positive) (e : Z) : 0 <= hundredths m e.
Proof.
  unfold hundredths. destruct (0 <=? e) eqn:He.
  - apply Z.leb_le in He. assert (0 < 2 ^ e) by (apply Z.pow_pos_nonneg; lia). nia.
  - apply Z.leb_gt in He. apply round_half_even_nonneg; [lia |].
    apply Z.pow_pos_nonneg; lia.
Qed.

Lemma fixed2_two_decimals (s : bool) (h : Z) : 0 <= h -> two_decimals (fixed2 s h).
Proof.
  intros Hh. exists s, (h / 100), (h mod 100 / 10), (h mod 10).
  assert (0 <= h mod 100 < 100) by (apply Z.mod_pos_bound; lia).
  assert (0 <= h mod 10 < 10) by (apply Z.mod_pos_bound; lia).
  assert (0 <= h mod 100 / 10) by (apply Z.div_pos; lia).
  assert (h mod 100 / 10 < 10) by (apply Z.div_lt_upper_bound; lia).
  repeat split; try lia. apply Z.div_pos; lia.
Qed.

Lemma two_decimals_length (s : string) : two_decimals s -> (4 <= String.length s)%nat.
Proof.
  intros (sg & w & d1 & d2 & _ & _ & _ & ->).
  rewrite !length_append. pose proof (str_int_nonempty w). simpl. lia.
Qed.

Lemma rjust_short (w : nat) (s : string) : (w <= String.length s)%nat -> rjust w s = s.
Proof.
  intros H. unfold rjust. replace (w - String.length s)%nat with 0%nat by lia.
  reflexivity.
Qed.

(** A finite float is printed by ['4.2f'] with exactly two decimal digits,
    and needs no padding. *)
Lemma format_2f_finite (f : float) :
  is_finite f = true ->
  two_decimals (format_2f f) /\ rjust 4 (format_2f f) = format_2f f.
Proof.
  unfold is_finite, format_2f. intros H.
  assert (Ht : two_decimals
                 match Prim2SF f with
                 | S754_zero s => fixed2 s 0
                 | S754_infinity s => if s then "-inf" else "inf"
                 | S754_nan => "nan"
                 | S754_finite s m e => fixed2 s (hundredths m e)
                 end).
  { destruct (Prim2SF f) as [s|s| |s m e]; try discriminate.
    - apply fixed2_two_decimals; lia.
    - apply fixed2_two_decimals, hundredths_nonneg. }
  split; [exact Ht |]. apply rjust_short, two_decimals_length, Ht.
Qed.

(** ** The data lines of [save] *)

Lemma data_line_scaled (sp : StressSpectrum) (e : Event) (l : string) :
  data_line sp e = Ok l -> scaled_line sp e l.
Proof.
  unfold data_line, scaled_line, scaled_stress, scaled_cycles, format_4_2f.
  destruct (py_mul (sf_stress sp) (s_min e)) as [a|] eqn:E1; [simpl | discriminate].
  destruct (py_add a (prestres sp)) as [smin|] eqn:E2; [simpl | discriminate].
  destruct (py_mul (sf_stress sp) (s_max e)) as [b|] eqn:E3; [simpl | discriminate].
  destruct (py_add b (prestres sp)) as [smax|] eqn:E4; [simpl | discriminate].
  destruct (py_mul (sf_cycles sp) (neq e)) as [c|] eqn:E5; [simpl | discriminate].
  destruct (math_ceil c) as [n|] eqn:E6; [simpl | discriminate].
  destruct (to_float smax) as [xmax|] eqn:E7; [simpl | discriminate].
  destruct (to_float smin) as [xmin|] eqn:E8; [simpl | discriminate].
  intros H; inversion H; subst; clear H.
  exists smax, smin, xmax, xmin, n. repeat split; assumption.
Qed.

(** ** Saving, and the empty collector *)

Lemma math_ceil_ok (p : float) : is_ok (math_ceil (PyFloat p)) = is_finite p.
Proof. unfold math_ceil, is_finite. now destruct (Prim2SF p). Qed.

(** With float factors and float stresses only the cycle count can make a
    line fail. *)
Lemma data_line_float_stress (sp : StressSpectrum) (e : Event) (a b x y : float) :
  prestres sp = PyFloat a -> sf_stress sp = PyFloat b ->
  s_min e = PyFloat x -> s_max e = PyFloat y ->
  is_ok (data_line sp e) = is_ok (scaled_cycles sp (neq e)).
Proof.
  intros Ha Hb Hx Hy. unfold data_line, scaled_cycles, format_4_2f.
  rewrite Ha, Hb, Hx, Hy. cbn [py_mul py_add arith to_float bind].
  destruct (py_mul (sf_cycles sp) (neq e)) as [c|]; [cbn [bind] | reflexivity].
  now destruct (math_ceil c).
Qed.

Lemma scaled_cycles_float (sp : StressSpectrum) (c n : float) :
  sf_cycles sp = PyFloat c ->
  is_ok (scaled_cycles sp (PyFloat n)) = is_finite (c * n)%float.
Proof.
  intros Hc. unfold scaled_cycles. rewrite Hc.
  cbn [py_mul arith to_float bind]. apply math_ceil_ok.
Qed.

Lemma scaled_cycles_int (sp : StressSpectrum) (c : float) (z : Z) :
  sf_cycles sp = PyFloat c ->
  is_ok (scaled_cycles sp (PyInt z))
  = match float_of_int z with
    | Ok f => is_finite (c * f)%float
    | Raise _ => false
    end.
Proof.
  intros Hc. unfold scaled_cycles. rewrite Hc.
  cbn [py_mul arith to_float bind].
  destruct (float_of_int z) as [f|]; [cbn [bind] | reflexivity].
  apply math_ceil_ok.
Qed.

(** C1 (as amended): [save] raises what [open] raises when the target
    cannot be opened for writing, and then writes and prints nothing.
    When the target opens and every event can be scaled and formatted
    without an error, [save] succeeds and the file is the header line
    followed by one line per event, in append order; the line of an event
    is the scaled maximum, the scaled minimum and the rounded-up scaled
    cycles, two spaces apart, and a finite stress is printed with exactly
    two decimal digits.  When the line of an event cannot be computed,
    [save] stops at that event: it raises the event's error and the file
    holds the header and the lines of the events before it.  With float
    factors and stresses a line fails only through its cycle count: a
    float count fails exactly when [sf_cycles * neq] is infinite or NaN,
    an [int] count exactly when it has no float or [sf_cycles * float(neq)]
    is infinite or NaN.  For [sf_stress=2.0, sf_cycles=1.0, prestress=5.0]
    and the event [(10, -10, 10)] the data line is
    ["25.00  -15.00  10"]. *)
Theorem save_writes_scaled_lines :
  (forall (open_error : string -> option exn) (verbose : bool) (st : state),
      let sp := self st in
      open_error (filename sp) = None ->
      (forall e, In e (events sp) -> is_ok (data_line sp e) = true) ->
      exists lines : list string,
        fst (IO.save open_error verbose st) = Ok tt
        /\ files (snd (IO.save open_error verbose st)) (filename sp)
           = Some (unlines (header :: lines))
        /\ Forall2 (scaled_line sp) (events sp) lines)
  /\ (forall (open_error : string -> option exn) (verbose : bool) (st : state)
             (err : exn),
         open_error (filename (self st)) = Some err ->
         IO.save open_error verbose st = (Raise err, st))
  /\ (forall (open_error : string -> option exn) (verbose : bool) (st : state)
             (pre post : list Event) (e : Event) (ls : list string) (err : exn),
         let sp := self st in
         open_error (filename sp) = None ->
         events sp = (pre ++ e :: post)%list ->
         map_result (data_line sp) pre = Ok ls ->
         data_line sp e = Raise err ->
         fst (IO.save open_error verbose st) = Raise err
         /\ files (snd (IO.save open_error verbose st)) (filename sp)
            = Some (unlines (header :: ls)))
  /\ (forall x : float,
         is_finite x = true -> two_decimals (rjust 4 (format_2f x)))
  /\ (forall (sp : StressSpectrum) (e : Event) (a b x y : float),
         prestres sp = PyFloat a -> sf_stress sp = PyFloat b ->
         s_min e = PyFloat x -> s_max e = PyFloat y ->
         is_ok (data_line sp e) = is_ok (scaled_cycles sp (neq e)))
  /\ (forall (sp : StressSpectrum) (c n : float),
         sf_cycles sp = PyFloat c ->
         is_ok (scaled_cycles sp (PyFloat n)) = is_finite (c * n)%float)
  /\ (forall (sp : StressSpectrum) (c : float) (z : Z),
         sf_cycles sp = PyFloat c ->
         is_ok (scaled_cycles sp (PyInt z))
         = match float_of_int z with
           | Ok f => is_finite (c * f)%float
           | Raise _ => false
           end)
  /\ files (snd (IO.save all_open true (fresh spectrum_round_trip))) "out.spc"
     = Some (unlines ["max min cycle format"; "25.00  -15.00  10"]).
Proof.
  split; [| split; [| split; [| split; [| split; [| split; [| split]]]]]].
  - intros open_error verbose st sp Hopen Hok.
    rewrite (IO_save_opened open_error verbose st Hopen).
    destruct (map_result_all_ok _ _ Hok) as [lines Hlines].
    exists lines.
    destruct (save_spec verbose st) as (H1 & _ & H3 & _).
    fold sp in H1, H3. split; [| split].
    + rewrite H1. unfold loop_outcome. now rewrite Hlines.
    + rewrite H3. now rewrite (written_lines_all _ _ _ Hlines).
    + apply map_result_Forall2 in Hlines.
      eapply Forall2_impl; [| exact Hlines].
      intros e l. apply data_line_scaled.
  - exact IO_save_refused.
  - intros open_error verbose st pre post e ls err sp Hopen Hev Hpre He.
    rewrite (IO_save_opened open_error verbose st Hopen).
    destruct (save_spec verbose st) as (H1 & _ & H3 & _).
    fold sp in H1, H3. split.
    + rewrite H1, Hev, (loop_outcome_app _ _ _ _ Hpre).
      unfold loop_outcome. simpl. now rewrite He.
    + rewrite H3, Hev, (written_lines_app _ _ _ _ Hpre). simpl. rewrite He.
      now rewrite app_nil_r.
  - intros x Hx. destruct (format_2f_finite x Hx) as [Ht Hr]. now rewrite Hr.
  - exact data_line_float_stress.
  - exact scaled_cycles_float.
  - exact scaled_cycles_int.
  - vm_compute. reflexivity.
Qed.

Lemma save_writes_scaled_lines_witness :
  (exists lines : list string,
      fst (IO.save all_open true (fresh spectrum_round_trip)) = Ok tt
      /\ files (snd (IO.save all_open true (fresh spectrum_round_trip))) "out.spc"
         = Some (unlines (header :: lines))
      /\ Forall2 (scaled_line spectrum_round_trip)
           (events spectrum_round_trip) lines)
  /\ IO.save none_open true (fresh spectrum_round_trip)
     = (Raise OSError, fresh spectrum_round_trip)
  /\ (fst (IO.save all_open true (fresh spectrum_partial)) = Raise OverflowError
      /\ files (snd (IO.save all_open true (fresh spectrum_partial))) "out.spc"
         = Some (unlines [header; "1.00  -1.00  40"])).
Proof.
  split; [| split].
  - apply (proj1 save_writes_scaled_lines all_open true (fresh spectrum_round_trip)).
    + reflexivity.
    + intros e [<- | []]. vm_compute. reflexivity.
  - apply (proj1 (proj2 save_writes_scaled_lines) none_open true
             (fresh spectrum_round_trip) OSError).
    reflexivity.
  - apply (proj1 (proj2 (proj2 save_writes_scaled_lines)) all_open true
             (fresh spectrum_partial)
             [mkEvent (PyInt 10) (PyFloat (-1.0)) (PyFloat 1.0) "first"]
             [mkEvent (PyInt 30) (PyFloat (-3.0)) (PyFloat 3.0) "third"]
             (mkEvent (PyFloat 1e308) (PyFloat (-2.0)) (PyFloat 2.0) "second")
             ["1.00  -1.00  40"] OverflowError).
    + reflexivity.
    + reflexivity.
    + vm_compute. reflexivity.
    + vm_compute. reflexivity.
Defined.

(** C1 fails as stated: with the default [sf_cycles=4.0] an event of
    [1e308] cycles makes [4.0 * 1e308] overflow, [math.ceil] raises
    [OverflowError], and the file, which did open, holds the header and no
    data line. *)
Lemma save_overflow_counterexample :
  events spectrum_overflow <> []
  /\ fst (IO.save all_open true (fresh spectrum_overflow)) = Raise OverflowError
  /\ files (snd (IO.save all_open true (fresh spectrum_overflow))) "out.spc"
     = Some (unlines ["max min cycle format"]).
Proof.
  split; [discriminate |]. split; vm_compute; reflexivity.
Qed.

(** C3 (as amended): on a collector with no events [stats] fails with the
    [ValueError] of [max] over an empty list, before printing anything;
    [save] does not fail on account of the empty collector: when the
    target opens it succeeds and writes the header line alone, and it
    raises only what [open] raises when the target cannot be opened. *)
Theorem empty_spectrum_stats_fails_save_succeeds
    (open_error : string -> option exn) (str_float : float -> string)
    (verbose : bool) (st : state) :
  events (self st) = [] ->
  stats str_float st = (Raise ValueError, st)
  /\ (open_error (filename (self st)) = None ->
      fst (IO.save open_error verbose st) = Ok tt
      /\ files (snd (IO.save open_error verbose st)) (filename (self st))
         = Some (unlines [header]))
  /\ (forall err : exn,
         open_error (filename (self st)) = Some err ->
         IO.save open_error verbose st = (Raise err, st)).
Proof.
  intros Hev. split; [| split].
  - unfold stats. rewrite Hev. reflexivity.
  - intros Hopen. rewrite (IO_save_opened open_error verbose st Hopen).
    destruct (save_spec verbose st) as (H1 & _ & H3 & _). split.
    + rewrite H1, Hev. reflexivity.
    + rewrite H3, Hev. reflexivity.
  - intros err. apply IO_save_refused.
Qed.

Lemma empty_spectrum_witness :
  stats (fun _ => "") (fresh spectrum_empty)
  = (Raise ValueError, fresh spectrum_empty)
  /\ (fst (IO.save all_open true (fresh spectrum_empty)) = Ok tt
      /\ files (snd (IO.save all_open true (fresh spectrum_empty))) "out.spc"
         = Some (unlines [header]))
  /\ IO.save none_open true (fresh spectrum_empty)
     = (Raise OSError, fresh spectrum_empty).
Proof.
  pose proof (empty_spectrum_stats_fails_save_succeeds all_open (fun _ => "") true
                (fresh spectrum_empty) eq_refl) as (H1 & H2 & _).
  pose proof (empty_spectrum_stats_fails_save_succeeds none_open (fun _ => "") true
                (fresh spectrum_empty) eq_refl) as (_ & _ & H3).
  split; [exact H1 | split; [exact (H2 eq_refl) | exact (H3 OSError eq_refl)]].
Defined.

(** C3 fails as stated: [save] on a collector with no events, with a
    target that opens, succeeds. *)
Lemma save_empty_counterexample :
  events spectrum_empty = []
  /\ fst (IO.save all_open true (fresh spectrum_empty)) = Ok tt
  /\ ~ (exists e, fst (IO.save all_open true (fresh spectrum_empty)) = Raise e).
Proof.
  split; [reflexivity |]. split; [vm_compute; reflexivity |].
  intros [e He]. vm_compute in He. discriminate.
Qed.

(** C9: [save] leaves the collector as it was, and the file it writes is
    determined by the collector alone (the previous contents are
    overwritten); hence a second [save] with no [append] in between leaves
    every file, the target included, exactly as the first did, and ends
    the same way. *)
Theorem save_twice_same_files (v1 v2 : bool) (st : state) :
  let st1 := snd (save v1 st) in
  let st2 := snd (save v2 st1) in
  self st1 = self st
  /\ self st2 = self st
  /\ (forall st' : state,
         self st' = self st ->
         files (snd (save v2 st')) (filename (self st))
         = files st1 (filename (self st)))
  /\ (forall p : string, files st2 p = files st1 p)
  /\ fst (save v2 st1) = fst (save v1 st).
Proof.
  cbn zeta.
  destruct (save_spec v1 st) as (A1 & A2 & A3 & A4).
  destruct (save_spec v2 (snd (save v1 st))) as (B1 & B2 & B3 & B4).
  rewrite A2 in B1, B2, B3, B4.
  split; [exact A2 | split; [exact B2 | split; [| split]]].
  - intros st' Hst'.
    destruct (save_spec v2 st') as (_ & _ & C3 & _). rewrite Hst' in C3.
    now rewrite C3, A3.
  - intros p. destruct (String.eqb_spec p (filename (self st))) as [-> | Hp].
    + now rewrite B3, A3.
    + now apply B4.
  - now rewrite B1, A1.
Qed.

(** ** The order of binary64 values *)

Lemma SFcompare_rank (x y : spec_float) :
  SFcompare x y =
  match rank x, rank y with
  | Some a, Some b => Some (cmp3 a b)
  | _, _ => None
  end.
Proof.
  destruct x as [s1|s1| |s1 m1 e1], y as [s2|s2| |s2 m2 e2];
    try destruct s1; try destruct s2; try reflexivity; simpl.
  rewrite Z.compare_opp, (Z.compare_antisym e1 e2).
  destruct (e1 ?= e2); reflexivity.
Qed.

Lemma cmp3_spec (a b : Z * Z * Z) :
  let '(a1, a2, a3) := a in
  let '(b1, b2, b3) := b in
  match cmp3 a b with
  | Eq => a1 = b1 /\ a2 = b2 /\ a3 = b3
  | Lt => a1 < b1 \/ (a1 = b1 /\ (a2 < b2 \/ (a2 = b2 /\ a3 < b3)))
  | Gt => b1 < a1 \/ (a1 = b1 /\ (b2 < a2 \/ (a2 = b2 /\ b3 < a3)))
  end.
Proof.
  destruct a as [[a1 a2] a3], b as [[b1 b2] b3]; simpl.
  destruct (Z.compare_spec a1 b1), (Z.compare_spec a2 b2),
    (Z.compare_spec a3 b3); lia.
Qed.

Lemma ltb_rank (x y : float) :
  (x <? y)%float =
  match frank x, frank y with
  | Some a, Some b => match cmp3 a b with Lt => true | _ => false end
  | _, _ => false
  end.
Proof.
  rewrite FloatAxioms.ltb_spec. unfold SFltb, frank. rewrite SFcompare_rank.
  now destruct (rank (Prim2SF x)), (rank (Prim2SF y)).
Qed.

Lemma eqb_rank (x y : float) :
  (x =? y)%float =
  match frank x, frank y with
  | Some a, Some b => match cmp3 a b with Eq => true | _ => false end
  | _, _ => false
  end.
Proof.
  rewrite FloatAxioms.eqb_spec. unfold SFeqb, frank. rewrite SFcompare_rank.
  now destruct (rank (Prim2SF x)), (rank (Prim2SF y)).
Qed.

Lemma leb_rank (x y : float) :
  (x <=? y)%float =
  match frank x, frank y with
  | Some a, Some b => match cmp3 a b with Gt => false | _ => true end
  | _, _ => false
  end.
Proof.
  rewrite FloatAxioms.leb_spec. unfold SFleb, frank. rewrite SFcompare_rank.
  now destruct (rank (Prim2SF x)), (rank (Prim2SF y)).
Qed.

(** Decides a goal about float comparisons from hypotheses about float
    comparisons, through the ranks of the values involved. *)
Ltac float_order :=
  rewrite ?ltb_rank, ?eqb_rank, ?leb_rank in *;
  repeat match goal with
    | |- context [frank ?x] => destruct (frank x) as [[[? ?] ?]|]
    | H : context [frank ?x] |- _ => destruct (frank x) as [[[? ?] ?]|]
    end;
  try discriminate; try reflexivity;
  repeat match goal with
    | |- context [cmp3 ?a ?b] =>
        let c := fresh "c" in
        pose proof (cmp3_spec a b) as c; cbv beta iota in c;
        destruct (cmp3 a b)
    | H : context [cmp3 ?a ?b] |- _ =>
        let c := fresh "c" in
        pose proof (cmp3_spec a b) as c; cbv beta iota in c;
        destruct (cmp3 a b)
    end;
  try discriminate; try reflexivity; try (exfalso; lia); try lia.

Lemma ltb_trans (x y z : float) :
  (x <? y)%float = true -> (y <? z)%float = true -> (x <? z)%float = true.
Proof. intros H1 H2. float_order. Qed.

Lemma ltb_asym (x y : float) :
  (x <? y)%float = true -> (y <? x)%float = false.
Proof. intros H. float_order. Qed.

Lemma ltb_neq (x y : float) :
  (x <? y)%float = true -> (x =? y)%float = false.
Proof. intros H. float_order. Qed.

Lemma ltb_not_nan_l (x y : float) :
  (x <? y)%float = true -> (x =? x)%float = true.
Proof. intros H. float_order. Qed.

Lemma ltb_not_nan_r (x y : float) :
  (x <? y)%float = true -> (y =? y)%float = true.
Proof. intros H. float_order. Qed.

Lemma leb_not_ltb (x y : float) :
  (x <=? y)%float = true -> (y <? x)%float = false.
Proof. intros H. float_order. Qed.

Lemma eqb_sym (x y : float) : (x =? y)%float = (y =? x)%float.
Proof. float_order. Qed.

Lemma eqb_not_nan_l (x y : float) :
  (x =? y)%float = true -> (x =? x)%float = true.
Proof. intros H. float_order. Qed.

Lemma eqb_ltb_l (x y z : float) :
  (x =? y)%float = true -> (x <? z)%float = (y <? z)%float.
Proof. intros H. float_order. Qed.

Lemma eqb_ltb_r (x y z : float) :
  (x =? y)%float = true -> (z <? x)%float = (z <? y)%float.
Proof. intros H. float_order. Qed.

Lemma eqb_eqb_r (x y z : float) :
  (x =? y)%float = true -> (z =? x)%float = (z =? y)%float.
Proof. intros H. float_order. Qed.

Lemma float_total (x y : float) :
  (x =? x)%float = true -> (y =? y)%float = true ->
  (x <? y)%float = true \/ (x =? y)%float = true \/ (y <? x)%float = true.
Proof.
  intros Hx Hy.
  destruct (x <? y)%float eqn:E1; [now left |].
  destruct (x =? y)%float eqn:E2; [now right; left |].
  right; right. float_order.
Qed.

(** ** Integers that a float holds exactly *)

Lemma iter_pos_nat {A : Type} (f : A -> A) (n : positive) (x : A) :
  iter_pos f n x = Nat.iter (Pos.to_nat n) f x.
Proof.
  revert x; induction n as [n IH|n IH|]; intros x; cbn [iter_pos].
  - rewrite !IH.
    replace (Pos.to_nat n~1) with (Pos.to_nat n + (Pos.to_nat n + 1))%nat by lia.
    rewrite !Nat.iter_add. reflexivity.
  - rewrite !IH.
    replace (Pos.to_nat n~0) with (Pos.to_nat n + Pos.to_nat n)%nat by lia.
    rewrite Nat.iter_add. reflexivity.
  - reflexivity.
Qed.

Lemma shr_1_iter (k : nat) (m : positive) :
  Nat.iter k shr_1 (Build_shr_record (Z.pos (Nat.iter k xO m)) false false)
  = Build_shr_record (Z.pos m) false false.
Proof.
  induction k as [|k IH]; [reflexivity |].
  rewrite Nat.iter_succ_r, Nat.iter_succ. cbn [shr_1 orb]. exact IH.
Qed.

Lemma digits2_iter (k : nat) (m : positive) :
  Z.pos (digits2_pos (Nat.iter k xO m)) = Z.pos (digits2_pos m) + Z.of_nat k.
Proof.
  induction k as [|k IH]; [simpl; lia |].
  rewrite Nat.iter_succ. cbn [digits2_pos]. rewrite Pos2Z.inj_succ, IH. lia.
Qed.

Lemma bounded_spec (m : positive) (e : Z) :
  bounded prec emax m e = true <->
  Z.max (Z.pos (digits2_pos m) + e - 53) (-1074) = e /\ e <= 971.
Proof.
  unfold bounded, canonical_mantissa, fexp, emin, prec, emax.
  rewrite andb_true_iff, Z.eqb_eq, Z.leb_le. 
  change (3 - 1024 - 53) with (-1074). change (1024 - 53) with 971. reflexivity.
Qed.

Lemma shr_fexp_canonical (m : positive) (e : Z) :
  bounded prec emax m e = true ->
  shr_fexp prec emax (Z.pos m) e loc_Exact
  = (Build_shr_record (Z.pos m) false false, e).
Proof.
  intros H. apply bounded_spec in H. destruct H as [H _].
  unfold shr_fexp, fexp, emin, prec, emax, Zdigits2.
  change (3 - 1024 - 53) with (-1074).
  rewrite H, Z.sub_diag. reflexivity.
Qed.

Lemma binary_round_aux_canonical (s : bool) (m : positive) (e : Z) :
  bounded prec emax m e = true ->
  binary_round_aux prec emax s (Z.pos m) e loc_Exact = S754_finite s m e.
Proof.
  intros H. unfold binary_round_aux.
  rewrite (shr_fexp_canonical m e H). cbn [shr_m loc_of_shr_record round_nearest_even].
  rewrite (shr_fexp_canonical m e H). cbn [shr_m].
  apply bounded_spec in H. destruct H as [_ H].
  unfold emax, prec. change (1024 - 53) with 971.
  apply Z.leb_le in H. now rewrite H.
Qed.

Lemma binary_round_aux_shifted (s : bool) (m : positive) (e : Z) (n : positive) :
  bounded prec emax m e = true ->
  binary_round_aux prec emax s (Z.pos (Pos.iter xO m n)) (e - Z.pos n) loc_Exact
  = S754_finite s m e.
Proof.
  intros H. unfold binary_round_aux.
  assert (E : shr_fexp prec emax (Z.pos (Pos.iter xO m n)) (e - Z.pos n) loc_Exact
              = (Build_shr_record (Z.pos m) false false, e)).
  { pose proof H as H'. apply bounded_spec in H'. destruct H' as [H' _].
    unfold shr_fexp, fexp, emin, prec, emax, Zdigits2.
    change (3 - 1024 - 53) with (-1074).
    assert (En : Pos.iter xO m n = Nat.iter (Pos.to_nat n) xO m)
      by apply Pos2Nat.inj_iter.
    rewrite En, digits2_iter, positive_nat_Z.
    replace (Z.pos (digits2_pos m) + Z.pos n + (e - Z.pos n) - 53)
      with (Z.pos (digits2_pos m) + e - 53) by lia.
    rewrite H'. replace (e - (e - Z.pos n)) with (Z.pos n) by lia.
    unfold shr. cbn [shr_record_of_loc]. rewrite iter_pos_nat, shr_1_iter.
    f_equal. lia. }
  rewrite E. cbn [shr_m loc_of_shr_record round_nearest_even].
  rewrite (shr_fexp_canonical m e H). cbn [shr_m].
  apply bounded_spec in H. destruct H as [_ H].
  unfold emax, prec. change (1024 - 53) with 971.
  apply Z.leb_le in H. now rewrite H.
Qed.

Lemma SFmul_one (x : spec_float) :
  valid_binary x = true ->
  SF64mul (S754_finite false 4503599627370496 (-52)) x = x.
Proof.
  destruct x as [s|s| |s m e]; try reflexivity.
  intros H. cbn [valid_binary] in H. unfold SF64mul, SFmul. cbn [xorb].
  change (Pos.mul 4503599627370496 m) with (Pos.iter xO m 52).
  replace (-52 + e) with (e - 52) by lia.
  now apply binary_round_aux_shifted.
Qed.

Lemma mul_one_l (f : float) : (1 * f)%float = f.
Proof.
  apply Prim2SF_inj. rewrite mul_spec.
  change (Prim2SF 1) with (S754_finite false 4503599627370496 (-52)).
  apply SFmul_one, Prim2SF_valid.
Qed.

Lemma digits2_pos_size (p : positive) : digits2_pos p = Pos.size p.
Proof. induction p; simpl; congruence. Qed.

Lemma digits2_small (p : positive) :
  Z.pos p < 2 ^ 53 -> Z.pos (digits2_pos p) <= 53.
Proof.
  intros H. rewrite digits2_pos_size.
  pose proof (Pos.size_le p) as Hs.
  apply Pos2Z.pos_le_pos in Hs. rewrite Pos2Z.inj_pow in Hs.
  change (Z.pos p~0) with (2 * Z.pos p) in Hs.
  destruct (Z_le_gt_dec (Z.pos (Pos.size p)) 53) as [|Hgt]; [assumption |].
  exfalso.
  assert (2 ^ 54 <= 2 ^ Z.pos (Pos.size p)) by (apply Z.pow_le_mono_r; lia).
  change (2 ^ 54) with (2 * 2 ^ 53) in *. lia.
Qed.

Lemma digits2_bound (p : positive) :
  Z.pos (digits2_pos p) <= 53 -> Z.pos p < 2 ^ 53.
Proof.
  intros H. rewrite digits2_pos_size in H.
  pose proof (Pos.size_gt p) as Hs.
  apply Pos2Z.pos_lt_pos in Hs. rewrite Pos2Z.inj_pow in Hs.
  assert (2 ^ Z.pos (Pos.size p) <= 2 ^ 53) by (apply Z.pow_le_mono_r; lia).
  lia.
Qed.

Lemma iter_xO_value (k : nat) (m : positive) :
  Z.pos (Nat.iter k xO m) = Z.pos m * 2 ^ Z.of_nat k.
Proof.
  induction k as [|k IH]; [simpl; lia |].
  rewrite Nat.iter_succ, Pos2Z.inj_xO, IH, Nat2Z.inj_succ, Z.pow_succ_r by lia.
  lia.
Qed.

Lemma pos_iter_xO_value (n m : positive) :
  Z.pos (Pos.iter xO m n) = Z.pos m * 2 ^ Z.pos n.
Proof.
  assert (En : Pos.iter xO m n = Nat.iter (Pos.to_nat n) xO m)
    by apply Pos2Nat.inj_iter.
  now rewrite En, iter_xO_value, positive_nat_Z.
Qed.

(** Rounding an integer of at most 53 bits changes nothing. *)
Lemma binary_round_small (s : bool) (mz : positive) :
  Z.pos (digits2_pos mz) <= 53 ->
  exists (m' : positive) (e' : Z),
    binary_round prec emax s mz 0 = S754_finite s m' e'
    /\ bounded prec emax m' e' = true
    /\ e' <= 0 /\ Z.pos m' = Z.pos mz * 2 ^ (- e').
Proof.
  intros Hd. unfold binary_round, shl_align, fexp, emin, prec, emax.
  change (3 - 1024 - 53) with (-1074).
  rewrite Z.add_0_r, Z.sub_0_r.
  pose proof (Pos2Z.is_pos (digits2_pos mz)) as Hpos.
  rewrite Z.max_l by lia.
  destruct (Z.pos (digits2_pos mz) - 53) as [|q|q] eqn:E; try lia.
  - exists mz, 0.
    assert (Hb : bounded prec emax mz 0 = true).
    { apply bounded_spec. lia. }
    split; [now apply binary_round_aux_canonical |]. repeat split; try lia.
    exact Hb.
  - exists (Pos.iter xO mz q), (Z.neg q).
    assert (En : Pos.iter xO mz q = Nat.iter (Pos.to_nat q) xO mz)
      by apply Pos2Nat.inj_iter.
    assert (Hb : bounded prec emax (Pos.iter xO mz q) (Z.neg q) = true).
    { apply bounded_spec. rewrite En, digits2_iter, positive_nat_Z. lia. }
    split; [now apply binary_round_aux_canonical |].
    split; [exact Hb |]. split; [lia |].
    change (- Z.neg q) with (Z.pos q). apply pos_iter_xO_value.
Qed.

Lemma signed_shift (s : bool) (m n : positive) :
  signed s m * 2 ^ Z.pos n = signed s (Pos.iter xO m n).
Proof.
  pose proof (pos_iter_xO_value n m) as H.
  destruct s; unfold signed; [| now rewrite H].
  rewrite <- !Pos2Z.opp_pos, H. lia.
Qed.

Lemma binary_round_zero_exponent (s : bool) (m : positive) :
  bounded prec emax m 0 = true ->
  binary_round prec emax s m 0 = S754_finite s m 0.
Proof.
  intros H. pose proof H as H'. apply bounded_spec in H'. destruct H' as [H' _].
  unfold binary_round, shl_align, fexp, emin, prec, emax.
  change (3 - 1024 - 53) with (-1074). rewrite Z.add_0_r in *.
  rewrite H'. cbn [Z.sub Z.opp Z.add]. now apply binary_round_aux_canonical.
Qed.

Lemma binary_round_shifted (s : bool) (m n : positive) :
  bounded prec emax m (Z.pos n) = true ->
  binary_round prec emax s (Pos.iter xO m n) 0 = S754_finite s m (Z.pos n).
Proof.
  intros H. pose proof H as H'. apply bounded_spec in H'. destruct H' as [H' _].
  unfold binary_round, shl_align, fexp, emin, prec, emax.
  change (3 - 1024 - 53) with (-1074).
  assert (En : Pos.iter xO m n = Nat.iter (Pos.to_nat n) xO m)
    by apply Pos2Nat.inj_iter.
  rewrite Z.add_0_r. rewrite En at 1. rewrite digits2_iter, positive_nat_Z.
  rewrite H'. cbn [Z.sub Z.opp Z.add].
  pose proof (binary_round_aux_shifted s m (Z.pos n) n H) as G.
  rewrite Z.sub_diag in G. exact G.
Qed.

(** The integer value of a float with a non-negative exponent converts
    back to that float. *)
Lemma binary_normalize_integer_float (s : bool) (m : positive) (e : Z) :
  bounded prec emax m e = true -> 0 <= e ->
  binary_normalize prec emax (signed s m * 2 ^ e) 0 false = S754_finite s m e.
Proof.
  intros H He. destruct e as [|n|n]; [| | lia].
  - rewrite Z.mul_1_r.
    destruct s; cbn [signed binary_normalize]; now apply binary_round_zero_exponent.
  - rewrite signed_shift.
    destruct s; cbn [signed binary_normalize]; now apply binary_round_shifted.
Qed.

Lemma ceil_finite_small (s : bool) (m : positive) (e : Z) :
  bounded prec emax m e = true -> e < 0 -> Z.abs (ceil_finite s m e) < 2 ^ 53.
Proof.
  intros H He. apply bounded_spec in H. destruct H as [H _].
  assert (Hm : Z.pos m < 2 ^ 53) by (apply digits2_bound; lia).
  unfold ceil_finite. destruct (0 <=? e) eqn:E; [apply Z.leb_le in E; lia |].
  assert (Hd : 0 < 2 ^ (- e)) by (apply Z.pow_pos_nonneg; lia).
  set (d := 2 ^ (- e)) in *.
  assert (Hq : forall a, - Z.pos m <= a <= Z.pos m ->
                         - Z.pos m <= a / d <= Z.pos m).
  { intros a Ha.
    pose proof (Z_div_mod_eq_full a d) as Hdm.
    pose proof (Z.mod_pos_bound a d Hd) as Hr. nia. }
  assert (Hs : - Z.pos m <= - signed s m <= Z.pos m)
    by (destruct s; unfold signed; lia).
  specialize (Hq _ Hs). lia.
Qed.

(** An integer below [2^53] in magnitude converts to a float whose
    ceiling is that integer. *)
Lemma binary_normalize_small (z : Z) :
  z <> 0 -> Z.abs z < 2 ^ 53 ->
  exists (s : bool) (m' : positive) (e' : Z),
    binary_normalize prec emax z 0 false = S754_finite s m' e'
    /\ bounded prec emax m' e' = true
    /\ ceil_finite s m' e' = z.
Proof.
  intros Hz Hsmall.
  assert (G : forall (s : bool) (mz : positive),
             Z.pos mz < 2 ^ 53 ->
             exists (m' : positive) (e' : Z),
               binary_round prec emax s mz 0 = S754_finite s m' e'
               /\ bounded prec emax m' e' = true
               /\ ceil_finite s m' e' = signed s mz).
  { intros s mz Hmz.
    destruct (binary_round_small s mz (digits2_small mz Hmz))
      as (m' & e' & Hr & Hb & He' & Hv).
    exists m', e'. split; [exact Hr | split; [exact Hb |]].
    unfold ceil_finite.
    assert (Hs : signed s m' = signed s mz * 2 ^ (- e')).
    { destruct s; unfold signed; rewrite <- ?Pos2Z.opp_pos, Hv; lia. }
    destruct (0 <=? e') eqn:E.
    - apply Z.leb_le in E. assert (e' = 0) by lia. subst e'.
      rewrite Hs. cbn [Z.opp]. lia.
    - rewrite Hs, <- Z.mul_opp_l, Z.div_mul; [lia |].
      apply Z.pow_nonzero; lia. }
  destruct z as [|mz|mz]; [contradiction | |].
  - destruct (G false mz Hsmall) as (m' & e' & Hr & Hb & Hc).
    exists false, m', e'. cbn [binary_normalize]. auto.
  - destruct (G true mz) as (m' & e' & Hr & Hb & Hc); [exact Hsmall |].
    exists true, m', e'. cbn [binary_normalize]. auto.
Qed.

(** The ceiling of a float, converted back to a float and multiplied by
    [1.0], has the same ceiling: no rounding occurs on the way. *)
Lemma ceil_float_roundtrip (p : float) (z : Z) :
  math_ceil (PyFloat p) = Ok z ->
  exists f : float,
    float_of_int z = Ok f /\ math_ceil (PyFloat (1 * f)%float) = Ok z.
Proof.
  intros H. cbn [math_ceil] in H.
  assert (Hzero : exists f : float,
             float_of_int 0 = Ok f /\ math_ceil (PyFloat (1 * f)%float) = Ok 0).
  { exists 0%float. split; vm_compute; reflexivity. }
  pose proof (Prim2SF_valid p) as Hv.
  destruct (Prim2SF p) as [s|s| |s m e] eqn:E; try discriminate.
  - inversion H; subst. exact Hzero.
  - inversion H; subst; clear H. cbn [valid_binary] in Hv.
    destruct (Z_le_gt_dec 0 e) as [He | He].
    + exists p. rewrite mul_one_l. cbn [math_ceil]. rewrite E.
      split; [| reflexivity].
      unfold float_of_int, ceil_finite.
      apply Z.leb_le in He as He'. rewrite He'.
      rewrite (binary_normalize_integer_float s m e Hv He).
      now rewrite <- E, SF2Prim_Prim2SF.
    + destruct (Z.eq_dec (ceil_finite s m e) 0) as [-> | Hnz]; [exact Hzero |].
      destruct (binary_normalize_small (ceil_finite s m e) Hnz)
        as (s' & m' & e' & Hn & Hb & Hc).
      { apply ceil_finite_small; [exact Hv | lia]. }
      exists (SF2Prim (S754_finite s' m' e')).
      split; [unfold float_of_int; now rewrite Hn |].
      rewrite mul_one_l. cbn [math_ceil].
      rewrite Prim2SF_SF2Prim by exact Hb. now rewrite Hc.
Qed.

(** ** Products that do not underflow *)

Lemma digits2_lower (p : positive) : 2 ^ Z.pos (digits2_pos p) <= 2 * Z.pos p.
Proof.
  rewrite digits2_pos_size. pose proof (Pos.size_le p) as Hs.
  apply Pos2Z.pos_le_pos in Hs. now rewrite Pos2Z.inj_pow in Hs.
Qed.

Lemma digits2_upper (p : positive) : Z.pos p < 2 ^ Z.pos (digits2_pos p).
Proof.
  rewrite digits2_pos_size. pose proof (Pos.size_gt p) as Hs.
  apply Pos2Z.pos_lt_pos in Hs. now rewrite Pos2Z.inj_pow in Hs.
Qed.

Lemma shr_1_m (mrs : shr_record) :
  0 <= shr_m mrs -> shr_m (shr_1 mrs) = shr_m mrs / 2.
Proof.
  destruct mrs as [m r s]. cbn [shr_m]. intros Hm. unfold shr_1.
  destruct m as [|p|p]; [reflexivity | | lia].
  destruct p as [p|p|]; cbn [shr_m].
  - rewrite Pos2Z.inj_xI. apply Z.div_unique with (r := 1); lia.
  - rewrite Pos2Z.inj_xO. apply Z.div_unique with (r := 0); lia.
  - reflexivity.
Qed.

Lemma shr_iter_m (k : nat) (mrs : shr_record) :
  0 <= shr_m mrs ->
  shr_m (Nat.iter k shr_1 mrs) = shr_m mrs / 2 ^ Z.of_nat k.
Proof.
  intros Hm. induction k as [|k IH].
  - cbn [Nat.iter nat_rect Z.of_nat]. now rewrite Z.pow_0_r, Z.div_1_r.
  - rewrite Nat.iter_succ, shr_1_m, IH.
    + rewrite Nat2Z.inj_succ, Z.pow_succ_r by lia.
      rewrite Z.div_div by (try apply Z.pow_pos_nonneg; lia).
      f_equal. lia.
    + rewrite IH. apply Z.div_pos; [lia | apply Z.pow_pos_nonneg; lia].
Qed.

(** What [shr_fexp] leaves of a positive mantissa that is not entirely
    below the smallest exponent. *)
Lemma shr_fexp_positive (P : positive) (ex : Z) (l : location) :
  - 1074 < Z.pos (digits2_pos P) + ex ->
  0 < shr_m (fst (shr_fexp prec emax (Z.pos P) ex l))
  /\ - 1074 <= snd (shr_fexp prec emax (Z.pos P) ex l).
Proof.
  intros H. unfold shr_fexp, fexp, emin, prec, emax, Zdigits2, shr.
  change (3 - 1024 - 53) with (-1074).
  set (d := Z.pos (digits2_pos P)) in *.
  destruct (Z.max (d + ex - 53) (-1074) - ex) as [|n|n] eqn:E; cbn [fst snd].
  - split; [destruct l as [|[]]; cbn; lia | lia].
  - split; [| lia].
    rewrite iter_pos_nat, shr_iter_m by (destruct l as [|[]]; cbn; lia).
    replace (shr_m (shr_record_of_loc (Z.pos P) l)) with (Z.pos P)
      by (destruct l as [|[]]; reflexivity).
    rewrite positive_nat_Z.
    apply Z.div_str_pos. split; [apply Z.pow_pos_nonneg; lia |].
    pose proof (digits2_lower P) as Hl. fold d in Hl.
    assert (Z.pos n <= d - 1) by lia.
    assert (2 ^ Z.pos n <= 2 ^ (d - 1)) by (apply Z.pow_le_mono_r; lia).
    replace d with (Z.succ (d - 1)) in Hl by lia.
    rewrite Z.pow_succ_r in Hl by (unfold d; lia). lia.
  - split; [destruct l as [|[]]; cbn; lia | lia].
Qed.

Lemma round_nearest_even_ge (mx : Z) (l : location) :
  mx <= round_nearest_even mx l.
Proof.
  destruct l as [|[]]; cbn [round_nearest_even]; try lia.
  destruct (Z.even mx); lia.
Qed.

(** Rounding does not take a mantissa that reaches the smallest exponent
    down to zero. *)
Lemma binary_round_aux_nonzero (s : bool) (P : positive) (ex : Z) :
  - 1074 < Z.pos (digits2_pos P) + ex ->
  zero_or_nan (binary_round_aux prec emax s (Z.pos P) ex loc_Exact) = false.
Proof.
  intros H. unfold binary_round_aux.
  destruct (shr_fexp_positive P ex loc_Exact H) as [H1 H2].
  destruct (shr_fexp prec emax (Z.pos P) ex loc_Exact) as [mrs' e'].
  cbn [fst snd] in H1, H2.
  pose proof (round_nearest_even_ge (shr_m mrs') (loc_of_shr_record mrs')) as Hr.
  destruct (round_nearest_even (shr_m mrs') (loc_of_shr_record mrs'))
    as [|q|q]; try lia.
  destruct (shr_fexp_positive q e' loc_Exact) as [H3 _].
  { pose proof (Pos2Z.is_pos (digits2_pos q)). lia. }
  destruct (shr_fexp prec emax (Z.pos q) e' loc_Exact) as [mrs'' e''].
  cbn [fst] in H3.
  destruct (shr_m mrs'') as [|q'|q']; try lia.
  now destruct (e'' <=? emax - prec).
Qed.

Lemma digits2_mul_log2 (m : positive) :
  Z.pos (digits2_pos m) + 52 <= Z.pos (digits2_pos (m * 6243314768165359)).
Proof.
  pose proof (digits2_lower m) as Hl.
  pose proof (digits2_upper (m * 6243314768165359)) as Hu.
  rewrite Pos2Z.inj_mul in Hu.
  set (d := Z.pos (digits2_pos m)) in *.
  set (dP := Z.pos (digits2_pos (m * 6243314768165359))) in *.
  assert (Hd : 0 < d) by (unfold d; lia).
  destruct (Z_le_gt_dec (d + 52) dP) as [|Hgt]; [assumption |]. exfalso.
  assert (Hp : 2 ^ dP <= 2 ^ (d + 51)) by (apply Z.pow_le_mono_r; lia).
  rewrite Z.pow_add_r in Hp by lia.
  change (2 ^ 51) with 2251799813685248 in Hp. nia.
Qed.

Lemma digits2_one (m : positive) : Z.pos (digits2_pos m) <= 1 -> m = 1%positive.
Proof.
  destruct m as [m|m|]; cbn [digits2_pos]; try reflexivity;
    rewrite Pos2Z.inj_succ; pose proof (Pos2Z.is_pos (digits2_pos m)); lia.
Qed.

(** A float that is not a zero, times [math.log(2)], is not a zero: the
    product does not underflow. *)
Lemma mul_log_2_nonzero (r : float) :
  (r =? 0)%float = false -> (r * math_log_2 =? 0)%float = false.
Proof.
  intros Hz. rewrite FloatAxioms.eqb_spec in *. rewrite mul_spec.
  change (Prim2SF math_log_2) with (S754_finite false 6243314768165359 (-53)).
  change (Prim2SF 0) with (S754_zero false) in *.
  pose proof (Prim2SF_valid r) as Hv.
  destruct (Prim2SF r) as [s|s| |s m e]; try discriminate.
  - now destruct s.
  - reflexivity.
  - cbn [valid_binary] in Hv. apply bounded_spec in Hv. destruct Hv as [Hc _].
    unfold SF64mul, SFmul.
    destruct (Z.eq_dec (Z.pos (digits2_pos m) + e) (-1073)) as [E | E].
    + assert (m = 1%positive) by (apply digits2_one; lia). subst m.
      assert (e = -1074) by (cbn [digits2_pos] in E; lia). subst e.
      now destruct s.
    + pose proof (binary_round_aux_nonzero (xorb s false)
                    (m * 6243314768165359) (e + -53)) as G.
      pose proof (digits2_mul_log2 m) as Hd.
      destruct (binary_round_aux prec emax (xorb s false)
                  (Z.pos (m * 6243314768165359)) (e + -53) loc_Exact);
        try reflexivity; try (now destruct s0).
      all: exfalso; assert (true = false) by (apply G; lia); discriminate.
Qed.

Lemma mul_log_2_zero (r : float) :
  (r =? 0)%float = true -> (r * math_log_2 =? 0)%float = true.
Proof.
  intros Hz. rewrite FloatAxioms.eqb_spec in *. rewrite mul_spec.
  change (Prim2SF math_log_2) with (S754_finite false 6243314768165359 (-53)).
  change (Prim2SF 0) with (S754_zero false) in *.
  destruct (Prim2SF r) as [s|s| |s m e]; try discriminate;
    destruct s; try discriminate; reflexivity.
Qed.

(** ** Sorting the keys of a dict *)

Lemma insert_sorted_In (k x : float) (l : list float) :
  In x (insert_sorted k l) <-> x = k \/ In x l.
Proof.
  induction l as [|h l IH]; simpl.
  - intuition.
  - destruct (k <? h)%float; simpl; rewrite ?IH; intuition.
Qed.

Lemma insert_sorted_ascending (k : float) (l : list float) :
  StronglySorted flt l -> Forall not_nan l -> not_nan k ->
  (forall h, In h l -> (k =? h)%float = false) ->
  StronglySorted flt (insert_sorted k l).
Proof.
  intros Hs Hn Hk. induction Hs as [|h l Hs IH Hh]; intros Hd; simpl.
  - repeat constructor.
  - inversion Hn as [|? ? Hnh Hnl]; subst.
    destruct (k <? h)%float eqn:E.
    + constructor; [now constructor |].
      constructor; [exact E |].
      eapply Forall_impl; [| exact Hh]. intros a Ha. eapply ltb_trans; eauto.
    + constructor.
      * apply IH; [assumption |]. intros a Ha. apply Hd. now right.
      * apply Forall_forall. intros a Ha. apply insert_sorted_In in Ha.
        destruct Ha as [-> | Ha]; [| now apply (proj1 (Forall_forall _ _) Hh)].
        destruct (float_total h k Hnh Hk) as [H | [H | H]]; [exact H | |].
        -- rewrite eqb_sym, (Hd h (or_introl eq_refl)) in H. discriminate.
        -- rewrite E in H. discriminate.
Qed.

Lemma distinct_cons (k : float) (l : list float) :
  distinct (k :: l) = true ->
  (forall h, In h l -> (k =? h)%float = false) /\ distinct l = true.
Proof.
  simpl. intros H. apply andb_prop in H. destruct H as [H1 H2]. split; [| exact H2].
  intros h Hh. rewrite forallb_forall in H1. specialize (H1 h Hh).
  now apply negb_true_iff in H1.
Qed.

Lemma fold_insert_sorted (l : list float) :
  forall acc : list float,
    StronglySorted flt acc -> Forall not_nan acc ->
    Forall not_nan l -> distinct l = true ->
    (forall x h, In x l -> In h acc -> (x =? h)%float = false) ->
    let r := fold_left (fun a k => insert_sorted k a) l acc in
    StronglySorted flt r /\ Forall not_nan r
    /\ (forall x, In x r <-> In x acc \/ In x l).
Proof.
  induction l as [|k l IH]; intros acc Hs Hn Hl Hd Hx; simpl.
  - repeat split; try assumption; intuition.
  - inversion Hl as [|? ? Hk Hl']; subst.
    destruct (distinct_cons _ _ Hd) as [Hkl Hd'].
    destruct (IH (insert_sorted k acc)) as (R1 & R2 & R3); try assumption.
    + apply insert_sorted_ascending; try assumption.
      intros h Hh. apply Hx; [now left | assumption].
    + apply Forall_forall. intros a Ha. apply insert_sorted_In in Ha.
      destruct Ha as [-> | Ha]; [assumption |].
      now apply (proj1 (Forall_forall _ _) Hn).
    + intros x h Hxl Hh. apply insert_sorted_In in Hh. destruct Hh as [-> | Hh].
      * rewrite eqb_sym. now apply Hkl.
      * apply Hx; [now right | assumption].
    + repeat split; try assumption.
      * intros Hr. apply R3 in Hr. rewrite insert_sorted_In in Hr. intuition.
      * intros Hr. apply R3. rewrite insert_sorted_In. intuition.
Qed.

(** [sorted] arranges the keys of a dict in strictly ascending order. *)
Lemma sorted_dict_keys (t : table) :
  is_dict t = true ->
  StronglySorted flt (sorted (keys t))
  /\ Forall not_nan (sorted (keys t))
  /\ (forall x, In x (sorted (keys t)) <-> In x (keys t)).
Proof.
  unfold is_dict. intros H. apply andb_prop in H. destruct H as [Hn Hd].
  destruct (fold_insert_sorted (keys t) []) as (R1 & R2 & R3).
  - constructor.
  - constructor.
  - apply Forall_forall. intros x Hx. rewrite forallb_forall in Hn. now apply Hn.
  - exact Hd.
  - intros x h _ [].
  - repeat split; try assumption.
    + intros Hx. apply R3 in Hx. destruct Hx as [[] | Hx]; assumption.
    + intros Hx. apply R3. now right.
Qed.

(** Membership alone needs no hypothesis on the keys. *)
Lemma sorted_In (l : list float) (x : float) : In x (sorted l) <-> In x l.
Proof.
  unfold sorted.
  assert (G : forall acc, In x (fold_left (fun a k => insert_sorted k a) l acc)
                          <-> In x acc \/ In x l).
  { induction l as [|k l IH]; intros acc; simpl; [intuition |].
    rewrite IH, insert_sorted_In. intuition. }
  rewrite G. simpl. intuition.
Qed.

(** ** Looking keys up *)

Lemma getitem_In (t : table) (k v : float) :
  distinct (keys t) = true -> not_nan k -> In (k, v) t -> getitem t k = Ok v.
Proof.
  induction t as [|[k' v'] t IH]; simpl; intros Hd Hk Hin; [contradiction |].
  apply andb_prop in Hd. destruct Hd as [Hk' Hd].
  destruct Hin as [Heq | Hin].
  - inversion Heq; subst. unfold not_nan in Hk. now rewrite Hk.
  - rewrite forallb_forall in Hk'.
    assert (Hkk : In k (keys t)) by (apply in_map_iff; now exists (k, v)).
    specialize (Hk' k Hkk). apply negb_true_iff in Hk'. rewrite Hk'. auto.
Qed.

(** A key that is a number is found, whatever else the table holds. *)
Lemma getitem_key (t : table) (k : float) :
  In k (keys t) -> not_nan k -> exists v, getitem t k = Ok v.
Proof.
  induction t as [|[k' v'] t IH]; simpl; intros Hin Hk; [contradiction |].
  destruct (k' =? k)%float eqn:E; [eauto |].
  destruct Hin as [-> | Hin]; [| auto].
  unfold not_nan in Hk. rewrite Hk in E. discriminate.
Qed.

Lemma map_getitem_keys (t : table) (xs : list float) :
  (forall x, In x xs -> In x (keys t) /\ not_nan x) ->
  exists ys, map_result (getitem t) xs = Ok ys.
Proof.
  intros H. apply map_result_all_ok. intros x Hx.
  destruct (H x Hx) as [Hk Hn]. destruct (getitem_key t x Hk Hn) as [v ->].
  reflexivity.
Qed.

Lemma map_getitem_dict (t : table) (xs : list float) :
  is_dict t = true -> (forall x, In x xs -> In x (keys t)) ->
  exists ys, map_result (getitem t) xs = Ok ys
             /\ Forall2 (fun x y => In (x, y) t) xs ys.
Proof.
  unfold is_dict. intros Hd Hxs. apply andb_prop in Hd. destruct Hd as [Hn Hd].
  rewrite forallb_forall in Hn.
  induction xs as [|x xs IH]; simpl.
  - exists []. split; [reflexivity | constructor].
  - destruct IH as (ys & Hys & Hall); [intros; apply Hxs; now right |].
    assert (Hx : In x (keys t)) by (apply Hxs; now left).
    apply in_map_iff in Hx. destruct Hx as ([k v] & Hk & Hin); simpl in Hk; subst k.
    exists (v :: ys). split.
    + rewrite (getitem_In t x v Hd); [| apply Hn; apply in_map_iff; now exists (x, v) | exact Hin].
      simpl. now rewrite Hys.
    + now constructor.
Qed.

(** ** Out of range *)

Lemma interp1d_below (x y : list float) (x0 x_new : float) (rest : list float) :
  x = x0 :: rest -> (x_new <? x0)%float = true ->
  interp1d x y x_new = Raise ValueError.
Proof. intros -> H. unfold interp1d. now rewrite H. Qed.

Lemma interp1d_above (x y : list float) (x_new : float) :
  x <> [] -> (forall d, (last x d <? x_new)%float = true) ->
  interp1d x y x_new = Raise ValueError.
Proof.
  intros Hx H. unfold interp1d. destruct x as [|x0 rest]; [contradiction |].
  rewrite (H x0). now destruct (x_new <? x0)%float.
Qed.

Lemma last_In {A : Type} (l : list A) (d : A) : l <> [] -> In (last l d) l.
Proof.
  induction l as [|a l IH]; intros H; [contradiction |].
  destruct l as [|b l]; [now left |]. right. apply IH. discriminate.
Qed.

(** Below every key, or above every key, the interpolation raises. *)
Lemma linear_interpolation_outside (t : table) (argument : float) :
  t <> [] ->
  (forall k, In k (keys t) -> (argument <? k)%float = true)
  \/ (forall k, In k (keys t) -> (k <? argument)%float = true) ->
  linear_interpolation t (PyFloat argument) = Raise ValueError.
Proof.
  intros Ht Hout. unfold linear_interpolation.
  assert (Hne : sorted (keys t) <> []).
  { destruct t as [|[k v] t]; [contradiction |].
    intros E. assert (Hin : In k (sorted (keys ((k, v) :: t))))
      by (apply sorted_In; now left).
    rewrite E in Hin. contradiction. }
  destruct (map_getitem_keys t (sorted (keys t))) as [ys Hys].
  { intros x Hx. apply (proj1 (sorted_In _ _)) in Hx. split; [assumption |].
    destruct Hout as [H | H]; specialize (H x Hx).
    - eapply ltb_not_nan_r; eauto.
    - eapply ltb_not_nan_l; eauto. }
  rewrite Hys. simpl.
  destruct Hout as [H | H].
  - destruct (sorted (keys t)) as [|x0 rest] eqn:E; [contradiction |].
    eapply interp1d_below; [reflexivity |].
    apply H, sorted_In. rewrite E. now left.
  - apply interp1d_above; [assumption |].
    intros d. apply H, sorted_In, last_In, Hne.
Qed.

(** ** [RandomEvent] *)

Lemma sorted_table_n :
  sorted (keys table_n) = [2.0; 3.0; 4.0; 5.0; 6.0]%float.
Proof. vm_compute. reflexivity. Qed.

Lemma values_table_n :
  map_result (getitem table_n) [2.0; 3.0; 4.0; 5.0; 6.0]%float
  = Ok [0.222; 0.139; 0.099; 0.077; 0.066]%float.
Proof. vm_compute. reflexivity. Qed.

(** Inside the key range of [table_n] the interpolation returns a value. *)
Lemma linear_interpolation_table_n (n : float) :
  (2.0 <=? n)%float = true -> (n <=? 6.0)%float = true ->
  linear_interpolation table_n (PyFloat n)
  = Ok (np_interp n [2.0; 3.0; 4.0; 5.0; 6.0]%float
          [0.222; 0.139; 0.099; 0.077; 0.066]%float).
Proof.
  intros Hlo Hhi. unfold linear_interpolation.
  rewrite sorted_table_n, values_table_n. cbn [bind to_float].
  unfold interp1d. cbn [last].
  now rewrite (leb_not_ltb _ _ Hlo), (leb_not_ltb _ _ Hhi).
Qed.

Lemma math_ceil_finite (p : float) :
  is_finite p = true -> exists z, math_ceil (PyFloat p) = Ok z.
Proof.
  unfold is_finite, math_ceil.
  destruct (Prim2SF p); intros H; try discriminate; eauto.
Qed.

Lemma math_ceil_not_finite (p : float) :
  is_finite p = false -> exists e, math_ceil (PyFloat p) = Raise e.
Proof.
  unfold is_finite, math_ceil.
  destruct (Prim2SF p); intros H; try discriminate; eauto.
Qed.

(** C2 (as amended): for every [n] within the key range of [table_n] the
    interpolation yields a coefficient [c], and [RandomEvent] returns the
    event with [neq = ceil(fn * duration * c)], [s_min = -stress] and
    [s_max = stress] whenever that product is a finite float; when it is
    not, [math.ceil] raises and no event is returned.  In particular
    [RandomEvent(300*1.15, 200, 120, 2.0)] has [s_min = -345.0],
    [s_max = 345.0] and [neq = 5328]. *)
Theorem RandomEvent_in_range :
  (forall (stress fn duration : num) (n : float) (desc : string),
      (2.0 <=? n)%float = true -> (n <=? 6.0)%float = true ->
      exists c : float,
        linear_interpolation table_n (PyFloat n) = Ok c
        /\ RandomEvent stress fn duration (PyFloat n) desc
           = (p <- cycles_product fn duration c ;;
              z <- math_ceil p ;;
              Ok (mkEvent (PyInt z) (py_neg stress) stress desc))
        /\ (forall p : float,
               cycles_product fn duration c = Ok (PyFloat p) ->
               is_finite p = true ->
               exists z : Z,
                 math_ceil (PyFloat p) = Ok z
                 /\ RandomEvent stress fn duration (PyFloat n) desc
                    = Ok (mkEvent (PyInt z) (py_neg stress) stress desc))
        /\ (forall p : float,
               cycles_product fn duration c = Ok (PyFloat p) ->
               is_finite p = false ->
               exists e : exn,
                 RandomEvent stress fn duration (PyFloat n) desc = Raise e))
  /\ linear_interpolation table_n (PyFloat 2.0) = Ok 0.222%float
  /\ RandomEvent (PyFloat (300 * 1.15)) (PyInt 200) (PyInt 120) (PyFloat 2.0) ""
     = Ok (mkEvent (PyInt 5328) (PyFloat (-345.0)) (PyFloat 345.0) "").
Proof.
  split; [| split; vm_compute; reflexivity].
  intros stress fn duration n desc Hlo Hhi.
  pose proof (linear_interpolation_table_n n Hlo Hhi) as Hc.
  set (c := np_interp n _ _) in Hc. exists c.
  assert (Heq : RandomEvent stress fn duration (PyFloat n) desc
                = (p <- cycles_product fn duration c ;;
                   z <- math_ceil p ;;
                   Ok (mkEvent (PyInt z) (py_neg stress) stress desc))).
  { unfold RandomEvent, cycles_product. rewrite Hc.
    destruct (py_mul fn duration) as [fd|e]; reflexivity. }
  split; [exact Hc | split; [exact Heq | split]].
  - intros p Hp Hfin. destruct (math_ceil_finite p Hfin) as [z Hz].
    exists z. split; [exact Hz |]. rewrite Heq, Hp. cbn [bind]. now rewrite Hz.
  - intros p Hp Hfin. destruct (math_ceil_not_finite p Hfin) as [e He].
    exists e. rewrite Heq, Hp. cbn [bind]. now rewrite He.
Qed.

Lemma RandomEvent_in_range_witness :
  exists c : float,
    linear_interpolation table_n (PyFloat 2.5) = Ok c
    /\ RandomEvent (PyFloat 345.0) (PyFloat 200.0) (PyFloat 120.0) (PyFloat 2.5) ""
       = (p <- cycles_product (PyFloat 200.0) (PyFloat 120.0) c ;;
          z <- math_ceil p ;;
          Ok (mkEvent (PyInt z) (py_neg (PyFloat 345.0)) (PyFloat 345.0) "")).
Proof.
  destruct (proj1 RandomEvent_in_range (PyFloat 345.0) (PyFloat 200.0)
              (PyFloat 120.0) 2.5%float "") as (c & H1 & H2 & _).
  - vm_compute. reflexivity.
  - vm_compute. reflexivity.
  - exists c. split; assumption.
Defined.

(** C2 fails as stated: [n = 2.0] is in range, yet with [fn = duration =
    1e308] the product overflows to infinity and [math.ceil] raises. *)
Lemma RandomEvent_overflow_counterexample :
  (2.0 <=? 2.0)%float = true /\ (2.0 <=? 6.0)%float = true
  /\ RandomEvent (PyFloat 1.0) (PyFloat 1e308) (PyFloat 1e308) (PyFloat 2.0) ""
     = Raise OverflowError.
Proof. repeat split; vm_compute; reflexivity. Qed.

Lemma not_eqb_self_nan (n : float) :
  (n =? n)%float = false -> Prim2SF n = S754_nan.
Proof.
  rewrite eqb_rank. unfold frank.
  destruct (Prim2SF n) as [s|s| |s m e]; cbn [rank]; try reflexivity;
    intros H; rewrite ?Z.compare_refl in H;
    destruct s; cbn [cmp3] in H; rewrite ?Z.compare_refl in H; discriminate.
Qed.

Lemma mul_nan_r (x n : float) :
  Prim2SF n = S754_nan -> Prim2SF (x * n)%float = S754_nan.
Proof.
  intros H. rewrite mul_spec, H. unfold SF64mul, SFmul.
  now destruct (Prim2SF x).
Qed.

Lemma RandomEvent_below_or_above
    (stress fn duration : num) (n : float) (desc : string) :
  (n <? 2.0)%float = true \/ (6.0 <? n)%float = true ->
  linear_interpolation table_n (PyFloat n) = Raise ValueError
  /\ (exists e, RandomEvent stress fn duration (PyFloat n) desc = Raise e)
  /\ (forall fd, py_mul fn duration = Ok fd ->
                 RandomEvent stress fn duration (PyFloat n) desc
                 = Raise ValueError).
Proof.
  intros Hn.
  assert (Hli : linear_interpolation table_n (PyFloat n) = Raise ValueError).
  { apply linear_interpolation_outside; [discriminate |].
    destruct Hn as [Hn | Hn]; [left | right]; intros k Hk; simpl in Hk;
      repeat (destruct Hk as [<- | Hk]; [
        first [exact Hn
              | eapply ltb_trans; [exact Hn | vm_compute; reflexivity]
              | eapply ltb_trans; [| exact Hn]; vm_compute; reflexivity] |]);
      contradiction. }
  split; [exact Hli |]. unfold RandomEvent. rewrite Hli. split.
  - destruct (py_mul fn duration) as [fd|e]; cbn [bind]; eauto.
  - intros fd ->. reflexivity.
Qed.

(** With a NaN for [n] the interpolation returns the NaN, and it is
    [math.ceil] that raises. *)
Lemma RandomEvent_nan (stress fn duration : num) (n : float) (desc : string) :
  (n =? n)%float = false ->
  exists e, RandomEvent stress fn duration (PyFloat n) desc = Raise e.
Proof.
  intros Hn. unfold RandomEvent.
  destruct (py_mul fn duration) as [fd|e]; cbn [bind]; [| eauto].
  assert (Hli : linear_interpolation table_n (PyFloat n) = Ok n).
  { unfold linear_interpolation. rewrite sorted_table_n, values_table_n.
    cbn [bind to_float]. unfold interp1d, np_interp, is_nan. cbn [last].
    rewrite Hn. cbn [negb].
    assert (H1 : (n <? 2.0)%float = false) by float_order.
    assert (H2 : (6.0 <? n)%float = false) by float_order.
    now rewrite H1, H2. }
  rewrite Hli. cbn [bind]. unfold py_mul, arith.
  assert (G : forall x : float,
             exists e, (neq1 <- math_ceil (PyFloat (x * n)%float) ;;
                        Ok (mkEvent (PyInt neq1) (py_neg stress) stress desc))
                       = Raise e).
  { intros x. cbn [math_ceil].
    rewrite (mul_nan_r x n (not_eqb_self_nan n Hn)). cbn [bind]. eauto. }
  destruct fd as [z|x]; cbn [to_float bind]; [| apply G].
  destruct (float_of_int z) as [x|e]; cbn [bind]; [apply G | eauto].
Qed.

(** C5: an argument strictly below every key of a table, or strictly above
    every key, makes [linear_interpolation] raise [ValueError] instead of
    extrapolating; hence [RandomEvent] raises for every [n] below 2.0 or
    above 6.0, with that [ValueError] whenever [fn * duration] itself can
    be computed (as for floats).  It also raises for the one other [n]
    that is not in [[2.0, 6.0]], a NaN. *)
Theorem out_of_range_raises :
  (forall (t : table) (argument : float),
      t <> [] ->
      (forall k, In k (keys t) -> (argument <? k)%float = true)
      \/ (forall k, In k (keys t) -> (k <? argument)%float = true) ->
      linear_interpolation t (PyFloat argument) = Raise ValueError)
  /\ (forall (stress fn duration : num) (n : float) (desc : string),
         (n <? 2.0)%float = true \/ (6.0 <? n)%float = true ->
         linear_interpolation table_n (PyFloat n) = Raise ValueError
         /\ (exists e, RandomEvent stress fn duration (PyFloat n) desc = Raise e)
         /\ (forall fd, py_mul fn duration = Ok fd ->
                        RandomEvent stress fn duration (PyFloat n) desc
                        = Raise ValueError))
  /\ (forall (stress fn duration : num) (n : float) (desc : string),
         (2.0 <=? n)%float && (n <=? 6.0)%float = false ->
         exists e, RandomEvent stress fn duration (PyFloat n) desc = Raise e).
Proof.
  split; [exact linear_interpolation_outside |].
  split; [exact RandomEvent_below_or_above |].
  intros stress fn duration n desc Hn.
  destruct (n =? n)%float eqn:Hnan; [| now apply RandomEvent_nan].
  assert (Hout : (n <? 2.0)%float = true \/ (6.0 <? n)%float = true).
  { apply andb_false_iff in Hn. destruct Hn as [Hn | Hn]; [left | right].
    - destruct (float_total n 2.0%float Hnan) as [H | [H | H]];
        [vm_compute; reflexivity | exact H | |]; exfalso; float_order.
    - destruct (float_total 6.0%float n) as [H | [H | H]];
        [vm_compute; reflexivity | exact Hnan | exact H | |]; exfalso;
        float_order. }
  now destruct (RandomEvent_below_or_above stress fn duration n desc Hout)
    as (_ & H & _).
Qed.

Lemma out_of_range_raises_witness :
  linear_interpolation table_n (PyFloat 6.5) = Raise ValueError
  /\ (exists e, RandomEvent (PyFloat 345.0) (PyInt 200) (PyInt 120) (PyFloat 6.5) ""
                = Raise e)
  /\ (forall fd, py_mul (PyInt 200) (PyInt 120) = Ok fd ->
                 RandomEvent (PyFloat 345.0) (PyInt 200) (PyInt 120) (PyFloat 6.5) ""
                 = Raise ValueError).
Proof.
  apply (proj1 (proj2 out_of_range_raises) (PyFloat 345.0) (PyInt 200)
           (PyInt 120) 6.5%float "").
  right. vm_compute. reflexivity.
Defined.

(** ** Interpolation inside the key range *)

Lemma interp_segment_between (x k1 v1 k2 v2 : float) (post ypost : list float) :
  forall pre ypre : list float,
    List.length pre = List.length ypre ->
    Forall (fun p => (x <? p)%float = false) pre ->
    (x <? k1)%float = false -> (x <? k2)%float = true ->
    (k1 =? x)%float = false ->
    interp_segment x (pre ++ k1 :: k2 :: post) (ypre ++ v1 :: v2 :: ypost)
    = segment_value k1 v1 k2 v2 x.
Proof.
  induction pre as [|p pre IH]; intros ypre Hlen Hpre Hk1 Hk2 Hne.
  - destruct ypre; [| discriminate]. simpl. now rewrite Hk2, Hne.
  - destruct ypre as [|q ypre]; [discriminate |].
    inversion Hpre as [|? ? Hp Hpre']; subst.
    injection Hlen as Hlen.
    specialize (IH ypre Hlen Hpre' Hk1 Hk2 Hne).
    destruct pre as [|p' pre]; destruct ypre as [|q' ypre]; try discriminate.
    + cbn [app interp_segment] in *. now rewrite Hk1.
    + inversion Hpre' as [|? ? Hp' _]; subst.
      cbn [app interp_segment] in *. now rewrite Hp'.
Qed.

Lemma interp_segment_key (x k v : float) (post ypost : list float) :
  forall pre ypre : list float,
    List.length pre = List.length ypre ->
    List.length post = List.length ypost ->
    Forall (fun p => (x <? p)%float = false) pre ->
    (x <? k)%float = false -> (k =? x)%float = true ->
    Forall (fun p => (x <? p)%float = true) post ->
    interp_segment x (pre ++ k :: post) (ypre ++ v :: ypost) = v.
Proof.
  induction pre as [|p pre IH]; intros ypre Hlen Hlen' Hpre Hk Heq Hpost.
  - destruct ypre; [| discriminate]. cbn [app].
    destruct post as [|k' post]; destruct ypost as [|v' ypost]; try discriminate.
    + reflexivity.
    + inversion Hpost as [|? ? Hk' _]; subst.
      cbn [interp_segment]. now rewrite Hk', Heq.
  - destruct ypre as [|q ypre]; [discriminate |].
    inversion Hpre as [|? ? Hp Hpre']; subst.
    injection Hlen as Hlen.
    specialize (IH ypre Hlen Hlen' Hpre' Hk Heq Hpost).
    destruct pre as [|p' pre]; destruct ypre as [|q' ypre]; try discriminate.
    + cbn [app interp_segment] in *. now rewrite Hk.
    + inversion Hpre' as [|? ? Hp' _]; subst.
      cbn [app interp_segment] in *. now rewrite Hp'.
Qed.

Lemma last_app_cons {A : Type} (l1 l2 : list A) (a d : A) :
  last (l1 ++ a :: l2) d = last (a :: l2) d.
Proof.
  induction l1 as [|b l1 IH]; [reflexivity |].
  cbn [app]. rewrite <- IH. cbn [last].
  destruct (l1 ++ a :: l2)%list eqn:E; [| reflexivity].
  destruct l1; discriminate.
Qed.

(** Around an element of a strictly ascending list: smaller before it,
    greater after it. *)
Lemma ascending_split (pre post : list float) (k : float) :
  StronglySorted flt (pre ++ k :: post) ->
  Forall (fun p => flt p k) pre /\ Forall (flt k) post
  /\ StronglySorted flt (k :: post).
Proof.
  induction pre as [|p pre IH]; cbn [app]; intros H.
  - inversion H; subst. repeat split; auto.
  - inversion H as [|? ? Hs Hp]; subst.
    destruct (IH Hs) as (H1 & H2 & H3). repeat split; auto.
    constructor; [| exact H1].
    apply (proj1 (Forall_forall _ _) Hp). apply in_or_app. right. now left.
Qed.

Lemma insert_sorted_length (k : float) (l : list float) :
  List.length (insert_sorted k l) = S (List.length l).
Proof.
  induction l as [|h l IH]; simpl; [reflexivity |].
  destruct (k <? h)%float; simpl; [reflexivity | now rewrite IH].
Qed.

Lemma sorted_length (l : list float) : List.length (sorted l) = List.length l.
Proof.
  unfold sorted.
  assert (G : forall acc,
             List.length (fold_left (fun a k => insert_sorted k a) l acc)
             = (List.length acc + List.length l)%nat).
  { induction l as [|k l IH]; intros acc; simpl; [lia |].
    rewrite IH, insert_sorted_length. lia. }
  now rewrite G.
Qed.

(** In a dict a key has one value. *)
Lemma dict_value_unique (t : table) (k v v' : float) :
  is_dict t = true -> In (k, v) t -> In (k, v') t -> v = v'.
Proof.
  unfold is_dict. intros H Hv Hv'. apply andb_prop in H. destruct H as [Hn Hd].
  rewrite forallb_forall in Hn.
  assert (Hk : not_nan k) by (apply Hn, in_map_iff; now exists (k, v)).
  pose proof (getitem_In t k v Hd Hk Hv) as E1.
  pose proof (getitem_In t k v' Hd Hk Hv') as E2.
  congruence.
Qed.

Lemma interp1d_segment (x : float) (xs ys : list float) :
  (2 <= List.length xs)%nat -> List.length xs = List.length ys -> not_nan x ->
  (forall d, (x <? hd d xs)%float = false) ->
  (forall d, (last xs d <? x)%float = false) ->
  interp1d xs ys x = Ok (interp_segment x xs ys).
Proof.
  intros Hlen Hlen' Hx Hhd Hlast.
  destruct xs as [|x0 [|x1 xs]]; cbn [List.length] in Hlen; try lia.
  destruct ys as [|y0 [|y1 ys]]; try discriminate.
  unfold interp1d, np_interp, is_nan. unfold not_nan in Hx.
  specialize (Hhd x0). cbn [hd] in Hhd.
  now rewrite Hx, Hhd, (Hlast x0).
Qed.

Lemma hd_app_cons (pre post : list float) (k d : float) :
  In (hd d (pre ++ k :: post)) (pre ++ [k]).
Proof. destruct pre as [|p pre]; cbn [app hd]; now left. Qed.

(** The conditions of [interp1d_segment] around a located element: the
    point is not below what precedes it nor above what follows it. *)
Lemma in_range_around (x k : float) (pre post : list float) :
  not_nan x ->
  Forall (fun p => (x <? p)%float = false) (pre ++ [k]) ->
  Forall (fun p => (p <? x)%float = false) post ->
  (post = [] -> (k <? x)%float = false) ->
  (forall d, (x <? hd d (pre ++ k :: post))%float = false)
  /\ (forall d, (last (pre ++ k :: post) d <? x)%float = false).
Proof.
  intros Hx Hpre Hpost Hk. split; intros d.
  - apply (proj1 (Forall_forall _ _) Hpre), hd_app_cons.
  - rewrite last_app_cons. destruct post as [|q post].
    + now apply Hk.
    + change (last (k :: q :: post) d) with (last (q :: post) d).
      apply (proj1 (Forall_forall _ _) Hpost), last_In. discriminate.
Qed.

(** On a key the interpolation returns the stored value. *)
Lemma linear_interpolation_at_key (t : table) (k v argument : float) :
  is_dict t = true -> (2 <= List.length t)%nat ->
  In (k, v) t -> (k =? argument)%float = true ->
  linear_interpolation t (PyFloat argument) = Ok v.
Proof.
  intros Hd Hlen Hkv Heq.
  destruct (sorted_dict_keys t Hd) as (Hs & Hn & Hin).
  destruct (map_getitem_dict t (sorted (keys t)) Hd) as (ys & Hys & Hall).
  { intros x Hx. now apply Hin. }
  assert (Hk : In k (sorted (keys t))).
  { apply Hin, in_map_iff. now exists (k, v). }
  pose proof (sorted_length (keys t)) as Hsl.
  unfold keys in Hsl at 2. rewrite length_map in Hsl.
  pose proof (Forall2_length Hall) as Hyl.
  apply in_split in Hk. destruct Hk as (pre & post & E).
  rewrite E in Hs, Hall, Hsl, Hyl.
  apply Forall2_app_inv_l in Hall.
  destruct Hall as (ypre & ys2 & Hpre & Hpost & ->).
  inversion Hpost as [|? v' ? ypost Hv' Hpost']; subst.
  assert (v' = v) by (eapply dict_value_unique; eauto). subst v'.
  destruct (ascending_split _ _ _ Hs) as (Hlt & Hgt & _).
  assert (Hx : not_nan argument) by (unfold not_nan; float_order).
  assert (Hxk : (argument <? k)%float = false) by float_order.
  assert (Hkx : (k <? argument)%float = false) by float_order.
  assert (Hxpre : Forall (fun p => (argument <? p)%float = false) pre).
  { eapply Forall_impl; [| exact Hlt]. unfold flt. intros p Hp. float_order. }
  assert (Hxpost : Forall (fun p => (argument <? p)%float = true) post).
  { eapply Forall_impl; [| exact Hgt]. unfold flt. intros p Hp. float_order. }
  destruct (in_range_around argument k pre post Hx) as [Hhd Hlast].
  { apply Forall_app. split; [exact Hxpre | now constructor]. }
  { eapply Forall_impl; [| exact Hgt]. unfold flt. intros p Hp. float_order. }
  { intros _. exact Hkx. }
  unfold linear_interpolation. rewrite Hys. cbn [bind to_float]. rewrite E.
  rewrite interp1d_segment; try assumption; [| lia].
  f_equal. apply interp_segment_key; try assumption.
  - now apply Forall2_length in Hpre.
  - now apply Forall2_length in Hpost'.
Qed.

(** Two keys with no key strictly between them are neighbours in the
    ascending arrangement. *)
Lemma adjacent_in_sorted (xs : list float) (k1 k2 : float) :
  StronglySorted flt xs -> In k1 xs -> In k2 xs -> flt k1 k2 ->
  (forall k, In k xs -> (k1 <? k)%float && (k <? k2)%float = false) ->
  exists pre post, xs = (pre ++ k1 :: k2 :: post)%list.
Proof.
  intros Hs H1 H2 Hlt Hadj. unfold flt in Hlt.
  apply in_split in H1. destruct H1 as (pre & rest & E). subst xs.
  destruct (ascending_split _ _ _ Hs) as (Hpre & Hrest & Hs').
  apply in_app_or in H2. destruct H2 as [H2 | [H2 | H2]].
  - apply (proj1 (Forall_forall _ _) Hpre) in H2. unfold flt in H2.
    exfalso. float_order.
  - subst k2. exfalso. float_order.
  - destruct rest as [|r0 rest]; [contradiction |].
    destruct H2 as [-> | H2]; [now exists pre, rest |].
    exfalso.
    inversion Hs' as [|? ? Hs'' _]; subst.
    inversion Hs'' as [|? ? _ Hr0]; subst.
    apply (proj1 (Forall_forall _ _) Hr0) in H2.
    inversion Hrest as [|? ? Hk1r0 _]; subst.
    specialize (Hadj r0). unfold flt in *.
    rewrite Hk1r0, H2 in Hadj. 
    assert (true && true = false) by (apply Hadj, in_or_app; right; right; now left).
    discriminate.
Qed.

(** Strictly between two neighbouring keys the interpolation evaluates
    the line through the two bracketing points. *)
Lemma linear_interpolation_between (t : table) (k1 v1 k2 v2 argument : float) :
  is_dict t = true -> In (k1, v1) t -> In (k2, v2) t ->
  (forall k, In k (keys t) -> (k1 <? k)%float && (k <? k2)%float = false) ->
  (k1 <? argument)%float = true -> (argument <? k2)%float = true ->
  linear_interpolation t (PyFloat argument)
  = Ok (segment_value k1 v1 k2 v2 argument).
Proof.
  intros Hd Hkv1 Hkv2 Hadj Hlo Hhi.
  destruct (sorted_dict_keys t Hd) as (Hs & Hn & Hin).
  destruct (map_getitem_dict t (sorted (keys t)) Hd) as (ys & Hys & Hall).
  { intros x Hx. now apply Hin. }
  assert (Hk1 : In k1 (sorted (keys t))).
  { apply Hin, in_map_iff. now exists (k1, v1). }
  assert (Hk2 : In k2 (sorted (keys t))).
  { apply Hin, in_map_iff. now exists (k2, v2). }
  assert (H12 : flt k1 k2) by (eapply ltb_trans; eauto).
  destruct (adjacent_in_sorted _ k1 k2 Hs Hk1 Hk2 H12) as (pre & post & E).
  { intros k Hk. apply Hadj. now apply Hin. }
  pose proof (Forall2_length Hall) as Hyl.
  rewrite E in Hs, Hall, Hyl.
  apply Forall2_app_inv_l in Hall.
  destruct Hall as (ypre & ys2 & Hpre & Hpost & ->).
  inversion Hpost as [|? v1' ? ys3 Hv1' Hpost']; subst.
  inversion Hpost' as [|? v2' ? ypost Hv2' Hpost'']; subst.
  assert (v1' = v1) by (eapply dict_value_unique; eauto). subst v1'.
  assert (v2' = v2) by (eapply dict_value_unique; eauto). subst v2'.
  destruct (ascending_split _ _ _ Hs) as (Hlt & Hgt & _).
  assert (Hx : not_nan argument) by (unfold not_nan; float_order).
  assert (Hxk1 : (argument <? k1)%float = false) by float_order.
  assert (Hne : (k1 =? argument)%float = false) by float_order.
  assert (Hxpre : Forall (fun p => (argument <? p)%float = false) pre).
  { eapply Forall_impl; [| exact Hlt]. unfold flt. intros p Hp. float_order. }
  destruct (in_range_around argument k1 pre (k2 :: post) Hx) as [Hhd Hlast].
  { apply Forall_app. split; [exact Hxpre | now constructor]. }
  { inversion Hgt as [|? ? _ Hgt']; subst.
    destruct (ascending_split (pre ++ [k1]) post k2) as (_ & Hgt2 & _).
    { now rewrite <- app_assoc. }
    constructor; [float_order |].
    eapply Forall_impl; [| exact Hgt2]. unfold flt. intros p Hp. float_order. }
  { discriminate. }
  unfold linear_interpolation. rewrite Hys. cbn [bind to_float]. rewrite E.
  rewrite interp1d_segment; try assumption.
  - f_equal. apply interp_segment_between; try assumption.
    now apply Forall2_length in Hpre.
  - rewrite length_app. cbn [List.length]. lia.
Qed.

(** On a flat segment the slope is a zero (or a NaN, which the retry
    absorbs), and the value is that of the two ends. *)
Lemma SFsub_equal (a b : spec_float) :
  SFeqb a b = true -> zero_or_nan (SF64sub b a) = true.
Proof.
  unfold SFeqb.
  destruct a as [s1|s1| |s1 m1 e1], b as [s2|s2| |s2 m2 e2];
    cbn [SFcompare]; try discriminate;
    try (destruct s1, s2; try discriminate; reflexivity).
  intros H.
  assert (E : s1 = s2 /\ e1 = e2 /\ m1 = m2).
  { destruct s1, s2; try discriminate;
      destruct (Z.compare_spec e1 e2); try discriminate;
      destruct (Pos.compare_cont Eq m1 m2) eqn:Em; try discriminate;
      apply Pcompare_Eq_eq in Em; auto. }
  destruct E as (-> & -> & ->).
  unfold SF64sub, SFsub. rewrite Z.sub_diag. reflexivity.
Qed.

Lemma SFdiv_zero_or_nan (z y : spec_float) :
  zero_or_nan z = true -> zero_or_nan (SF64div z y) = true.
Proof. destruct z, y; try discriminate; reflexivity. Qed.

Lemma SFmul_zero_or_nan (z d : spec_float) :
  zero_or_nan z = true -> zero_or_nan (SF64mul z d) = true.
Proof. destruct z, d; try discriminate; reflexivity. Qed.

Lemma SFadd_zero_or_nan (w v : spec_float) :
  zero_or_nan w = true -> SFeqb v v = true ->
  SF64add w v = S754_nan \/ SFeqb (SF64add w v) v = true.
Proof.
  destruct w as [s| | |], v as [s'|s'| |s' m' e']; try discriminate; intros _ H;
    try (now left); right; try exact H;
    try (destruct s, s'; reflexivity).
Qed.

Lemma add_zero_or_nan (w v : float) :
  zero_or_nan (Prim2SF w) = true -> (v =? v)%float = true ->
  ((w + v) =? (w + v))%float = false \/ ((w + v) =? v)%float = true.
Proof.
  intros Hw Hv. rewrite FloatAxioms.eqb_spec in Hv.
  destruct (SFadd_zero_or_nan _ _ Hw Hv) as [H | H].
  - left. rewrite FloatAxioms.eqb_spec, add_spec, H. reflexivity.
  - right. now rewrite FloatAxioms.eqb_spec, add_spec.
Qed.

Lemma segment_value_flat (k1 v1 k2 v2 x : float) :
  (v1 =? v2)%float = true ->
  (segment_value k1 v1 k2 v2 x =? v1)%float = true.
Proof.
  intros H. unfold segment_value.
  set (slope := ((v2 - v1) / (k2 - k1))%float).
  assert (Hs : zero_or_nan (Prim2SF slope) = true).
  { unfold slope. rewrite div_spec, sub_spec.
    apply SFdiv_zero_or_nan, SFsub_equal. now rewrite <- FloatAxioms.eqb_spec. }
  assert (Hm : forall d, zero_or_nan (Prim2SF (slope * d)%float) = true).
  { intros d. rewrite mul_spec. now apply SFmul_zero_or_nan. }
  assert (Hv1 : (v1 =? v1)%float = true) by float_order.
  assert (Hv2 : (v2 =? v2)%float = true) by float_order.
  cbv zeta. unfold is_nan.
  destruct (add_zero_or_nan _ v1 (Hm (x - k1)%float) Hv1) as [Hr | Hr];
    rewrite ?Hr; cbn [negb].
  - destruct (add_zero_or_nan _ v2 (Hm (x - k2)%float) Hv2) as [Hr' | Hr'].
    + rewrite Hr', H. cbn [negb andb]. exact Hv1.
    + assert (Hnn : ((slope * (x - k2) + v2) =? (slope * (x - k2) + v2))%float
                    = true) by float_order.
      rewrite Hnn. cbn [negb andb]. float_order.
  - assert (Hnn : ((slope * (x - k1) + v1) =? (slope * (x - k1) + v1))%float
                  = true) by float_order.
    rewrite Hnn. cbn [negb]. exact Hr.
Qed.

(** C4 (as amended): for every dict table with at least two points, an
    argument equal to a key gets the stored value exactly, and an argument
    strictly between two adjacent keys gets the float value of
    [slope * (argument - x_lo) + y_lo] with
    [slope = (y_hi - y_lo) / (x_hi - x_lo)] (evaluated from the right end
    instead when that is NaN); that value is not strictly between the two
    bracketing values when these are equal: it is equal to them. *)
Theorem linear_interpolation_in_range (t : table) :
  is_dict t = true -> (2 <= List.length t)%nat ->
  (forall k v argument : float,
      In (k, v) t -> (k =? argument)%float = true ->
      linear_interpolation t (PyFloat argument) = Ok v)
  /\ (forall k1 v1 k2 v2 argument : float,
         In (k1, v1) t -> In (k2, v2) t ->
         (forall k, In k (keys t) ->
                    (k1 <? k)%float && (k <? k2)%float = false) ->
         (k1 <? argument)%float = true -> (argument <? k2)%float = true ->
         linear_interpolation t (PyFloat argument)
         = Ok (segment_value k1 v1 k2 v2 argument)
         /\ ((v1 =? v2)%float = true ->
             (segment_value k1 v1 k2 v2 argument =? v1)%float = true
             /\ (segment_value k1 v1 k2 v2 argument =? v2)%float = true)).
Proof.
  intros Hd Hlen. split.
  - intros k v argument Hkv Heq.
    now apply (linear_interpolation_at_key t k v argument).
  - intros k1 v1 k2 v2 argument Hkv1 Hkv2 Hadj Hlo Hhi.
    split; [now apply linear_interpolation_between |].
    intros Hflat. pose proof (segment_value_flat k1 v1 k2 v2 argument Hflat) as E.
    split; [exact E |]. float_order.
Qed.

Lemma linear_interpolation_in_range_witness :
  linear_interpolation table_n (PyFloat 3.0) = Ok 0.139%float
  /\ linear_interpolation table_n (PyFloat 2.5)
     = Ok (segment_value 2.0 0.222 3.0 0.139 2.5)%float.
Proof.
  assert (Hd : is_dict table_n = true) by (vm_compute; reflexivity).
  assert (Hlen : (2 <= List.length table_n)%nat) by (simpl; lia).
  destruct (linear_interpolation_in_range table_n Hd Hlen) as [Hkey Hbetween].
  split.
  - apply (Hkey 3.0%float 0.139%float 3.0%float).
    + simpl. right. now left.
    + vm_compute. reflexivity.
  - apply (Hbetween 2.0 0.222 3.0 0.139 2.5)%float.
    + simpl. now left.
    + simpl. right. now left.
    + intros k Hk. simpl in Hk.
      repeat (destruct Hk as [<- | Hk]; [vm_compute; reflexivity |]).
      contradiction.
    + vm_compute. reflexivity.
    + vm_compute. reflexivity.
Defined.

(** C4 fails as stated: between two keys with equal values the result is
    that common value, not a value strictly between them; and rounding can
    return a bracketing value even when the two differ. *)
Lemma linear_interpolation_not_strictly_between :
  (is_dict table_flat = true
   /\ (0.0 <? 0.5)%float = true /\ (0.5 <? 1.0)%float = true
   /\ linear_interpolation table_flat (PyFloat 0.5) = Ok 1.0%float
   /\ (1.0 <? 1.0)%float = false)
  /\ (is_dict table_one_ulp = true
      /\ linear_interpolation table_one_ulp (PyFloat 0.5) = Ok 1.0%float
      /\ (1.0 <? 0x1.0000000000001p+0)%float = true).
Proof. repeat split; vm_compute; reflexivity. Qed.

(** ** [SineEvent] *)

Lemma float_of_int_60 : float_of_int 60 = Ok 60%float.
Proof. vm_compute. reflexivity. Qed.

Lemma float_of_int_80 : float_of_int 80 = Ok 80%float.
Proof. vm_compute. reflexivity. Qed.

Lemma SineEvent_float (stress_1g load : num) (r : float) (desc : string) :
  SineEvent stress_1g load (PyFloat r) desc
  = if (r * math_log_2 =? 0)%float then Raise ZeroDivisionError
    else (z <- math_ceil (PyFloat (sweep_cycles r)) ;;
          stress <- py_mul load stress_1g ;;
          Ok (mkEvent (PyInt z) (py_neg stress) stress desc)).
Proof.
  unfold SineEvent, py_truediv_float, sweep_cycles.
  cbn [py_mul arith to_float bind]. rewrite float_of_int_60. cbn [bind].
  destruct (r * math_log_2 =? 0)%float; [reflexivity |].
  cbn [bind to_float]. change (100 - 20) with 80. rewrite float_of_int_80.
  reflexivity.
Qed.

(** C6 (as amended): for every sweep rate [r] that is not zero and for
    which the float [q = 60 / (r * ln 2) * 80] is finite, [SineEvent]
    returns an event with [neq = ceil(q)], the same for every [stress_1g]
    and [load], and with [s_min = -stress], [s_max = stress] where
    [stress = load * stress_1g]; an infinite or NaN [q] makes [math.ceil]
    raise, and a zero sweep rate raises [ZeroDivisionError].
    [SineEvent(10, 2, 1.0)] has [s_min = -20], [s_max = 20] and
    [neq = ceil(60 / ln 2 * 80) = 6925]. *)
Theorem SineEvent_cycles_and_stress :
  (forall r : float,
      (r =? 0)%float = false ->
      is_finite (sweep_cycles r) = true ->
      exists z : Z,
        math_ceil (PyFloat (sweep_cycles r)) = Ok z
        /\ forall (stress_1g load stress : num) (desc : string),
             py_mul load stress_1g = Ok stress ->
             SineEvent stress_1g load (PyFloat r) desc
             = Ok (mkEvent (PyInt z) (py_neg stress) stress desc))
  /\ (forall (stress_1g load : num) (r : float) (desc : string),
         (r =? 0)%float = false ->
         is_finite (sweep_cycles r) = false ->
         exists e, SineEvent stress_1g load (PyFloat r) desc = Raise e)
  /\ (forall (stress_1g load : num) (r : float) (desc : string),
         (r =? 0)%float = true ->
         SineEvent stress_1g load (PyFloat r) desc = Raise ZeroDivisionError)
  /\ math_ceil (PyFloat (60 / math_log_2 * 80)%float) = Ok 6925
  /\ SineEvent (PyInt 10) (PyInt 2) (PyFloat 1.0) ""
     = Ok (mkEvent (PyInt 6925) (PyInt (-20)) (PyInt 20) "").
Proof.
  split; [| split; [| split; [| split; vm_compute; reflexivity]]].
  - intros r Hnz Hfin. destruct (math_ceil_finite _ Hfin) as [z Hz].
    exists z. split; [exact Hz |].
    intros stress_1g load stress desc Hs.
    rewrite SineEvent_float, (mul_log_2_nonzero r Hnz), Hz. cbn [bind].
    now rewrite Hs.
  - intros stress_1g load r desc Hnz Hfin.
    destruct (math_ceil_not_finite _ Hfin) as [e He].
    exists e. rewrite SineEvent_float, (mul_log_2_nonzero r Hnz), He.
    reflexivity.
  - intros stress_1g load r desc Hz.
    now rewrite SineEvent_float, (mul_log_2_zero r Hz).
Qed.

Lemma SineEvent_cycles_and_stress_witness :
  exists z : Z,
    math_ceil (PyFloat (sweep_cycles 1.0)) = Ok z
    /\ forall (stress_1g load stress : num) (desc : string),
         py_mul load stress_1g = Ok stress ->
         SineEvent stress_1g load (PyFloat 1.0) desc
         = Ok (mkEvent (PyInt z) (py_neg stress) stress desc).
Proof.
  apply (proj1 SineEvent_cycles_and_stress 1.0%float).
  - vm_compute. reflexivity.
  - vm_compute. reflexivity.
Defined.

(** C6 fails as stated: the sweep rate [1e-320] is not zero, yet
    [60 / (1e-320 * ln 2)] overflows to infinity and [math.ceil] raises. *)
Lemma SineEvent_overflow_counterexample :
  (1e-320 =? 0)%float = false
  /\ SineEvent (PyFloat 10.0) (PyFloat 2.0) (PyFloat 1e-320) ""
     = Raise OverflowError.
Proof. split; vm_compute; reflexivity. Qed.

(** ** [ThermalEvent] *)

Lemma float_of_int_20 : float_of_int 20 = Ok 20%float.
Proof. vm_compute. reflexivity. Qed.

(** C7: [ThermalEvent] returns the event with
    [s_min = stress_1K * (T_min - T_ref)],
    [s_max = stress_1K * (T_max - T_ref)] and [neq] as it was passed, not
    rounded: on floats (with [T_ref] a float or the default [20]), on
    ints, and, whatever the mix, whenever it returns.
    [ThermalEvent(10, 50, 0, T_ref=20, neq=365)] has [s_min = -200]
    (equal to [-200.0]), [s_max = 300] (equal to [300.0]) and
    [neq = 365]. *)
Theorem ThermalEvent_stress_and_cycles :
  (forall (k tmax tmin tref : float) (n : num) (desc : string),
      ThermalEvent (PyFloat k) (PyFloat tmax) (PyFloat tmin) n (PyFloat tref) desc
      = Ok (mkEvent n (PyFloat (k * (tmin - tref))) (PyFloat (k * (tmax - tref)))
              desc))
  /\ (forall (k tmax tmin : float) (n : num) (desc : string),
         ThermalEvent (PyFloat k) (PyFloat tmax) (PyFloat tmin) n default_T_ref desc
         = Ok (mkEvent n (PyFloat (k * (tmin - 20))) (PyFloat (k * (tmax - 20)))
                 desc))
  /\ (forall (k tmax tmin tref : Z) (n : num) (desc : string),
         ThermalEvent (PyInt k) (PyInt tmax) (PyInt tmin) n (PyInt tref) desc
         = Ok (mkEvent n (PyInt (k * (tmin - tref))) (PyInt (k * (tmax - tref)))
                 desc))
  /\ (forall (k tmax tmin n tref : num) (desc : string) (ev : Event),
         ThermalEvent k tmax tmin n tref desc = Ok ev ->
         neq ev = n
         /\ (d <- py_sub tmin tref ;; py_mul k d) = Ok (s_min ev)
         /\ (d <- py_sub tmax tref ;; py_mul k d) = Ok (s_max ev))
  /\ ThermalEvent (PyInt 10) (PyInt 50) (PyInt 0) (PyInt 365) (PyInt 20) ""
     = Ok (mkEvent (PyInt 365) (PyInt (-200)) (PyInt 300) "")
  /\ py_eq (PyInt (-200)) (PyFloat (-200.0)) = true
  /\ py_eq (PyInt 300) (PyFloat 300.0) = true.
Proof.
  split; [| split; [| split; [| split]]].
  - intros. reflexivity.
  - intros. unfold ThermalEvent, default_T_ref.
    cbn [py_sub py_mul arith to_float bind]. rewrite float_of_int_20.
    reflexivity.
  - intros. reflexivity.
  - intros k tmax tmin n tref desc ev H. unfold ThermalEvent in H.
    destruct (py_sub tmin tref) as [dmin|] eqn:E1; [cbn [bind] in H | discriminate].
    destruct (py_mul k dmin) as [smin|] eqn:E2; [cbn [bind] in H | discriminate].
    destruct (py_sub tmax tref) as [dmax|] eqn:E3; [cbn [bind] in H | discriminate].
    destruct (py_mul k dmax) as [smax|] eqn:E4; [cbn [bind] in H | discriminate].
    inversion H; subst; cbn [neq s_min s_max bind].
    now rewrite E2, E4.
  - repeat split; vm_compute; reflexivity.
Qed.

Lemma ThermalEvent_stress_and_cycles_witness :
  neq (mkEvent (PyInt 365) (PyInt (-200)) (PyInt 300) "") = PyInt 365
  /\ (d <- py_sub (PyInt 0) (PyInt 20) ;; py_mul (PyInt 10) d)
     = Ok (s_min (mkEvent (PyInt 365) (PyInt (-200)) (PyInt 300) ""))
  /\ (d <- py_sub (PyInt 50) (PyInt 20) ;; py_mul (PyInt 10) d)
     = Ok (s_max (mkEvent (PyInt 365) (PyInt (-200)) (PyInt 300) "")).
Proof.
  apply (proj1 (proj2 (proj2 (proj2 ThermalEvent_stress_and_cycles)))
           (PyInt 10) (PyInt 50) (PyInt 0) (PyInt 365) (PyInt 20) "").
  reflexivity.
Defined.

(** ** The total number of cycles *)

Lemma sum_from_ints (evs : list Event) :
  forall a : Z,
    forallb int_neq evs = true ->
    sum_from (PyInt a) (map neq evs) = Ok (PyInt (a + sum_int_neq evs)).
Proof.
  induction evs as [|e evs IH]; intros a H; simpl.
  - now rewrite Z.add_0_r.
  - simpl in H. apply andb_prop in H. destruct H as [He H].
    unfold int_neq in He. unfold sum_int_neq; simpl.
    destruct (neq e) as [z|f]; [| discriminate]. simpl.
    rewrite (IH _ H). unfold sum_int_neq. now rewrite Z.add_assoc.
Qed.

Lemma sum_int_neq_perm (l l' : list Event) :
  Permutation l l' -> sum_int_neq l = sum_int_neq l'.
Proof.
  unfold sum_int_neq.
  induction 1 as [| e l l' _ IH | e1 e2 l | l l' l'' _ IH1 _ IH2]; simpl; lia.
Qed.

Lemma forallb_perm {A : Type} (f : A -> bool) (l l' : list A) :
  Permutation l l' -> forallb f l = forallb f l'.
Proof.
  induction 1 as [| e l l' _ IH | e1 e2 l | l l' l'' _ IH1 _ IH2]; simpl.
  - reflexivity.
  - now rewrite IH.
  - now destruct (f e1), (f e2).
  - now rewrite IH1.
Qed.

Lemma total_cycles_ints (sp : StressSpectrum) :
  forallb int_neq (events sp) = true ->
  total_cycles sp
  = (p <- py_mul (sf_cycles sp) (PyInt (sum_int_neq (events sp))) ;;
     math_ceil p).
Proof.
  intros H. unfold total_cycles, py_sum. now rewrite (sum_from_ints _ 0 H).
Qed.

Lemma stats_total_line (str_float : float -> string) (st : state) :
  fst (stats str_float st) = Ok tt ->
  exists n : Z,
    total_cycles (self st) = Ok n
    /\ nth_error (stdout (snd (stats str_float st))) (List.length (stdout st) + 2)
       = Some ("> Total number of cycles: " ++ str_int n).
Proof.
  unfold stats.
  destruct (m <- py_max _ ;; _) as [fmax|]; [| discriminate].
  destruct (m <- py_min _ ;; _) as [fmin|]; [| discriminate].
  destruct (total_cycles (self st)) as [n|]; [| discriminate].
  intros _. exists n. split; [reflexivity |].
  cbn [snd print stdout]. rewrite <- !app_assoc. cbn [app].
  rewrite nth_error_app2 by lia.
  replace (List.length (stdout st) + 2 - List.length (stdout st))%nat with 2%nat
    by lia.
  reflexivity.
Qed.

(** C8 (as amended): the total that [stats] reports is
    [ceil(sf_cycles * sum(neq))]; when every [neq] is an [int] (as the
    factories make it) the sum is the exact integer sum and the total does
    not depend on the order in which the events were appended. *)
Theorem total_cycles_order_invariant :
  (forall sp sp' : StressSpectrum,
      sf_cycles sp' = sf_cycles sp ->
      Permutation (events sp) (events sp') ->
      forallb int_neq (events sp) = true ->
      total_cycles sp
      = (p <- py_mul (sf_cycles sp) (PyInt (sum_int_neq (events sp))) ;;
         math_ceil p)
      /\ total_cycles sp' = total_cycles sp)
  /\ (forall (str_float : float -> string) (st : state),
         fst (stats str_float st) = Ok tt ->
         exists n : Z,
           total_cycles (self st) = Ok n
           /\ nth_error (stdout (snd (stats str_float st)))
                (List.length (stdout st) + 2)
              = Some ("> Total number of cycles: " ++ str_int n)).
Proof.
  split; [| exact stats_total_line].
  intros sp sp' Hsf Hperm Hint.
  split; [now apply total_cycles_ints |].
  rewrite (total_cycles_ints sp Hint).
  rewrite (total_cycles_ints sp')
    by (now rewrite <- (forallb_perm int_neq _ _ Hperm)).
  now rewrite Hsf, (sum_int_neq_perm _ _ Hperm).
Qed.

Lemma total_cycles_order_invariant_witness :
  total_cycles spectrum_example
  = (p <- py_mul (sf_cycles spectrum_example)
            (PyInt (sum_int_neq (events spectrum_example))) ;;
     math_ceil p)
  /\ total_cycles spectrum_example_swapped = total_cycles spectrum_example.
Proof.
  apply (proj1 total_cycles_order_invariant spectrum_example
           spectrum_example_swapped).
  - reflexivity.
  - apply perm_swap.
  - reflexivity.
Defined.

(** C8 fails as stated: float addition is not associative, so with float
    cycle counts the sum, and the total, depend on the append order. *)
Lemma total_cycles_order_counterexample :
  Permutation (events spectrum_big_first) (events spectrum_big_last)
  /\ sf_cycles spectrum_big_first = sf_cycles spectrum_big_last
  /\ total_cycles spectrum_big_first = Ok 1152921504606846976
  /\ total_cycles spectrum_big_last = Ok 1152921504606847232.
Proof.
  split; [| split; [reflexivity | split; vm_compute; reflexivity]].
  unfold spectrum_big_first, spectrum_big_last; cbn [events].
  apply Permutation_rev.
Qed.

(** The same two orders under the compensated summation. *)
Lemma total_cycles_order_compensated :
  math_ceil (PyFloat (1.0 * compensated_sum 0 0 [0x1p60; 128.0; 0x1p-46; 0x1p-46])%float)
  = Ok 1152921504606846976
  /\ math_ceil (PyFloat (1.0 * compensated_sum 0 0 [0x1p-46; 0x1p-46; 128.0; 0x1p60])%float)
     = Ok 1152921504606847232.
Proof. split; vm_compute; reflexivity. Qed.

(** ** Cycle counts made by the factories *)

Lemma py_mul_float_r (a : num) (c : float) (v : num) :
  py_mul a (PyFloat c) = Ok v -> exists p, v = PyFloat p.
Proof.
  unfold py_mul, arith. destruct a as [x|x]; cbn [to_float bind].
  - destruct (float_of_int x); cbn [bind]; intros H; inversion H; eauto.
  - intros H; inversion H; eauto.
Qed.

Lemma py_mul_float_l (q : float) (b : num) (v : num) :
  py_mul (PyFloat q) b = Ok v -> exists p, v = PyFloat p.
Proof.
  unfold py_mul, arith. cbn [to_float bind]. destruct b as [y|y]; cbn [to_float].
  - destruct (float_of_int y); cbn [bind]; intros H; inversion H; eauto.
  - cbn [bind]. intros H; inversion H; eauto.
Qed.

(** A factor of one, [int] or [float], leaves the ceiling of a float as
    it is. *)
Lemma unit_factor_keeps_ceiling (p : float) (z : Z) (sf : num) :
  math_ceil (PyFloat p) = Ok z ->
  sf = PyInt 1 \/ sf = PyFloat 1.0 ->
  (c <- py_mul sf (PyInt z) ;; math_ceil c) = Ok z.
Proof.
  intros Hz [-> | ->].
  - cbn [py_mul arith bind math_ceil]. now rewrite Z.mul_1_l.
  - destruct (ceil_float_roundtrip p z Hz) as (f & Hf & Hc).
    unfold py_mul, arith. cbn [to_float bind]. rewrite Hf. cbn [bind].
    exact Hc.
Qed.

Lemma integer_cycles_unchanged (p : float) (z : Z) (ev : Event) :
  math_ceil (PyFloat p) = Ok z -> neq ev = PyInt z ->
  forall sp : StressSpectrum,
    sf_cycles sp = PyInt 1 \/ sf_cycles sp = PyFloat 1.0 ->
    scaled_cycles sp (neq ev) = Ok z
    /\ total_cycles (single (sf_cycles sp) ev) = Ok z.
Proof.
  intros Hz Hn sp Hsf. rewrite Hn. split.
  - unfold scaled_cycles. now apply (unit_factor_keeps_ceiling p).
  - unfold total_cycles, single, py_sum. cbn [events map sum_from sf_cycles].
    rewrite Hn. cbn [py_add arith bind]. rewrite Z.add_0_l.
    now apply (unit_factor_keeps_ceiling p).
Qed.

(** C10: an event that [RandomEvent] or [SineEvent] returns has an [int]
    as [neq] (the ceiling is taken inside the factory), and with a cycle
    factor of one ([1] or [1.0]) the later [ceil(sf_cycles * neq)] of
    [save], and that of [stats] on this event alone, gives that same
    integer. *)
Theorem factory_cycles_are_integers :
  (forall (stress fn duration n : num) (desc : string) (ev : Event),
      RandomEvent stress fn duration n desc = Ok ev ->
      exists z : Z,
        neq ev = PyInt z
        /\ forall sp : StressSpectrum,
             sf_cycles sp = PyInt 1 \/ sf_cycles sp = PyFloat 1.0 ->
             scaled_cycles sp (neq ev) = Ok z
             /\ total_cycles (single (sf_cycles sp) ev) = Ok z)
  /\ (forall (stress_1g load sweep_rate : num) (desc : string) (ev : Event),
         SineEvent stress_1g load sweep_rate desc = Ok ev ->
         exists z : Z,
           neq ev = PyInt z
           /\ forall sp : StressSpectrum,
                sf_cycles sp = PyInt 1 \/ sf_cycles sp = PyFloat 1.0 ->
                scaled_cycles sp (neq ev) = Ok z
                /\ total_cycles (single (sf_cycles sp) ev) = Ok z).
Proof.
  split.
  - intros stress fn duration n desc ev H. unfold RandomEvent in H.
    destruct (py_mul fn duration) as [fd|] eqn:E1; [cbn [bind] in H | discriminate].
    destruct (linear_interpolation table_n n) as [c|] eqn:E2;
      [cbn [bind] in H | discriminate].
    destruct (py_mul fd (PyFloat c)) as [neq0|] eqn:E3;
      [cbn [bind] in H | discriminate].
    destruct (math_ceil neq0) as [z|] eqn:E4; [cbn [bind] in H | discriminate].
    inversion H; subst; clear H. exists z. split; [reflexivity |].
    destruct (py_mul_float_r _ _ _ E3) as [p ->].
    now apply (integer_cycles_unchanged p).
  - intros stress_1g load sweep_rate desc ev H. unfold SineEvent in H.
    destruct (py_mul sweep_rate (PyFloat math_log_2)) as [d|] eqn:E1;
      [cbn [bind] in H | discriminate].
    destruct (to_float d) as [d'|] eqn:E2; [cbn [bind] in H | discriminate].
    destruct (py_truediv_float (PyInt 60) d') as [q|] eqn:E3;
      [cbn [bind] in H | discriminate].
    destruct (py_mul (PyFloat q) (PyInt (100 - 20))) as [neq0|] eqn:E4;
      [cbn [bind] in H | discriminate].
    destruct (math_ceil neq0) as [z|] eqn:E5; [cbn [bind] in H | discriminate].
    destruct (py_mul load stress_1g) as [stress|] eqn:E6;
      [cbn [bind] in H | discriminate].
    inversion H; subst; clear H. exists z. split; [reflexivity |].
    destruct (py_mul_float_l _ _ _ E4) as [p ->].
    now apply (integer_cycles_unchanged p).
Qed.

Lemma factory_cycles_are_integers_witness :
  exists z : Z,
    neq (mkEvent (PyInt 5328) (PyFloat (-345.0)) (PyFloat 345.0) "") = PyInt z
    /\ forall sp : StressSpectrum,
         sf_cycles sp = PyInt 1 \/ sf_cycles sp = PyFloat 1.0 ->
         scaled_cycles sp
           (neq (mkEvent (PyInt 5328) (PyFloat (-345.0)) (PyFloat 345.0) ""))
         = Ok z
         /\ total_cycles
              (single (sf_cycles sp)
                 (mkEvent (PyInt 5328) (PyFloat (-345.0)) (PyFloat 345.0) ""))
            = Ok z.
Proof.
  apply (proj1 factory_cycles_are_integers (PyFloat (300 * 1.15)) (PyInt 200)
           (PyInt 120) (PyFloat 2.0) "").
  vm_compute. reflexivity.
Defined.

(** * Further properties

    ** [save], [append] and [stats] together *)

Lemma save_loop_stdout (verbose : bool) (evs : list Event) :
  forall st : state,
    stdout (snd (save_loop verbose evs st))
    = (stdout st ++ if verbose then echoed_lines (self st) evs else [])%list.
Proof.
  induction evs as [|e evs IH]; intros st; simpl.
  - destruct verbose; now rewrite app_nil_r.
  - destruct (data_line (self st) e) as [s|err]; simpl.
    + rewrite IH. destruct verbose; simpl.
      * now rewrite <- app_assoc.
      * reflexivity.
    + destruct verbose; now rewrite app_nil_r.
Qed.

Lemma save_stdout (verbose : bool) (st : state) :
  stdout (snd (save verbose st))
  = (stdout st ++ if verbose
                  then "==============" :: echoed_lines (self st) (events (self st))
                  else [])%list.
Proof.
  unfold save. cbv zeta. rewrite save_loop_stdout.
  destruct verbose; simpl; [now rewrite <- app_assoc | reflexivity].
Qed.


Lemma save_files (verbose : bool) (st : state) (p : string) :
  files (snd (save verbose st)) p
  = if String.eqb p (filename (self st))
    then Some (unlines (header :: written_lines (self st) (events (self st))))
    else files st p.
Proof.
  destruct (save_spec verbose st) as (_ & _ & H3 & H4).
  destruct (String.eqb_spec p (filename (self st))) as [-> | Hp]; auto.
Qed.




Lemma save_ok_lines (verbose : bool) (st : state) :
  fst (save verbose st) = Ok tt ->
  exists ls, map_result (data_line (self st)) (events (self st)) = Ok ls.
Proof.
  destruct (save_spec verbose st) as (H1 & _). rewrite H1. unfold loop_outcome.
  destruct (map_result _ _) as [ls|]; [eauto | discriminate].
Qed.

Lemma written_lines_ext (sp sp' : StressSpectrum) :
  (forall x, data_line sp x = data_line sp' x) ->
  forall evs, written_lines sp evs = written_lines sp' evs.
Proof.
  intros H evs. induction evs as [|x evs IH]; cbn [written_lines]; [reflexivity |].
  now rewrite H, IH.
Qed.

Lemma loop_outcome_ext (sp sp' : StressSpectrum) :
  (forall x, data_line sp x = data_line sp' x) ->
  forall evs, loop_outcome sp evs = loop_outcome sp' evs.
Proof.
  intros H evs. unfold loop_outcome.
  replace (map_result (data_line sp) evs) with (map_result (data_line sp') evs);
    [reflexivity |].
  induction evs as [|x evs IH]; cbn [map_result]; [reflexivity |].
  now rewrite H, IH.
Qed.

(** X1: [append] adds the event after the ones collected so far, and a
    [save] after it extends what a successful [save] before it wrote by
    exactly the new event's line; when the new event's line cannot be
    computed the [save] raises that error and the file is as before. *)
Theorem append_then_save (verbose : bool) (st : state) (e : Event) :
  let sp := self st in
  let st' := append e st in
  fst (save verbose st) = Ok tt ->
  events (self st') = (events sp ++ [e])%list
  /\ exists c : string,
       files (snd (save verbose st)) (filename sp) = Some c
       /\ (forall l, data_line sp e = Ok l ->
             fst (save verbose st') = Ok tt
             /\ files (snd (save verbose st')) (filename sp)
                = Some (c ++ l ++ newline))
       /\ (forall err, data_line sp e = Raise err ->
             fst (save verbose st') = Raise err
             /\ files (snd (save verbose st')) (filename sp) = Some c).
Proof.
  cbv zeta. intros Hok. split; [reflexivity |].
  destruct (save_ok_lines _ _ Hok) as [ls Hls].
  destruct (save_spec verbose st) as (_ & _ & A3 & _).
  destruct (save_spec verbose (append e st)) as (B1 & _ & B3 & _).
  change (filename (self (append e st))) with (filename (self st)) in B3.
  change (events (self (append e st))) with (events (self st) ++ [e])%list in B1, B3.
  assert (Hd : forall x, data_line (self (append e st)) x = data_line (self st) x)
    by reflexivity.
  pose proof (written_lines_ext _ _ Hd) as Hw.
  pose proof (loop_outcome_ext _ _ Hd) as Ho.
  rewrite Hw in B3. rewrite Ho in B1.
  rewrite (written_lines_app _ _ _ _ Hls) in B3.
  rewrite (loop_outcome_app _ _ _ _ Hls) in B1.
  rewrite (written_lines_all _ _ _ Hls) in A3.
  exists (unlines (header :: ls)). split; [exact A3 | split].
  - intros l Hl. split.
    + rewrite B1. unfold loop_outcome. simpl. now rewrite Hl.
    + rewrite B3. simpl written_lines. rewrite Hl.
      change (header :: ls ++ [l])%list with ((header :: ls) ++ [l])%list.
      rewrite unlines_app. cbn [unlines]. now rewrite append_nil_r.
  - intros err Hl. split.
    + rewrite B1. unfold loop_outcome. simpl. now rewrite Hl.
    + rewrite B3. simpl written_lines. rewrite Hl. now rewrite app_nil_r.
Qed.

Lemma append_then_save_witness :
  events (self (append (mkEvent (PyInt 3) (PyInt (-1)) (PyInt 1) "more")
                  (fresh spectrum_round_trip)))
  = (events spectrum_round_trip
       ++ [mkEvent (PyInt 3) (PyInt (-1)) (PyInt 1) "more"])%list
  /\ exists c : string,
       files (snd (save true (fresh spectrum_round_trip))) "out.spc" = Some c
       /\ (forall l,
             data_line spectrum_round_trip
               (mkEvent (PyInt 3) (PyInt (-1)) (PyInt 1) "more") = Ok l ->
             fst (save true (append (mkEvent (PyInt 3) (PyInt (-1)) (PyInt 1) "more")
                               (fresh spectrum_round_trip))) = Ok tt
             /\ files (snd (save true
                              (append (mkEvent (PyInt 3) (PyInt (-1)) (PyInt 1) "more")
                                 (fresh spectrum_round_trip)))) "out.spc"
                = Some (c ++ l ++ newline))
       /\ (forall err,
             data_line spectrum_round_trip
               (mkEvent (PyInt 3) (PyInt (-1)) (PyInt 1) "more") = Raise err ->
             fst (save true (append (mkEvent (PyInt 3) (PyInt (-1)) (PyInt 1) "more")
                               (fresh spectrum_round_trip))) = Raise err
             /\ files (snd (save true
                              (append (mkEvent (PyInt 3) (PyInt (-1)) (PyInt 1) "more")
                                 (fresh spectrum_round_trip)))) "out.spc"
                = Some c).
Proof.
  apply (append_then_save true (fresh spectrum_round_trip)
           (mkEvent (PyInt 3) (PyInt (-1)) (PyInt 1) "more")).
  vm_compute. reflexivity.
Defined.

Lemma stats_frame (str_float : float -> string) (st : state) :
  let r := stats str_float st in
  self (snd r) = self st
  /\ files (snd r) = files st
  /\ (exists printed : list string,
        stdout (snd r) = (stdout st ++ printed)%list
        /\ (fst r = Ok tt -> List.length printed = 6%nat)
        /\ (fst r <> Ok tt -> (List.length printed <= 2)%nat)).
Proof.
  cbv zeta. unfold stats. cbv zeta.
  destruct (bind (py_max _) _) as [fmax|e1].
  2:{ simpl. repeat split. exists []. rewrite app_nil_r.
      repeat split; [discriminate | simpl; lia]. }
  destruct (bind (py_min _) _) as [fmin|e2].
  2:{ simpl. repeat split. eexists [_]. repeat split; [discriminate | simpl; lia]. }
  destruct (total_cycles (self st)) as [n|e3].
  2:{ simpl. repeat split. eexists [_; _]. rewrite <- app_assoc.
      repeat split; [discriminate | simpl; lia]. }
  simpl. repeat split. eexists [_; _; _; _; _; _].
  rewrite <- !app_assoc. simpl. repeat split. intros C; now elim C.
Qed.

(** X7: [stats] only prints: the collector and every file are as before,
    what had been printed stays, six lines are added when it succeeds and
    at most two when it raises; a [save] after [stats] leaves the files a
    [save] without it would. *)
Theorem stats_only_prints (str_float : float -> string) (st : state) :
  let r := stats str_float st in
  self (snd r) = self st
  /\ files (snd r) = files st
  /\ (exists printed : list string,
        stdout (snd r) = (stdout st ++ printed)%list
        /\ (fst r = Ok tt -> List.length printed = 6%nat)
        /\ (fst r <> Ok tt -> (List.length printed <= 2)%nat))
  /\ (forall (verbose : bool) (p : string),
        files (snd (save verbose (snd r))) p = files (snd (save verbose st)) p).
Proof.
  cbv zeta. destruct (stats_frame str_float st) as (H1 & H2 & H3).
  repeat split; try assumption.
  intros verbose p. rewrite !save_files, H1, H2. reflexivity.
Qed.

Lemma RandomEvent_example :
  RandomEvent (PyFloat (300 * 1.15)) (PyInt 200) (PyInt 120) default_n "Random X"
  = Ok (mkEvent (PyInt 5328) (PyFloat (-345.0)) (PyFloat 345.0) "Random X").
Proof. vm_compute. reflexivity. Qed.

(** X16: the script.  On a file system where [example.spc] can be opened
    for writing it ends normally, prints the six lines of [stats] and the
    three of [save], writes the header and the two data lines to
    [example.spc] and leaves every other file as it was.  Where
    [example.spc] cannot be opened it prints the six lines of [stats],
    then raises what [open] raises, and changes no file. *)
Theorem main_runs (open_error : string -> option exn)
    (str_float : float -> string) (fs : string -> option string) :
  let r := main open_error str_float fs in
  let printed_by_stats :=
    [ "> Peak max stress: 355.00 MPa";
      "> Peak min stress: -335.00 MPa";
      "> Total number of cycles: 22772";
      "> The following safety factors are included:";
      ">> cycles=" ++ str_float 4.0%float;
      ">> stress=" ++ str_float 1.0%float ] in
  (open_error "example.spc" = None ->
   fst r = Ok tt
   /\ files (snd r) "example.spc"
      = Some (unlines [ "max min cycle format";
                        "355.00  -335.00  21312";
                        "310.00  -190.00  1460" ])
   /\ (forall p, p <> "example.spc" -> files (snd r) p = fs p)
   /\ stdout (snd r)
      = (printed_by_stats
           ++ [ "==============";
                "355.00  -335.00  21312     | Random X";
                "310.00  -190.00  1460      | Thermoelastic" ])%list)
  /\ (forall err : exn,
         open_error "example.spc" = Some err ->
         fst r = Raise err
         /\ files (snd r) = fs
         /\ stdout (snd r) = printed_by_stats).
Proof.
  cbv zeta.
  assert (E : main open_error str_float fs
              = match stats str_float (mkState spectrum_example fs []) with
                | (Raise e, st3) => (Raise e, st3)
                | (Ok _, st3) => IO.save open_error true st3
                end).
  { unfold main. cbv zeta. rewrite RandomEvent_example. reflexivity. }
  rewrite E.
  pose proof (stats_frame str_float (mkState spectrum_example fs [])) as S.
  cbv zeta in S. destruct S as (S1 & S2 & _).
  assert (So : stats str_float (mkState spectrum_example fs [])
               = (Ok tt, snd (stats str_float (mkState spectrum_example fs [])))).
  { vm_compute. reflexivity. }
  rewrite So.
  set (st3 := snd (stats str_float (mkState spectrum_example fs []))) in *.
  assert (Hp : filename (self st3) = "example.spc") by (rewrite S1; reflexivity).
  split.
  - intros Hopen. rewrite IO_save_opened by (rewrite Hp; exact Hopen).
    destruct (save_spec true st3) as (A1 & _ & A3 & A4).
    rewrite S1 in A1, A3, A4. cbn [self filename spectrum_example] in A1, A3, A4.
    split; [| split; [| split]].
    + rewrite A1. vm_compute. reflexivity.
    + rewrite A3. vm_compute. reflexivity.
    + intros p Hq. rewrite (A4 p Hq), S2. reflexivity.
    + rewrite save_stdout, S1. subst st3. vm_compute. reflexivity.
  - intros err Herr.
    rewrite (IO_save_refused open_error true st3 err) by (rewrite Hp; exact Herr).
    cbn [fst snd]. split; [reflexivity | split; [exact S2 |]].
    subst st3. vm_compute. reflexivity.
Qed.

Lemma main_runs_witness :
  (fst (main all_open (fun _ => "") no_files) = Ok tt
   /\ files (snd (main all_open (fun _ => "") no_files)) "example.spc"
      = Some (unlines [ "max min cycle format";
                        "355.00  -335.00  21312";
                        "310.00  -190.00  1460" ]))
  /\ (fst (main none_open (fun _ => "") no_files) = Raise OSError
      /\ files (snd (main none_open (fun _ => "") no_files)) = no_files
      /\ List.length (stdout (snd (main none_open (fun _ => "") no_files))) = 6%nat).
Proof.
  pose proof (proj1 (main_runs all_open (fun _ => "") no_files) eq_refl)
    as (H1 & H2 & _).
  pose proof (proj2 (main_runs none_open (fun _ => "") no_files) OSError eq_refl)
    as (H3 & H4 & H5).
  split; [split; [exact H1 | exact H2] |].
  split; [exact H3 | split; [exact H4 |]]. rewrite H5. reflexivity.
Defined.

(** ** The table of [linear_interpolation] *)

Lemma eqb_nan_r (k' k : float) : (k =? k)%float = false -> (k' =? k)%float = false.
Proof. intros H. float_order. Qed.

Lemma getitem_nan (t : table) (k : float) :
  (k =? k)%float = false -> getitem t k = Raise KeyError.
Proof.
  intros Hk. induction t as [|[k' v] t IH]; simpl; [reflexivity |].
  now rewrite (eqb_nan_r k' k Hk).
Qed.

Lemma getitem_raises (t : table) (k : float) (e : exn) :
  getitem t k = Raise e -> e = KeyError.
Proof.
  induction t as [|[k' v] t IH]; simpl.
  - intros H; now inversion H.
  - destruct (k' =? k)%float; [discriminate | exact IH].
Qed.

Lemma map_getitem_nan (t : table) (xs : list float) (k : float) :
  In k xs -> (k =? k)%float = false ->
  map_result (getitem t) xs = Raise KeyError.
Proof.
  intros Hin Hk. induction xs as [|x xs IH]; [destruct Hin |].
  cbn [map_result]. destruct Hin as [-> | Hin].
  - now rewrite (getitem_nan t k Hk).
  - destruct (getitem t x) as [v|e] eqn:Ex; cbn [bind].
    + now rewrite (IH Hin).
    + now rewrite (getitem_raises _ _ _ Ex).
Qed.

(** X11: a table with a NaN among its keys makes every call raise
    [KeyError], whatever the argument (the lookup of the NaN key fails);
    an empty table raises [ValueError]. *)
Theorem linear_interpolation_bad_table :
  (forall (t : table) (argument : num) (k : float),
      In k (keys t) -> (k =? k)%float = false ->
      linear_interpolation t argument = Raise KeyError)
  /\ (forall argument : float,
         linear_interpolation [] (PyFloat argument) = Raise ValueError).
Proof.
  split.
  - intros t argument k Hin Hk. unfold linear_interpolation. cbv zeta.
    rewrite (map_getitem_nan t (sorted (keys t)) k); [reflexivity | | exact Hk].
    now apply sorted_In.
  - reflexivity.
Qed.

Lemma linear_interpolation_bad_table_witness :
  linear_interpolation table_nan_key (PyFloat 2.5) = Raise KeyError.
Proof.
  apply (proj1 linear_interpolation_bad_table table_nan_key (PyFloat 2.5) nan).
  - vm_compute. right; left; reflexivity.
  - vm_compute. reflexivity.
Defined.

Lemma ascending_unique (l1 : list float) :
  forall l2 : list float,
    StronglySorted flt l1 -> StronglySorted flt l2 ->
    (forall x, In x l1 <-> In x l2) -> l1 = l2.
Proof.
  induction l1 as [|a l1 IH]; intros l2 S1 S2 H.
  - destruct l2 as [|b l2]; [reflexivity |].
    destruct (proj2 (H b) (or_introl eq_refl)).
  - destruct l2 as [|b l2]; [destruct (proj1 (H a) (or_introl eq_refl)) |].
    inversion S1 as [|? ? S1' F1]; subst. inversion S2 as [|? ? S2' F2]; subst.
    rewrite Forall_forall in F1, F2.
    assert (Hab : a = b).
    { destruct (proj1 (H a) (or_introl eq_refl)) as [E | Ha]; [now symmetry |].
      destruct (proj2 (H b) (or_introl eq_refl)) as [E | Hb]; [assumption |].
      pose proof (F2 a Ha) as L1. pose proof (F1 b Hb) as L2.
      unfold flt in L1, L2. rewrite (ltb_asym _ _ L1) in L2. discriminate. }
    subst b. f_equal. apply IH; try assumption.
    intros x. split; intros Hx.
    + destruct (proj1 (H x) (or_intror Hx)) as [E | Hx']; [| assumption].
      subst x. pose proof (F1 a Hx) as L. unfold flt in L.
      rewrite (ltb_asym _ _ L) in L. discriminate.
    + destruct (proj2 (H x) (or_intror Hx)) as [E | Hx']; [| assumption].
      subst x. pose proof (F2 a Hx) as L. unfold flt in L.
      rewrite (ltb_asym _ _ L) in L. discriminate.
Qed.

Lemma distinct_perm (l l' : list float) :
  Permutation l l' -> distinct l = distinct l'.
Proof.
  induction 1 as [| x l l' HP IH | x y l | l l' l'' H1 IH1 H2 IH2].
  - reflexivity.
  - cbn [distinct]. now rewrite IH, (forallb_perm _ _ _ HP).
  - cbn [distinct forallb]. rewrite (eqb_sym y x).
    destruct (x =? y)%float, (forallb (fun k' => negb (y =? k')%float) l),
      (forallb (fun k' => negb (x =? k')%float) l); reflexivity.
  - congruence.
Qed.

Lemma is_dict_perm (t t' : table) :
  Permutation t t' -> is_dict t = is_dict t'.
Proof.
  intros HP. unfold is_dict, keys.
  assert (HK : Permutation (map fst t) (map fst t')) by now apply Permutation_map.
  now rewrite (forallb_perm _ _ _ HK), (distinct_perm _ _ HK).
Qed.

Lemma map_result_ext_in {A B : Type} (f g : A -> result B) (l : list A) :
  (forall a, In a l -> f a = g a) -> map_result f l = map_result g l.
Proof.
  induction l as [|a l IH]; intros H; cbn [map_result]; [reflexivity |].
  rewrite (H a (or_introl eq_refl)), IH; [reflexivity |].
  intros x Hx. apply H. now right.
Qed.

(** X10: the order in which the dict was filled does not matter: two
    tables with the same entries give the same result, or the same error,
    at every argument. *)
Theorem linear_interpolation_order_independent (t t' : table) (argument : num) :
  is_dict t = true -> Permutation t t' ->
  linear_interpolation t' argument = linear_interpolation t argument.
Proof.
  intros Hd HP.
  assert (Hd' : is_dict t' = true) by now rewrite <- (is_dict_perm _ _ HP).
  destruct (sorted_dict_keys t Hd) as (S1 & N1 & I1).
  destruct (sorted_dict_keys t' Hd') as (S2 & N2 & I2).
  assert (HK : Permutation (keys t) (keys t')) by now apply Permutation_map.
  assert (Es : sorted (keys t') = sorted (keys t)).
  { apply ascending_unique; try assumption.
    intros x. rewrite I1, I2. split; intros Hx.
    - eapply Permutation_in; [apply Permutation_sym; exact HK | exact Hx].
    - eapply Permutation_in; [exact HK | exact Hx]. }
  unfold linear_interpolation. cbv zeta. rewrite Es.
  rewrite (map_result_ext_in (getitem t') (getitem t)); [reflexivity |].
  intros k Hk.
  assert (Hn : not_nan k) by (rewrite Forall_forall in N1; now apply N1).
  apply I1 in Hk. unfold keys in Hk. apply in_map_iff in Hk.
  destruct Hk as ([k0 v] & Ek & Hin). cbn in Ek. subst k0.
  unfold is_dict in Hd, Hd'. apply andb_prop in Hd, Hd'.
  rewrite (getitem_In t k v); [| tauto | assumption | assumption].
  apply getitem_In; [tauto | assumption |].
  eapply Permutation_in; [exact HP | exact Hin].
Qed.

Lemma linear_interpolation_order_independent_witness :
  linear_interpolation table_n_shuffled (PyFloat 2.5)
  = linear_interpolation table_n (PyFloat 2.5).
Proof.
  apply (linear_interpolation_order_independent table_n table_n_shuffled
           (PyFloat 2.5)).
  - vm_compute. reflexivity.
  - unfold table_n, table_n_shuffled.
    apply Permutation_sym.
    apply (Permutation_trans
             (l' := [(2.0, 0.222); (4.0, 0.099); (6.0, 0.066); (5.0, 0.077);
                     (3.0, 0.139)]%float)).
    + apply Permutation_sym.
      apply (Permutation_middle [(4.0, 0.099); (6.0, 0.066)]%float).
    + apply perm_skip.
      apply (Permutation_trans
               (l' := [(3.0, 0.139); (4.0, 0.099); (6.0, 0.066); (5.0, 0.077)]%float)).
      * apply Permutation_sym.
        apply (Permutation_middle
                 [(4.0, 0.099); (6.0, 0.066); (5.0, 0.077)]%float [] (3.0, 0.139)%float).
      * apply perm_skip, perm_skip, perm_swap.
Defined.

Lemma ltb_nan_l (x y : float) : (x =? x)%float = false -> (x <? y)%float = false.
Proof. intros H. float_order. Qed.

Lemma ltb_nan_r (x y : float) : (x =? x)%float = false -> (y <? x)%float = false.
Proof. intros H. float_order. Qed.

Lemma linear_interpolation_nan (t : table) (argument : float) :
  is_dict t = true -> (2 <= List.length t)%nat ->
  (argument =? argument)%float = false ->
  linear_interpolation t (PyFloat argument) = Ok argument.
Proof.
  intros Hd Hlen Hnan. unfold linear_interpolation. cbv zeta.
  destruct (map_getitem_dict t (sorted (keys t)) Hd) as (ys & Hys & _).
  { intros x. apply sorted_In. }
  rewrite Hys. cbn [bind to_float].
  pose proof (map_result_length _ _ _ Hys) as Ly.
  pose proof (sorted_length (keys t)) as Lx.
  unfold keys in Lx at 2. rewrite length_map in Lx.
  destruct (sorted (keys t)) as [|x0 [|x1 xs]]; cbn [List.length] in Lx; try lia.
  destruct ys as [|y0 [|y1 ys]]; cbn [List.length] in Ly; try lia.
  unfold interp1d, np_interp.
  rewrite !(ltb_nan_l argument), !(ltb_nan_r argument) by exact Hnan.
  unfold is_nan. rewrite Hnan. reflexivity.
Qed.

(** X12: a NaN argument is outside no range: on a table of two or more
    points [linear_interpolation] raises nothing and returns the NaN;
    [RandomEvent] with float arguments and a NaN exponent then fails in
    [math.ceil] with [ValueError]. *)
Theorem nan_argument_is_returned :
  (forall (t : table) (argument : float),
      is_dict t = true -> (2 <= List.length t)%nat ->
      (argument =? argument)%float = false ->
      linear_interpolation t (PyFloat argument) = Ok argument)
  /\ (forall (stress fn duration n : float) (desc : string),
         (n =? n)%float = false ->
         RandomEvent (PyFloat stress) (PyFloat fn) (PyFloat duration) (PyFloat n) desc
         = Raise ValueError).
Proof.
  split; [exact linear_interpolation_nan |].
  intros stress fn duration n desc Hnan. unfold RandomEvent.
  rewrite (linear_interpolation_nan table_n n); [| reflexivity | cbn; lia | exact Hnan].
  cbn [py_mul arith to_float bind math_ceil].
  rewrite (mul_nan_r _ _ (not_eqb_self_nan _ Hnan)). reflexivity.
Qed.

Lemma nan_argument_is_returned_witness :
  linear_interpolation table_n (PyFloat nan) = Ok nan
  /\ RandomEvent (PyFloat 345.0) (PyFloat 200.0) (PyFloat 120.0) (PyFloat nan) ""
     = Raise ValueError.
Proof.
  split.
  - apply (proj1 nan_argument_is_returned table_n nan).
    + vm_compute. reflexivity.
    + cbn. lia.
    + vm_compute. reflexivity.
  - apply (proj2 nan_argument_is_returned 345.0 200.0 120.0 nan "")%float.
    vm_compute. reflexivity.
Defined.

(** ** The default cycle factor *)

Lemma SFmul_four (s : bool) (m : positive) (e : Z) :
  bounded prec emax m (e + 2) = true ->
  SF64mul (S754_finite false 4503599627370496 (-50)) (S754_finite s m e)
  = S754_finite s m (e + 2).
Proof.
  intros H. unfold SF64mul, SFmul. cbn [xorb].
  change (Pos.mul 4503599627370496 m) with (Pos.iter xO m 52).
  replace (-50 + e) with (e + 2 - 52) by lia.
  now apply binary_round_aux_shifted.
Qed.

(** The float of a non-zero integer below [2^53] in magnitude is that
    integer, held in a full 53-bit mantissa. *)
Lemma binary_round_normal (s : bool) (mz : positive) :
  Z.pos mz < 2 ^ 53 ->
  exists (m' : positive) (e' : Z),
    binary_round prec emax s mz 0 = S754_finite s m' e'
    /\ bounded prec emax m' e' = true
    /\ bounded prec emax m' (e' + 2) = true
    /\ e' <= 0 /\ Z.pos m' = Z.pos mz * 2 ^ (- e').
Proof.
  intros Hmz.
  destruct (binary_round_small s mz (digits2_small mz Hmz))
    as (m' & e' & Hr & Hb & He' & Hv).
  exists m', e'. repeat split; try assumption.
  pose proof Hb as Hb'. apply bounded_spec in Hb'. destruct Hb' as [Hmax _].
  apply bounded_spec. split; [| lia].
  destruct (Z_le_gt_dec (-1074) (Z.pos (digits2_pos m') + e' - 53)) as [Hc | Hc].
  - rewrite Z.max_l in Hmax by lia. rewrite Z.max_l by lia. lia.
  - exfalso. rewrite Z.max_r in Hmax by lia. subst e'.
    pose proof (digits2_upper m') as Hu. rewrite Hv in Hu.
    change (- -1074) with 1074 in Hu.
    assert (2 ^ Z.pos (digits2_pos m') <= 2 ^ 52) by (apply Z.pow_le_mono_r; lia).
    assert (2 ^ 52 < 2 ^ 1074) by (apply Z.pow_lt_mono_r; lia).
    assert (0 < 2 ^ 1074) by lia. nia.
Qed.

Lemma ceil_finite_four (s : bool) (mz m' : positive) (e' : Z) :
  e' <= 0 -> Z.pos m' = Z.pos mz * 2 ^ (- e') ->
  ceil_finite s m' (e' + 2) = 4 * signed s mz.
Proof.
  intros He Hv.
  assert (Hs : signed s m' = signed s mz * 2 ^ (- e')).
  { destruct s; unfold signed; rewrite <- ?Pos2Z.opp_pos, Hv; lia. }
  unfold ceil_finite. rewrite Hs. destruct (0 <=? e' + 2) eqn:E.
  - apply Z.leb_le in E. rewrite <- Z.mul_assoc, <- Z.pow_add_r by lia.
    replace (- e' + (e' + 2)) with 2 by lia. change (2 ^ 2) with 4. lia.
  - apply Z.leb_gt in E.
    replace (- e') with (2 + - (e' + 2)) by lia.
    rewrite Z.pow_add_r by lia. change (2 ^ 2) with 4.
    replace (- (signed s mz * (4 * 2 ^ (- (e' + 2)))))
      with ((- (4 * signed s mz)) * 2 ^ (- (e' + 2))) by lia.
    rewrite Z.div_mul; [lia |]. apply Z.pow_nonzero; lia.
Qed.

Lemma mul_four_int (z : Z) :
  Z.abs z < 2 ^ 53 ->
  (c <- py_mul (PyFloat 4.0) (PyInt z) ;; math_ceil c) = Ok (4 * z).
Proof.
  intros Hz. cbn [py_mul arith to_float bind]. unfold float_of_int.
  assert (G : forall (s : bool) (mz : positive),
             Z.pos mz < 2 ^ 53 ->
             (c <- (y <- match binary_round prec emax s mz 0 with
                         | S754_infinity _ => Raise OverflowError
                         | sf => Ok (SF2Prim sf)
                         end ;; Ok (PyFloat (4.0 * y)%float)) ;; math_ceil c)
             = Ok (4 * signed s mz)).
  { intros s mz Hmz.
    destruct (binary_round_normal s mz Hmz) as (m' & e' & Hr & Hb & Hb2 & He & Hv).
    rewrite Hr. cbn [bind math_ceil]. rewrite mul_spec.
    rewrite Prim2SF_SF2Prim by exact Hb.
    change (Prim2SF 4.0) with (S754_finite false 4503599627370496 (-50)).
    rewrite (SFmul_four s m' e' Hb2).
    now rewrite (ceil_finite_four s mz m' e' He Hv). }
  destruct z as [|mz|mz].
  - vm_compute. reflexivity.
  - exact (G false mz Hz).
  - exact (G true mz Hz).
Qed.

(** X6: the default [sf_cycles=4.0] scales integer cycle counts without
    rounding: a count below [2^53] in magnitude is written as four times
    itself, and [stats] reports four times the sum of integer counts when
    that sum is below [2^53]; beyond that bound the conversion to float
    rounds ([2^53 + 1] is scaled to [4 * 2^53]). *)
Theorem default_cycle_factor_is_exact :
  (forall (sp : StressSpectrum) (z : Z),
      sf_cycles sp = default_sf_cycles -> Z.abs z < 2 ^ 53 ->
      scaled_cycles sp (PyInt z) = Ok (4 * z))
  /\ (forall sp : StressSpectrum,
         sf_cycles sp = default_sf_cycles ->
         forallb int_neq (events sp) = true ->
         Z.abs (sum_int_neq (events sp)) < 2 ^ 53 ->
         total_cycles sp = Ok (4 * sum_int_neq (events sp)))
  /\ scaled_cycles spectrum_empty (PyInt (2 ^ 53 + 1)) = Ok (4 * 2 ^ 53).
Proof.
  split; [| split].
  - intros sp z Hsf Hz. unfold scaled_cycles. rewrite Hsf. now apply mul_four_int.
  - intros sp Hsf Hint Hz. rewrite (total_cycles_ints sp Hint), Hsf.
    now apply mul_four_int.
  - vm_compute. reflexivity.
Qed.

Lemma default_cycle_factor_is_exact_witness :
  scaled_cycles spectrum_example (PyInt 5328) = Ok (4 * 5328)
  /\ total_cycles spectrum_example = Ok (4 * sum_int_neq (events spectrum_example)).
Proof.
  split.
  - apply (proj1 default_cycle_factor_is_exact spectrum_example 5328).
    + reflexivity.
    + vm_compute. reflexivity.
  - apply (proj1 (proj2 default_cycle_factor_is_exact) spectrum_example).
    + reflexivity.
    + reflexivity.
    + vm_compute. reflexivity.
Defined.

(** ** The sign of the sweep cycles *)

Lemma binary_round_aux_sign (s : bool) (m e : Z) (l : location) :
  has_sign s (binary_round_aux prec emax s m e l) = true.
Proof.
  unfold binary_round_aux.
  destruct (shr_fexp prec emax m e l) as [mrs' e'].
  destruct (shr_fexp prec emax _ e' loc_Exact) as [mrs'' e''].
  destruct (shr_m mrs''); [| destruct (e'' <=? emax - prec) |];
    cbn [has_sign]; try reflexivity; apply Bool.eqb_reflx.
Qed.

Lemma SFmul_sign (sx sy : bool) (x y : spec_float) :
  has_sign sx x = true -> has_sign sy y = true ->
  has_sign (xorb sx sy) (SF64mul x y) = true.
Proof.
  intros Hx Hy.
  destruct x as [a|a| |a m e], y as [b|b| |b m' e']; cbn [has_sign] in Hx, Hy;
    try reflexivity; apply Bool.eqb_prop in Hx, Hy; subst a b;
    unfold SF64mul, SFmul; cbn [has_sign];
    try apply Bool.eqb_reflx; try reflexivity.
  apply binary_round_aux_sign.
Qed.

Lemma SFdiv_sign (sx sy : bool) (x y : spec_float) :
  has_sign sx x = true -> has_sign sy y = true ->
  has_sign (xorb sx sy) (SF64div x y) = true.
Proof.
  intros Hx Hy.
  destruct x as [a|a| |a m e], y as [b|b| |b m' e']; cbn [has_sign] in Hx, Hy;
    try reflexivity; apply Bool.eqb_prop in Hx, Hy; subst a b;
    unfold SF64div, SFdiv; cbn [has_sign];
    try apply Bool.eqb_reflx; try reflexivity.
  destruct (SFdiv_core_binary prec emax (Z.pos m) e (Z.pos m') e') as [[mz ez] lz].
  apply binary_round_aux_sign.
Qed.

Lemma sweep_cycles_sign (s : bool) (r : float) :
  has_sign s (Prim2SF r) = true -> has_sign s (Prim2SF (sweep_cycles r)) = true.
Proof.
  intros H. unfold sweep_cycles. rewrite mul_spec, div_spec, mul_spec.
  replace s with (xorb (xorb false (xorb s false)) false) at 1
    by (now destruct s).
  apply SFmul_sign; [| reflexivity].
  apply SFdiv_sign; [reflexivity |].
  apply SFmul_sign; [exact H | reflexivity].
Qed.

Lemma positive_sign (r : float) :
  (0 <? r)%float = true -> has_sign false (Prim2SF r) = true.
Proof.
  rewrite FloatAxioms.ltb_spec. change (Prim2SF 0) with (S754_zero false).
  unfold SFltb. destruct (Prim2SF r) as [s|s| |s m e]; cbn; try discriminate;
    try reflexivity; now destruct s.
Qed.

Lemma negative_sign (r : float) :
  (r <? 0)%float = true -> has_sign true (Prim2SF r) = true.
Proof.
  rewrite FloatAxioms.ltb_spec. change (Prim2SF 0) with (S754_zero false).
  unfold SFltb. destruct (Prim2SF r) as [s|s| |s m e]; cbn; try discriminate;
    try reflexivity; now destruct s.
Qed.

Lemma ceil_finite_sign (s : bool) (m : positive) (e : Z) :
  if s then ceil_finite s m e <= 0 else 0 <= ceil_finite s m e.
Proof.
  unfold ceil_finite. destruct (0 <=? e) eqn:E.
  - apply Z.leb_le in E. assert (0 < 2 ^ e) by (apply Z.pow_pos_nonneg; lia).
    destruct s; unfold signed; nia.
  - apply Z.leb_gt in E.
    assert (Hd : 0 < 2 ^ (- e)) by (apply Z.pow_pos_nonneg; lia).
    destruct s; unfold signed.
    + assert (0 <= - Z.neg m / 2 ^ (- e)) by (apply Z.div_pos; lia). lia.
    + assert (- Z.pos m / 2 ^ (- e) < 0); [| lia].
      apply Z.div_lt_upper_bound; lia.
Qed.

Lemma math_ceil_sign (s : bool) (p : float) (z : Z) :
  has_sign s (Prim2SF p) = true -> math_ceil (PyFloat p) = Ok z ->
  if s then z <= 0 else 0 <= z.
Proof.
  intros Hs Hc. cbn [math_ceil] in Hc.
  destruct (Prim2SF p) as [s'|s'| |s' m e]; try discriminate.
  - inversion Hc; subst. destruct s; lia.
  - inversion Hc; subst. cbn [has_sign] in Hs. apply Bool.eqb_prop in Hs. subst s'.
    apply ceil_finite_sign.
Qed.

Lemma SineEvent_sign (s : bool) (stress_1g load : num) (r : float)
    (desc : string) (ev : Event) :
  has_sign s (Prim2SF r) = true ->
  SineEvent stress_1g load (PyFloat r) desc = Ok ev ->
  exists z : Z, neq ev = PyInt z /\ if s then z <= 0 else 0 <= z.
Proof.
  intros Hs. rewrite SineEvent_float.
  destruct (r * math_log_2 =? 0)%float; [discriminate |].
  destruct (math_ceil (PyFloat (sweep_cycles r))) as [z|] eqn:Ez; [| discriminate].
  cbn [bind]. destruct (py_mul load stress_1g) as [stress|]; [| discriminate].
  cbn [bind]. intros H; inversion H; subst; clear H. exists z. cbn [neq].
  split; [reflexivity |].
  exact (math_ceil_sign s _ _ (sweep_cycles_sign _ _ Hs) Ez).
Qed.

Lemma SineEvent_int (stress_1g load : num) (k : Z) (f : float) (desc : string) :
  float_of_int k = Ok f ->
  SineEvent stress_1g load (PyInt k) desc = SineEvent stress_1g load (PyFloat f) desc.
Proof.
  intros H. unfold SineEvent. cbn [py_mul arith to_float]. rewrite H. reflexivity.
Qed.

Lemma float_of_int_sign (k : Z) :
  k <> 0 -> Z.abs k < 2 ^ 53 ->
  exists f : float,
    float_of_int k = Ok f /\ has_sign (k <? 0) (Prim2SF f) = true.
Proof.
  intros Hk Hs.
  destruct (binary_normalize_small k Hk Hs) as (s & m' & e' & Hn & Hb & Hc).
  exists (SF2Prim (S754_finite s m' e')). unfold float_of_int. rewrite Hn.
  split; [reflexivity |]. rewrite Prim2SF_SF2Prim by exact Hb. cbn [has_sign].
  pose proof (ceil_finite_sign s m' e') as Hsg. rewrite Hc in Hsg.
  destruct s, (Z.ltb_spec k 0); try reflexivity; lia.
Qed.

(** X14: the sweep rate is not validated, and the sign of the cycle count
    follows it: an event built from a positive rate has a count that is
    not negative, one built from a negative rate a count that is not
    positive (for a float rate, and for a non-zero integer rate below
    [2^53] in magnitude); the integer rate 0 raises
    [ZeroDivisionError]. *)
Theorem SineEvent_cycles_sign :
  (forall (stress_1g load : num) (r : float) (desc : string) (ev : Event),
      SineEvent stress_1g load (PyFloat r) desc = Ok ev ->
      exists z : Z,
        neq ev = PyInt z
        /\ ((0 <? r)%float = true -> 0 <= z)
        /\ ((r <? 0)%float = true -> z <= 0))
  /\ (forall (stress_1g load : num) (k : Z) (desc : string) (ev : Event),
         k <> 0 -> Z.abs k < 2 ^ 53 ->
         SineEvent stress_1g load (PyInt k) desc = Ok ev ->
         exists z : Z,
           neq ev = PyInt z /\ (0 < k -> 0 <= z) /\ (k < 0 -> z <= 0))
  /\ (forall (stress_1g load : num) (desc : string),
         SineEvent stress_1g load (PyInt 0) desc = Raise ZeroDivisionError).
Proof.
  split; [| split].
  - intros stress_1g load r desc ev H.
    destruct (float_total 0 r) as [Hr | [Hr | Hr]].
    + reflexivity.
    + destruct (r =? r)%float eqn:E; [reflexivity |]. exfalso.
      rewrite SineEvent_float in H.
      destruct (r * math_log_2 =? 0)%float; [discriminate |].
      assert (Hn : Prim2SF (sweep_cycles r) = S754_nan).
      { unfold sweep_cycles. rewrite mul_spec, div_spec, mul_spec.
        rewrite (not_eqb_self_nan r E). reflexivity. }
      cbn [math_ceil] in H. rewrite Hn in H. discriminate.
    + destruct (SineEvent_sign false _ _ _ _ _ (positive_sign r Hr) H) as (z & Hz & Hs).
      exists z. split; [exact Hz | split; [intros _; exact Hs |]].
      intros C. rewrite (ltb_asym _ _ Hr) in C. discriminate.
    + rewrite SineEvent_float in H. rewrite (mul_log_2_zero r) in H; [discriminate |].
      now rewrite eqb_sym.
    + destruct (SineEvent_sign true _ _ _ _ _ (negative_sign r Hr) H) as (z & Hz & Hs).
      exists z. split; [exact Hz | split; [| intros _; exact Hs]].
      intros C. rewrite (ltb_asym _ _ Hr) in C. discriminate.
  - intros stress_1g load k desc ev Hk Hs H.
    destruct (float_of_int_sign k Hk Hs) as (f & Hf & Hsg).
    rewrite (SineEvent_int _ _ _ _ _ Hf) in H.
    destruct (SineEvent_sign _ _ _ _ _ _ Hsg H) as (z & Hz & Hz').
    exists z. split; [exact Hz |].
    destruct (Z.ltb_spec k 0); split; intros; lia.
  - intros stress_1g load desc. reflexivity.
Qed.

Lemma SineEvent_cycles_sign_witness :
  (exists z : Z,
      neq (mkEvent (PyInt (-6924)) (PyInt (-20)) (PyInt 20) "") = PyInt z
      /\ ((0 <? -1.0)%float = true -> 0 <= z)
      /\ ((-1.0 <? 0)%float = true -> z <= 0))
  /\ (exists z : Z,
         neq (mkEvent (PyInt 3463) (PyInt (-20)) (PyInt 20) "") = PyInt z
         /\ (0 < 2 -> 0 <= z) /\ (2 < 0 -> z <= 0)).
Proof.
  split.
  - apply (proj1 SineEvent_cycles_sign (PyInt 10) (PyInt 2) (-1.0)%float "").
    vm_compute. reflexivity.
  - apply (proj1 (proj2 SineEvent_cycles_sign) (PyInt 10) (PyInt 2) 2 "").
    + discriminate.
    + vm_compute. reflexivity.
    + vm_compute. reflexivity.
Defined.

(** ** The stress range of a thermal cycle *)

(** X15: with integer arguments [ThermalEvent] always returns; the
    stress range [s_max - s_min] is [stress_1K * (T_max - T_min)] whatever
    the reference temperature; for [T_min <= T_max] the two stresses are
    in the order their names say when [stress_1K >= 0] and in the opposite
    order when [stress_1K <= 0] (nothing is swapped); a reference
    temperature inside the cycle gives [s_min <= 0 <= s_max]. *)
Theorem ThermalEvent_int_range (k tmax tmin tref : Z) (n : num) (desc : string) :
  exists lo hi : Z,
    ThermalEvent (PyInt k) (PyInt tmax) (PyInt tmin) n (PyInt tref) desc
    = Ok (mkEvent n (PyInt lo) (PyInt hi) desc)
    /\ hi - lo = k * (tmax - tmin)
    /\ (tmin <= tmax -> 0 <= k -> lo <= hi)
    /\ (tmin <= tmax -> k <= 0 -> hi <= lo)
    /\ (tmin <= tref <= tmax -> 0 <= k -> lo <= 0 <= hi).
Proof.
  exists (k * (tmin - tref)), (k * (tmax - tref)).
  split; [reflexivity |]. repeat split; intros; nia.
Qed.

Lemma ThermalEvent_int_range_witness :
  exists lo hi : Z,
    ThermalEvent (PyInt 10) (PyInt 50) (PyInt 0) (PyInt 365) (PyInt 20) "Thermoelastic"
    = Ok (mkEvent (PyInt 365) (PyInt lo) (PyInt hi) "Thermoelastic")
    /\ hi - lo = 10 * (50 - 0)
    /\ (0 <= 50 -> 0 <= 10 -> lo <= hi)
    /\ (0 <= 50 -> 10 <= 0 -> hi <= lo)
    /\ (0 <= 20 <= 50 -> 0 <= 10 -> lo <= 0 <= hi).
Proof.
  apply (ThermalEvent_int_range 10 50 0 20 (PyInt 365) "Thermoelastic").
Defined.

(** ** The peaks [stats] reports *)

Lemma py_gt_float (x b : float) : py_gt (PyFloat x) (PyFloat b) = (b <? x)%float.
Proof.
  unfold py_gt, py_compare. rewrite FloatAxioms.compare_spec, SFcompare_rank.
  rewrite ltb_rank. unfold frank.
  destruct (rank (Prim2SF x)) as [a|], (rank (Prim2SF b)) as [c|];
    cbn [flatten_cmp_opt]; try reflexivity.
  pose proof (cmp3_spec a c) as H1. pose proof (cmp3_spec c a) as H2.
  destruct a as [[a1 a2] a3], c as [[c1 c2] c3]. cbv beta iota in H1, H2.
  destruct (cmp3 (a1, a2, a3) (c1, c2, c3)), (cmp3 (c1, c2, c3) (a1, a2, a3));
    try reflexivity; exfalso; lia.
Qed.

Lemma py_lt_float (x b : float) : py_lt (PyFloat x) (PyFloat b) = (x <? b)%float.
Proof.
  unfold py_lt, py_compare. rewrite FloatAxioms.compare_spec, SFcompare_rank.
  rewrite ltb_rank. unfold frank.
  destruct (rank (Prim2SF x)) as [a|], (rank (Prim2SF b)) as [c|];
    cbn [flatten_cmp_opt]; try reflexivity.
  now destruct (cmp3 a c).
Qed.

Lemma leb_refl (x : float) : not_nan x -> (x <=? x)%float = true.
Proof. unfold not_nan. intros H. float_order. Qed.

Lemma leb_trans (x y z : float) :
  (x <=? y)%float = true -> (y <=? z)%float = true -> (x <=? z)%float = true.
Proof. intros H1 H2. float_order. Qed.

Lemma ltb_leb (x y : float) : (x <? y)%float = true -> (x <=? y)%float = true.
Proof. intros H. float_order. Qed.

Lemma not_ltb_leb (x y : float) :
  not_nan x -> not_nan y -> (x <? y)%float = false -> (y <=? x)%float = true.
Proof. unfold not_nan. intros Hx Hy H. float_order. Qed.

Lemma fold_max_floats (l : list float) :
  forall a : float,
    not_nan a -> Forall not_nan l ->
    exists hi : float,
      fold_left (fun best x => if py_gt x best then x else best)
        (map PyFloat l) (PyFloat a) = PyFloat hi
      /\ In hi (a :: l) /\ (a <=? hi)%float = true
      /\ (forall x, In x l -> (x <=? hi)%float = true).
Proof.
  induction l as [|x l IH]; intros a Ha Hl.
  - exists a. cbn. repeat split; [now left | now apply leb_refl | intros ? []].
  - inversion Hl as [|? ? Hx Hl']; subst. cbn [map fold_left].
    rewrite py_gt_float. destruct (a <? x)%float eqn:E.
    + destruct (IH x Hx Hl') as (hi & Hf & Hin & Hle & Hall).
      exists hi. split; [exact Hf | split; [| split]].
      * right. exact Hin.
      * eapply leb_trans; [apply ltb_leb; exact E | exact Hle].
      * intros y [<- | Hy]; [exact Hle | now apply Hall].
    + destruct (IH a Ha Hl') as (hi & Hf & Hin & Hle & Hall).
      exists hi. split; [exact Hf | split; [| split]].
      * destruct Hin as [<- | Hin]; [now left | now right; right].
      * exact Hle.
      * intros y [<- | Hy]; [| now apply Hall].
        eapply leb_trans; [apply not_ltb_leb; [exact Ha | exact Hx | exact E] | exact Hle].
Qed.

Lemma fold_min_floats (l : list float) :
  forall a : float,
    not_nan a -> Forall not_nan l ->
    exists lo : float,
      fold_left (fun best x => if py_lt x best then x else best)
        (map PyFloat l) (PyFloat a) = PyFloat lo
      /\ In lo (a :: l) /\ (lo <=? a)%float = true
      /\ (forall x, In x l -> (lo <=? x)%float = true).
Proof.
  induction l as [|x l IH]; intros a Ha Hl.
  - exists a. cbn. repeat split; [now left | now apply leb_refl | intros ? []].
  - inversion Hl as [|? ? Hx Hl']; subst. cbn [map fold_left].
    rewrite py_lt_float. destruct (x <? a)%float eqn:E.
    + destruct (IH x Hx Hl') as (lo & Hf & Hin & Hle & Hall).
      exists lo. split; [exact Hf | split; [| split]].
      * right. exact Hin.
      * eapply leb_trans; [exact Hle | apply ltb_leb; exact E].
      * intros y [<- | Hy]; [exact Hle | now apply Hall].
    + destruct (IH a Ha Hl') as (lo & Hf & Hin & Hle & Hall).
      exists lo. split; [exact Hf | split; [| split]].
      * destruct Hin as [<- | Hin]; [now left | now right; right].
      * exact Hle.
      * intros y [<- | Hy]; [| now apply Hall].
        eapply leb_trans; [exact Hle | apply not_ltb_leb; [exact Hx | exact Ha | exact E]].
Qed.

Lemma stress_text_steps (sp : StressSpectrum) (m : num) :
  (a <- py_mul (sf_stress sp) m ;;
   v <- py_add a (prestres sp) ;;
   format_4_2f v)
  = stress_text sp m.
Proof.
  unfold stress_text, scaled_stress.
  now destruct (py_mul (sf_stress sp) m).
Qed.

(** The first two lines [stats] prints, read off the two computations. *)
Lemma stats_peak_lines (str_float : float -> string) (st : state) :
  let sp := self st in
  let out := stdout (snd (stats str_float st)) in
  let n := List.length (stdout st) in
  let top := m <- py_max (map s_max (events sp)) ;; stress_text sp m in
  let bottom := m <- py_min (map s_min (events sp)) ;; stress_text sp m in
  nth_error out n
  = match top with
    | Ok fmax => Some ("> Peak max stress: " ++ fmax ++ " MPa")
    | Raise _ => None
    end
  /\ nth_error out (n + 1)
     = match top, bottom with
       | Ok _, Ok fmin => Some ("> Peak min stress: " ++ fmin ++ " MPa")
       | _, _ => None
       end
  /\ (fst (stats str_float st) = Ok tt ->
      exists fmax fmin : string, top = Ok fmax /\ bottom = Ok fmin).
Proof.
  cbv zeta. unfold stats. cbv zeta.
  assert (N0 : nth_error (stdout st) (List.length (stdout st)) = None)
    by (apply nth_error_None; lia).
  assert (N1 : forall l : string,
             nth_error (stdout st ++ [l])%list (List.length (stdout st) + 1) = None).
  { intros l. apply nth_error_None. rewrite length_app. cbn. lia. }
  assert (A0 : forall (l : string) (tl : list string),
             nth_error (stdout st ++ l :: tl)%list (List.length (stdout st)) = Some l).
  { intros l tl. rewrite nth_error_app2 by lia. now rewrite Nat.sub_diag. }
  assert (A1 : forall (l l' : string) (tl : list string),
             nth_error (stdout st ++ l :: l' :: tl)%list (List.length (stdout st) + 1)
             = Some l').
  { intros l l' tl. rewrite nth_error_app2 by lia.
    replace (List.length (stdout st) + 1 - List.length (stdout st))%nat
      with 1%nat by lia.
    reflexivity. }
  assert (N0' : nth_error (stdout st) (List.length (stdout st) + 1) = None)
    by (apply nth_error_None; lia).
  destruct (py_max (map s_max (events (self st)))) as [hi|]; cbn [bind].
  2:{ cbn [snd fst].
      split; [exact N0 | split; [exact N0' | intros C; discriminate C]]. }
  rewrite stress_text_steps.
  destruct (stress_text (self st) hi) as [fmax|].
  2:{ cbn [snd fst].
      split; [exact N0 | split; [exact N0' | intros C; discriminate C]]. }
  destruct (py_min (map s_min (events (self st)))) as [lo|]; cbn [bind].
  2:{ cbn [snd fst stdout print].
      split; [apply (A0 _ []) | split; [apply N1 | intros C; discriminate C]]. }
  rewrite stress_text_steps.
  destruct (stress_text (self st) lo) as [fmin|].
  2:{ cbn [snd fst stdout print].
      split; [apply (A0 _ []) | split; [apply N1 | intros C; discriminate C]]. }
  destruct (total_cycles (self st)) as [k|]; cbn [snd fst stdout print];
    rewrite <- ?app_assoc; cbn [app].
  - split; [apply A0 | split; [apply A1 | intros _; eauto]].
  - split; [apply A0 | split; [apply A1 | intros C; discriminate C]].
Qed.

(** X8: the peaks [stats] prints bound the events: when the stresses are
    floats, none of them a NaN, and [stats] succeeds, the "Peak max
    stress" line shows the scaled [s_max] of an event that no event's
    [s_max] exceeds, and the "Peak min stress" line the scaled [s_min] of
    an event that no event's [s_min] is below. *)
Theorem stats_peaks_bound_events
    (str_float : float -> string) (st : state) (his los : list float) :
  let sp := self st in
  let out := stdout (snd (stats str_float st)) in
  map s_max (events sp) = map PyFloat his -> Forall not_nan his ->
  map s_min (events sp) = map PyFloat los -> Forall not_nan los ->
  fst (stats str_float st) = Ok tt ->
  exists (hi lo : float) (fmax fmin : string),
    In hi his /\ (forall x, In x his -> (x <=? hi)%float = true)
    /\ In lo los /\ (forall x, In x los -> (lo <=? x)%float = true)
    /\ stress_text sp (PyFloat hi) = Ok fmax
    /\ stress_text sp (PyFloat lo) = Ok fmin
    /\ nth_error out (List.length (stdout st))
       = Some ("> Peak max stress: " ++ fmax ++ " MPa")
    /\ nth_error out (List.length (stdout st) + 1)
       = Some ("> Peak min stress: " ++ fmin ++ " MPa").
Proof.
  cbv zeta. intros Hhi Nhi Hlo Nlo Hok.
  destruct (stats_peak_lines str_float st) as (L0 & L1 & L2). cbv zeta in L0, L1, L2.
  destruct (L2 Hok) as (fmax & fmin & Tmax & Tmin).
  rewrite Tmax in L0, L1. rewrite Tmin in L1.
  rewrite Hhi in Tmax. rewrite Hlo in Tmin.
  destruct his as [|a his]; [discriminate Tmax |].
  destruct los as [|b los]; [discriminate Tmin |].
  inversion Nhi as [|? ? Ha Nhi']; subst. inversion Nlo as [|? ? Hb Nlo']; subst.
  destruct (fold_max_floats his a Ha Nhi') as (hi & F1 & I1 & M1 & A1).
  destruct (fold_min_floats los b Hb Nlo') as (lo & F2 & I2 & M2 & A2).
  cbn [map py_max py_min bind] in Tmax, Tmin. rewrite F1 in Tmax. rewrite F2 in Tmin.
  exists hi, lo, fmax, fmin.
  split; [exact I1 | split; [| split; [exact I2 | split]]].
  - intros x [<- | Hx]; [exact M1 | now apply A1].
  - intros x [<- | Hx]; [exact M2 | now apply A2].
  - auto.
Qed.

Lemma stats_peaks_bound_events_witness :
  exists (hi lo : float) (fmax fmin : string),
    In hi [1.0; 3.0; 2.0]%float
    /\ (forall x, In x [1.0; 3.0; 2.0]%float -> (x <=? hi)%float = true)
    /\ In lo [-1.0; -3.0; -2.0]%float
    /\ (forall x, In x [-1.0; -3.0; -2.0]%float -> (lo <=? x)%float = true)
    /\ stress_text spectrum_floats (PyFloat hi) = Ok fmax
    /\ stress_text spectrum_floats (PyFloat lo) = Ok fmin
    /\ nth_error (stdout (snd (stats (fun _ => "") (fresh spectrum_floats)))) 0
       = Some ("> Peak max stress: " ++ fmax ++ " MPa")
    /\ nth_error (stdout (snd (stats (fun _ => "") (fresh spectrum_floats)))) 1
       = Some ("> Peak min stress: " ++ fmin ++ " MPa").
Proof.
  apply (stats_peaks_bound_events (fun _ => "") (fresh spectrum_floats)
           [1.0; 3.0; 2.0]%float [-1.0; -3.0; -2.0]%float).
  - reflexivity.
  - repeat constructor.
  - reflexivity.
  - repeat constructor.
  - vm_compute. reflexivity.
Defined.

Lemma py_gt_nan (x : num) (f : float) :
  (f =? f)%float = false -> py_gt x (PyFloat f) = false /\ py_gt (PyFloat f) x = false
  /\ py_lt x (PyFloat f) = false /\ py_lt (PyFloat f) x = false.
Proof.
  intros Hf. apply not_eqb_self_nan in Hf.
  unfold py_gt, py_lt, py_compare, compare_int_float.
  destruct x as [z|g]; rewrite ?FloatAxioms.compare_spec, ?Hf; cbn.
  - repeat split; reflexivity.
  - destruct (Prim2SF g); repeat split; reflexivity.
Qed.

Lemma fold_nan_first (lt : num -> num -> bool) (f : float) (l : list num) :
  (forall x, lt x (PyFloat f) = false) ->
  fold_left (fun best x => if lt x best then x else best) l (PyFloat f) = PyFloat f.
Proof.
  intros H. induction l as [|x l IH]; cbn [fold_left]; [reflexivity |].
  now rewrite H.
Qed.

Lemma fold_nan_later (lt : num -> num -> bool) (f : float) (l1 l2 : list num) :
  (forall x, lt (PyFloat f) x = false) ->
  forall a,
    fold_left (fun best x => if lt x best then x else best) (l1 ++ PyFloat f :: l2)%list a
    = fold_left (fun best x => if lt x best then x else best) (l1 ++ l2)%list a.
Proof.
  intros H a. rewrite !fold_left_app. cbn [fold_left]. now rewrite H.
Qed.

Lemma add_nan_l (x y : float) :
  Prim2SF x = S754_nan -> Prim2SF (x + y)%float = S754_nan.
Proof. intros H. rewrite add_spec, H. reflexivity. Qed.

(** A NaN stress is printed as [" nan"], whatever the factor and the
    prestress, when it can be scaled at all. *)
Lemma stress_text_nan (sp : StressSpectrum) (f : float) (text : string) :
  (f =? f)%float = false -> stress_text sp (PyFloat f) = Ok text -> text = " nan".
Proof.
  intros Hf. apply not_eqb_self_nan in Hf.
  unfold stress_text, scaled_stress.
  assert (G : forall x : float,
             (v <- py_add (PyFloat (x * f)%float) (prestres sp) ;; format_4_2f v)
             = Ok text -> text = " nan").
  { intros x. pose proof (mul_nan_r x f Hf) as Hm.
    destruct (prestres sp) as [z|p]; cbn [py_add arith to_float bind].
    - destruct (float_of_int z) as [y|]; cbn [bind]; [| discriminate].
      unfold format_4_2f. cbn [to_float bind]. unfold format_2f.
      rewrite (add_nan_l _ y Hm). intros H; inversion H. reflexivity.
    - unfold format_4_2f. cbn [to_float bind]. unfold format_2f.
      rewrite (add_nan_l _ p Hm). intros H; inversion H. reflexivity. }
  destruct (sf_stress sp) as [z|b]; cbn [py_mul arith to_float bind].
  - destruct (float_of_int z) as [x|]; cbn [bind]; [apply G | discriminate].
  - apply G.
Qed.

Lemma py_max_nan_first (f : float) (l : list num) :
  (f =? f)%float = false ->
  py_max (PyFloat f :: l) = Ok (PyFloat f) /\ py_min (PyFloat f :: l) = Ok (PyFloat f).
Proof.
  intros Hf. cbn [py_max py_min]. split; f_equal; apply fold_nan_first;
    intros x; now destruct (py_gt_nan x f Hf) as (? & ? & ? & ?).
Qed.

Lemma py_max_nan_later (f : float) (a : num) (l1 l2 : list num) :
  (f =? f)%float = false ->
  py_max (a :: l1 ++ PyFloat f :: l2) = py_max (a :: l1 ++ l2)
  /\ py_min (a :: l1 ++ PyFloat f :: l2) = py_min (a :: l1 ++ l2).
Proof.
  intros Hf. cbn [py_max py_min]. split; f_equal; apply fold_nan_later;
    intros x; now destruct (py_gt_nan x f Hf) as (? & ? & ? & ?).
Qed.

(** X9: a NaN stress is treated by position in the peaks [stats] prints:
    when the first event's [s_max] ([s_min]) is a NaN the "Peak max
    stress" ("Peak min stress") line, if it is printed, reads [" nan"];
    an event after the first whose stresses are NaN is skipped: the two
    peak lines are those [stats] prints for the collector without that
    event. *)
Theorem peaks_with_nan_depend_on_position
    (str_float : float -> string) (st : state) :
  let sp := self st in
  let out := stdout (snd (stats str_float st)) in
  let n := List.length (stdout st) in
  (forall (e : Event) (rest : list Event) (f : float) (line : string),
      events sp = e :: rest -> s_max e = PyFloat f -> (f =? f)%float = false ->
      nth_error out n = Some line -> line = "> Peak max stress:  nan MPa")
  /\ (forall (e : Event) (rest : list Event) (g : float) (line : string),
         events sp = e :: rest -> s_min e = PyFloat g -> (g =? g)%float = false ->
         nth_error out (n + 1) = Some line -> line = "> Peak min stress:  nan MPa")
  /\ (forall (a e : Event) (l1 l2 : list Event) (f : float),
         events sp = (a :: l1 ++ e :: l2)%list ->
         s_max e = PyFloat f -> (f =? f)%float = false ->
         let st' :=
           set_self (mkStressSpectrum (filename sp) (prestres sp) (sf_stress sp)
                       (sf_cycles sp) (a :: l1 ++ l2)%list) st in
         nth_error out n = nth_error (stdout (snd (stats str_float st'))) n
         /\ (forall g : float,
                s_min e = PyFloat g -> (g =? g)%float = false ->
                nth_error out (n + 1)
                = nth_error (stdout (snd (stats str_float st'))) (n + 1))).
Proof.
  cbv zeta. destruct (stats_peak_lines str_float st) as (L0 & L1 & _).
  cbv zeta in L0, L1. split; [| split].
  - intros e rest f line Hev Hs Hf. rewrite L0, Hev. cbn [map]. rewrite Hs.
    rewrite (proj1 (py_max_nan_first f _ Hf)). cbn [bind].
    destruct (stress_text (self st) (PyFloat f)) as [text|] eqn:T; [| discriminate].
    rewrite (stress_text_nan _ _ _ Hf T). intros H; inversion H. reflexivity.
  - intros e rest g line Hev Hs Hg. rewrite L1. clear L0 L1.
    rewrite Hev. cbn [map]. rewrite Hs.
    rewrite (proj2 (py_max_nan_first g _ Hg)). cbn [bind].
    destruct (bind (py_max _) _) as [fmax|]; cbv beta iota; [| discriminate].
    destruct (stress_text (self st) (PyFloat g)) as [text|] eqn:T; [| discriminate].
    rewrite (stress_text_nan _ _ _ Hg T). intros H; inversion H. reflexivity.
  - intros a e l1 l2 f Hev Hs Hf.
    set (st' := set_self _ st).
    destruct (stats_peak_lines str_float st') as (L0' & L1' & _).
    cbv zeta in L0', L1'.
    change (stdout st') with (stdout st) in L0', L1'.
    assert (Ht : forall m, stress_text (self st') m = stress_text (self st) m)
      by reflexivity.
    assert (Hmax : py_max (map s_max (events (self st')))
                   = py_max (map s_max (events (self st)))).
    { rewrite Hev. subst st'. cbn [set_self self events map]. rewrite !map_app.
      cbn [map]. rewrite Hs. symmetry. apply (proj1 (py_max_nan_later f _ _ _ Hf)). }
    split.
    + rewrite L0, L0', Hmax.
      destruct (py_max (map s_max (events (self st)))); cbn [bind]; [| reflexivity].
      now rewrite Ht.
    + intros g Hg Hgn.
      assert (Hmin : py_min (map s_min (events (self st')))
                     = py_min (map s_min (events (self st)))).
      { rewrite Hev. subst st'. cbn [set_self self events map]. rewrite !map_app.
        cbn [map]. rewrite Hg. symmetry. apply (proj2 (py_max_nan_later g _ _ _ Hgn)). }
      rewrite L1, L1', Hmax, Hmin.
      destruct (py_max (map s_max (events (self st)))); cbn [bind];
        [rewrite Ht | reflexivity].
      destruct (py_min (map s_min (events (self st)))); cbn [bind];
        [rewrite Ht | reflexivity].
      reflexivity.
Qed.

Lemma peaks_with_nan_depend_on_position_witness :
  (forall line : string,
      nth_error (stdout (snd (stats (fun _ => "") (fresh spectrum_nan_first)))) 0
      = Some line ->
      line = "> Peak max stress:  nan MPa")
  /\ nth_error (stdout (snd (stats (fun _ => "") (fresh spectrum_nan_later)))) 0
     = nth_error (stdout (snd (stats (fun _ => "") (fresh spectrum_floats_two)))) 0.
Proof.
  split.
  - intros line.
    apply (proj1 (peaks_with_nan_depend_on_position (fun _ => "")
                    (fresh spectrum_nan_first))
             (mkEvent (PyInt 10) (PyFloat nan) (PyFloat nan) "first")
             [mkEvent (PyInt 20) (PyFloat (-3.0)) (PyFloat 3.0) "second"] nan line).
    + reflexivity.
    + reflexivity.
    + vm_compute. reflexivity.
  - apply (proj1 (proj2 (proj2 (peaks_with_nan_depend_on_position (fun _ => "")
                                  (fresh spectrum_nan_later)))
                    (mkEvent (PyInt 10) (PyFloat (-1.0)) (PyFloat 1.0) "first")
                    (mkEvent (PyInt 20) (PyFloat nan) (PyFloat nan) "second")
                    []
                    [mkEvent (PyInt 30) (PyFloat (-2.0)) (PyFloat 2.0) "third"]
                    nan eq_refl eq_refl eq_refl)).
Defined.

(** ** Rounding to two decimals *)

Lemma round_half_even_nearest (n d : Z) :
  0 < d ->
  2 * Z.abs (n - round_half_even n d * d) <= d
  /\ (2 * Z.abs (n - round_half_even n d * d) = d ->
      Z.even (round_half_even n d) = true).
Proof.
  intros Hd. unfold round_half_even.
  pose proof (Z_div_mod_eq_full n d) as Hdm.
  pose proof (Z.mod_pos_bound n d Hd) as Hr.
  destruct (Z.compare_spec (2 * (n mod d)) d) as [E | E | E].
  - destruct (Z.even (n / d)) eqn:Ev.
    + split; [nia | intros _; exact Ev].
    + split; [nia | intros _].
      replace (n / d + 1) with (Z.succ (n / d)) by lia.
      rewrite Z.even_succ, <- Z.negb_even, Ev. reflexivity.
  - split; [nia | intros C; exfalso; nia].
  - split; [nia | intros C; exfalso; nia].
Qed.

(** X5: the two decimals are correctly rounded: a finite float [m * 2^e]
    is printed as the sign and [h] hundredths, where [h] is the exact
    value when [e >= 0] and otherwise the integer nearest to
    [100 * m * 2^e], the even one on a tie. *)
Theorem two_decimals_nearest (f : float) (s : bool) (m : positive) (e : Z) :
  Prim2SF f = S754_finite s m e ->
  exists h : Z,
    format_2f f = fixed2 s h /\ 0 <= h
    /\ (0 <= e -> h = 100 * (Z.pos m * 2 ^ e))
    /\ (e < 0 ->
        2 * Z.abs (100 * Z.pos m - h * 2 ^ (- e)) <= 2 ^ (- e)
        /\ (2 * Z.abs (100 * Z.pos m - h * 2 ^ (- e)) = 2 ^ (- e) ->
            Z.even h = true)).
Proof.
  intros Hf. exists (hundredths m e). unfold format_2f. rewrite Hf.
  split; [reflexivity | split; [apply hundredths_nonneg | split]].
  - intros He. unfold hundredths. apply Z.leb_le in He. rewrite He. lia.
  - intros He. unfold hundredths.
    destruct (0 <=? e) eqn:E; [apply Z.leb_le in E; lia |].
    replace (100 * Z.pos m) with (Z.pos m * 100) by lia.
    apply round_half_even_nearest. apply Z.pow_pos_nonneg; lia.
Qed.

Lemma two_decimals_nearest_witness :
  exists h : Z,
    format_2f 0.125 = fixed2 false h /\ 0 <= h
    /\ (0 <= -55 -> h = 100 * (4503599627370496 * 2 ^ (-55)))
    /\ (-55 < 0 ->
        2 * Z.abs (100 * 4503599627370496 - h * 2 ^ (- (-55))) <= 2 ^ (- (-55))
        /\ (2 * Z.abs (100 * 4503599627370496 - h * 2 ^ (- (-55))) = 2 ^ (- (-55)) ->
            Z.even h = true)).
Proof.
  apply (two_decimals_nearest 0.125 false 4503599627370496 (-55)).
  vm_compute. reflexivity.
Defined.

(** ** Reading the file back *)














(** ** Tabulated exponents *)

Lemma linear_interpolation_int (t : table) (z : Z) (f : float) :
  float_of_int z = Ok f ->
  linear_interpolation t (PyInt z) = linear_interpolation t (PyFloat f).
Proof.
  intros H. unfold linear_interpolation. cbn [to_float]. now rewrite H.
Qed.

Lemma RandomEvent_coefficient
    (stress fn duration n : num) (desc : string) (v : float) :
  linear_interpolation table_n n = Ok v ->
  RandomEvent stress fn duration n desc
  = (p <- cycles_product fn duration v ;;
     z <- math_ceil p ;;
     Ok (mkEvent (PyInt z) (py_neg stress) stress desc)).
Proof.
  intros H. unfold RandomEvent, cycles_product. rewrite H.
  now destruct (py_mul fn duration).
Qed.

(** X13: at a tabulated exponent no interpolation error enters: for [n]
    equal to a key of the table, given as a float or as the integer that
    converts to it, [RandomEvent] computes the cycles from the tabulated
    coefficient itself. *)
Theorem RandomEvent_tabulated_exponent
    (stress fn duration : num) (desc : string) (k v : float) :
  In (k, v) table_n ->
  (forall n : float,
      (k =? n)%float = true ->
      RandomEvent stress fn duration (PyFloat n) desc
      = (p <- cycles_product fn duration v ;;
         z <- math_ceil p ;;
         Ok (mkEvent (PyInt z) (py_neg stress) stress desc)))
  /\ (forall z : Z,
         float_of_int z = Ok k ->
         RandomEvent stress fn duration (PyInt z) desc
         = (p <- cycles_product fn duration v ;;
            z <- math_ceil p ;;
            Ok (mkEvent (PyInt z) (py_neg stress) stress desc))).
Proof.
  intros Hin.
  assert (G : forall n : float,
             (k =? n)%float = true ->
             linear_interpolation table_n (PyFloat n) = Ok v).
  { intros n Hn. apply (linear_interpolation_at_key table_n k v n);
      [reflexivity | cbn; lia | exact Hin | exact Hn]. }
  split.
  - intros n Hn. apply RandomEvent_coefficient. now apply G.
  - intros z Hz. apply RandomEvent_coefficient.
    rewrite (linear_interpolation_int _ _ _ Hz). apply G.
    destruct Hin as [E | [E | [E | [E | [E | []]]]]]; inversion E; subst;
      reflexivity.
Qed.

Lemma RandomEvent_tabulated_exponent_witness :
  (forall n : float,
      (2.0 =? n)%float = true ->
      RandomEvent (PyFloat 345.0) (PyInt 200) (PyInt 120) (PyFloat n) "Random X"
      = (p <- cycles_product (PyInt 200) (PyInt 120) 0.222 ;;
         z <- math_ceil p ;;
         Ok (mkEvent (PyInt z) (py_neg (PyFloat 345.0)) (PyFloat 345.0) "Random X")))
  /\ (forall z : Z,
         float_of_int z = Ok 2.0%float ->
         RandomEvent (PyFloat 345.0) (PyInt 200) (PyInt 120) (PyInt z) "Random X"
         = (p <- cycles_product (PyInt 200) (PyInt 120) 0.222 ;;
            z <- math_ceil p ;;
            Ok (mkEvent (PyInt z) (py_neg (PyFloat 345.0)) (PyFloat 345.0) "Random X"))).
Proof.
  apply (RandomEvent_tabulated_exponent (PyFloat 345.0) (PyInt 200) (PyInt 120)
           "Random X" 2.0 0.222).
  left. reflexivity.
Defined.

(** ** [stats] against [save] *)

Lemma fold_pick_In (pick : num -> num -> bool) (l : list num) :
  forall a : num,
    In (fold_left (fun best x => if pick x best then x else best) l a) (a :: l).
Proof.
  induction l as [|x l IH]; intros a; cbn [fold_left]; [now left |].
  destruct (pick x a).
  - right. apply IH.
  - destruct (IH a) as [E | Hin]; [now left | now right; right].
Qed.

Lemma py_max_In (l : list num) (m : num) : py_max l = Ok m -> In m l.
Proof.
  destruct l as [|a l]; [discriminate |]. cbn [py_max]. intros H.
  inversion H; subst. apply fold_pick_In.
Qed.

Lemma py_min_In (l : list num) (m : num) : py_min l = Ok m -> In m l.
Proof.
  destruct l as [|a l]; [discriminate |]. cbn [py_min]. intros H.
  inversion H; subst. apply fold_pick_In.
Qed.

Lemma data_line_fields (sp : StressSpectrum) (e : Event) (l : string) :
  data_line sp e = Ok l ->
  exists (fmax fmin : string) (n : Z),
    stress_text sp (s_max e) = Ok fmax /\ stress_text sp (s_min e) = Ok fmin
    /\ scaled_cycles sp (neq e) = Ok n
    /\ l = fmax ++ "  " ++ fmin ++ "  " ++ str_int n.
Proof.
  unfold data_line, stress_text, scaled_stress, scaled_cycles.
  destruct (py_mul (sf_stress sp) (s_min e)) as [a|]; [cbn [bind] | discriminate].
  destruct (py_add a (prestres sp)) as [smin|]; [cbn [bind] | discriminate].
  destruct (py_mul (sf_stress sp) (s_max e)) as [b|]; [cbn [bind] | discriminate].
  destruct (py_add b (prestres sp)) as [smax|]; [cbn [bind] | discriminate].
  destruct (py_mul (sf_cycles sp) (neq e)) as [c|]; [cbn [bind] | discriminate].
  destruct (math_ceil c) as [n|]; [cbn [bind] | discriminate].
  destruct (format_4_2f smax) as [fmax|]; [cbn [bind] | discriminate].
  destruct (format_4_2f smin) as [fmin|]; [cbn [bind] | discriminate].
  intros H; inversion H; subst. exists fmax, fmin, n. auto.
Qed.

(** X17: the peaks [stats] prints are values [save] writes: after a
    successful [stats] there are an event whose maximum column, in any
    data line [save] writes for it, is the text of the "Peak max stress"
    line, and an event whose minimum column is the text of the "Peak min
    stress" line. *)
Theorem stats_peaks_are_saved_columns (str_float : float -> string) (st : state) :
  let sp := self st in
  let out := stdout (snd (stats str_float st)) in
  fst (stats str_float st) = Ok tt ->
  exists (emax emin : Event) (fmax fmin : string),
    In emax (events sp) /\ In emin (events sp)
    /\ nth_error out (List.length (stdout st))
       = Some ("> Peak max stress: " ++ fmax ++ " MPa")
    /\ nth_error out (List.length (stdout st) + 1)
       = Some ("> Peak min stress: " ++ fmin ++ " MPa")
    /\ (forall l, data_line sp emax = Ok l ->
          exists rest, l = fmax ++ "  " ++ rest)
    /\ (forall l, data_line sp emin = Ok l ->
          exists first rest, l = first ++ "  " ++ fmin ++ "  " ++ rest).
Proof.
  cbv zeta. unfold stats. cbv zeta.
  destruct (py_max (map s_max (events (self st)))) as [hi|] eqn:Ehi;
    [cbn [bind] | intros C; discriminate C].
  destruct (bind (py_mul (sf_stress (self st)) hi) _) as [fmax|] eqn:Efmax;
    [| intros C; discriminate C].
  destruct (py_min (map s_min (events (self st)))) as [lo|] eqn:Elo;
    [cbn [bind] | intros C; discriminate C].
  destruct (bind (py_mul (sf_stress (self st)) lo) _) as [fmin|] eqn:Efmin;
    [| intros C; discriminate C].
  destruct (total_cycles (self st)) as [n|]; [| intros C; discriminate C].
  intros _. cbn [snd stdout print].
  apply py_max_In, in_map_iff in Ehi. destruct Ehi as (emax & Hhi & Imax).
  apply py_min_In, in_map_iff in Elo. destruct Elo as (emin & Hlo & Imin).
  subst hi lo.
  assert (Tmax : stress_text (self st) (s_max emax) = Ok fmax).
  { unfold stress_text, scaled_stress.
    destruct (py_mul (sf_stress (self st)) (s_max emax)) as [a|];
      [cbn [bind] in *| discriminate].
    destruct (py_add a (prestres (self st))); [exact Efmax | discriminate]. }
  assert (Tmin : stress_text (self st) (s_min emin) = Ok fmin).
  { unfold stress_text, scaled_stress.
    destruct (py_mul (sf_stress (self st)) (s_min emin)) as [a|];
      [cbn [bind] in *| discriminate].
    destruct (py_add a (prestres (self st))); [exact Efmin | discriminate]. }
  exists emax, emin, fmax, fmin.
  split; [exact Imax | split; [exact Imin | split; [| split; [| split]]]].
  - rewrite <- !app_assoc. rewrite nth_error_app2 by lia.
    rewrite Nat.sub_diag. reflexivity.
  - rewrite <- !app_assoc. rewrite nth_error_app2 by lia.
    replace (List.length (stdout st) + 1 - List.length (stdout st))%nat
      with 1%nat by lia.
    reflexivity.
  - intros l Hl. destruct (data_line_fields _ _ _ Hl) as (f1 & f2 & k & H1 & _ & _ & ->).
    rewrite Tmax in H1. inversion H1; subst. eauto.
  - intros l Hl. destruct (data_line_fields _ _ _ Hl) as (f1 & f2 & k & _ & H2 & _ & ->).
    rewrite Tmin in H2. inversion H2; subst. eauto.
Qed.

Lemma stats_peaks_are_saved_columns_witness :
  exists (emax emin : Event) (fmax fmin : string),
    In emax (events spectrum_example) /\ In emin (events spectrum_example)
    /\ nth_error (stdout (snd (stats (fun _ => "") (fresh spectrum_example))))
         (List.length (stdout (fresh spectrum_example)))
       = Some ("> Peak max stress: " ++ fmax ++ " MPa")
    /\ nth_error (stdout (snd (stats (fun _ => "") (fresh spectrum_example))))
         (List.length (stdout (fresh spectrum_example)) + 1)
       = Some ("> Peak min stress: " ++ fmin ++ " MPa")
    /\ (forall l, data_line spectrum_example emax = Ok l ->
          exists rest, l = fmax ++ "  " ++ rest)
    /\ (forall l, data_line spectrum_example emin = Ok l ->
          exists first rest, l = first ++ "  " ++ fmin ++ "  " ++ rest).
Proof.
  apply (stats_peaks_are_saved_columns (fun _ => "") (fresh spectrum_example)).
  vm_compute. reflexivity.
Defined.

Lemma written_cycles_ints (sp : StressSpectrum) (c : Z -> Z) :
  (forall z, Z.abs z < 2 ^ 53 -> scaled_cycles sp (PyInt z) = Ok (c z)) ->
  forall evs : list Event,
    forallb int_neq evs = true ->
    (forall e, In e evs -> Z.abs (int_value (neq e)) < 2 ^ 53) ->
    map_result (fun e => scaled_cycles sp (neq e)) evs
    = Ok (map (fun e => c (int_value (neq e))) evs).
Proof.
  intros Hc evs. induction evs as [|e evs IH]; intros Hint Hb; [reflexivity |].
  cbn [forallb] in Hint. apply andb_prop in Hint. destruct Hint as [He Hint].
  cbn [map_result map]. unfold int_neq in He.
  destruct (neq e) as [z|] eqn:En; [| discriminate].
  pose proof (Hb e (or_introl eq_refl)) as Hz. rewrite En in Hz. cbn [int_value] in *.
  rewrite (Hc z Hz). cbn [bind]. rewrite IH; [reflexivity | exact Hint |].
  intros x Hx. apply Hb. now right.
Qed.

Lemma sum_map_scale (k : Z) (evs : list Event) :
  fold_right Z.add 0 (map (fun e => k * int_value (neq e)) evs)
  = k * sum_int_neq evs.
Proof.
  unfold sum_int_neq. induction evs as [|e evs IH]; cbn [map fold_right]; [lia |].
  rewrite IH. lia.
Qed.

(** X18: with integer cycle counts the total [stats] reports is the sum of
    the counts [save] writes, when the factor is an integer, and when it
    is the default [4.0] and the counts and their sum are below [2^53];
    with a factor such as [1.5] the two differ ([stats] rounds once,
    [save] once per event). *)
Theorem stats_total_is_sum_of_saved_cycles :
  (forall (sp : StressSpectrum) (k : Z),
      sf_cycles sp = PyInt k ->
      forallb int_neq (events sp) = true ->
      total_cycles sp = Ok (k * sum_int_neq (events sp))
      /\ written_cycles sp = total_cycles sp)
  /\ (forall sp : StressSpectrum,
         sf_cycles sp = default_sf_cycles ->
         forallb int_neq (events sp) = true ->
         (forall e, In e (events sp) -> Z.abs (int_value (neq e)) < 2 ^ 53) ->
         Z.abs (sum_int_neq (events sp)) < 2 ^ 53 ->
         total_cycles sp = Ok (4 * sum_int_neq (events sp))
         /\ written_cycles sp = total_cycles sp)
  /\ (total_cycles spectrum_half_cycles = Ok 3
      /\ written_cycles spectrum_half_cycles = Ok 4).
Proof.
  split; [| split].
  - intros sp k Hk Hint.
    assert (T : total_cycles sp = Ok (k * sum_int_neq (events sp))).
    { rewrite (total_cycles_ints sp Hint), Hk. reflexivity. }
    split; [exact T |]. rewrite T. unfold written_cycles.
    assert (M : map_result (fun e => scaled_cycles sp (neq e)) (events sp)
                = Ok (map (fun e => k * int_value (neq e)) (events sp))).
    { clear T. induction (events sp) as [|e evs IH]; [reflexivity |].
      cbn [forallb] in Hint. apply andb_prop in Hint. destruct Hint as [He Hint].
      cbn [map_result map]. unfold int_neq in He.
      destruct (neq e) as [z|] eqn:En; [| discriminate].
      unfold scaled_cycles at 1. rewrite Hk. cbn [py_mul arith bind math_ceil int_value].
      now rewrite (IH Hint). }
    rewrite M. cbn [bind]. now rewrite sum_map_scale.
  - intros sp Hsf Hint Hb Hsum.
    assert (T : total_cycles sp = Ok (4 * sum_int_neq (events sp))).
    { rewrite (total_cycles_ints sp Hint), Hsf. now apply mul_four_int. }
    split; [exact T |]. rewrite T. unfold written_cycles.
    rewrite (written_cycles_ints sp (fun z => 4 * z)); try assumption.
    + cbn [bind]. now rewrite sum_map_scale.
    + intros z Hz. unfold scaled_cycles. rewrite Hsf. now apply mul_four_int.
  - split; vm_compute; reflexivity.
Qed.

Lemma stats_total_is_sum_of_saved_cycles_witness :
  (total_cycles (mkStressSpectrum "out.spc" default_prestress default_sf_stress
                   (PyInt 3) (events spectrum_example))
   = Ok (3 * sum_int_neq (events spectrum_example))
   /\ written_cycles (mkStressSpectrum "out.spc" default_prestress default_sf_stress
                        (PyInt 3) (events spectrum_example))
      = total_cycles (mkStressSpectrum "out.spc" default_prestress default_sf_stress
                        (PyInt 3) (events spectrum_example)))
  /\ (total_cycles spectrum_example = Ok (4 * sum_int_neq (events spectrum_example))
      /\ written_cycles spectrum_example = total_cycles spectrum_example).
Proof.
  split.
  - apply (proj1 stats_total_is_sum_of_saved_cycles
             (mkStressSpectrum "out.spc" default_prestress default_sf_stress
                (PyInt 3) (events spectrum_example)) 3).
    + reflexivity.
    + reflexivity.
  - apply (proj1 (proj2 stats_total_is_sum_of_saved_cycles) spectrum_example).
    + reflexivity.
    + reflexivity.
    + intros e [<- | [<- | []]]; vm_compute; reflexivity.
    + vm_compute. reflexivity.
Defined.

(** ** Integer stresses *)

Lemma str_int_neg (p : positive) : str_int (Z.neg p) = "-" ++ str_int (Z.pos p).
Proof. reflexivity. Qed.

Lemma hundredths_integer (mz m' : positive) (e' : Z) :
  e' <= 0 -> Z.pos m' = Z.pos mz * 2 ^ (- e') ->
  hundredths m' e' = 100 * Z.pos mz.
Proof.
  intros He Hv. unfold hundredths. destruct (0 <=? e') eqn:E.
  - apply Z.leb_le in E. assert (e' = 0) by lia. subst e'.
    cbn [Z.opp] in Hv. rewrite Hv. cbn [Z.pow]. lia.
  - assert (Hd : 0 < 2 ^ (- e')) by (apply Z.pow_pos_nonneg; lia).
    unfold round_half_even. rewrite Hv.
    replace (Z.pos mz * 2 ^ (- e') * 100) with (100 * Z.pos mz * 2 ^ (- e')) by lia.
    rewrite Z.div_mul, Z.mod_mul by lia.
    destruct (Z.compare_spec (2 * 0) (2 ^ (- e'))); lia.
Qed.

Lemma fixed2_integer (s : bool) (n : Z) :
  fixed2 s (100 * n) = (if s then "-" else "") ++ str_int n ++ ".00".
Proof.
  unfold fixed2.
  replace (100 * n / 100) with n by (rewrite Z.mul_comm, Z.div_mul; lia).
  replace (100 * n mod 100) with 0 by (rewrite Z.mul_comm, Z.mod_mul; lia).
  replace (100 * n mod 10) with 0.
  - reflexivity.
  - replace (100 * n) with (10 * n * 10) by lia. rewrite Z.mod_mul; lia.
Qed.

(** The float of an integer below [2^53] in magnitude is printed as the
    integer followed by two zero decimals, and adding [0.0] leaves it. *)
Lemma format_2f_integer (v : Z) :
  Z.abs v < 2 ^ 53 ->
  exists f : float,
    float_of_int v = Ok f /\ (f + 0)%float = f
    /\ format_2f f = str_int v ++ ".00".
Proof.
  intros Hv.
  assert (G : forall (s : bool) (mz : positive),
             Z.pos mz < 2 ^ 53 ->
             exists f : float,
               match binary_round prec emax s mz 0 with
               | S754_infinity _ => Raise OverflowError
               | sf => Ok (SF2Prim sf)
               end = Ok f
               /\ (f + 0)%float = f
               /\ format_2f f = (if s then "-" else "") ++ str_int (Z.pos mz) ++ ".00").
  { intros s mz Hmz.
    destruct (binary_round_small s mz (digits2_small mz Hmz))
      as (m' & e' & Hr & Hb & He & Hval).
    exists (SF2Prim (S754_finite s m' e')). rewrite Hr.
    split; [reflexivity | split].
    - apply Prim2SF_inj. rewrite add_spec, Prim2SF_SF2Prim by exact Hb. reflexivity.
    - unfold format_2f. rewrite Prim2SF_SF2Prim by exact Hb.
      rewrite (hundredths_integer mz m' e' He Hval). apply fixed2_integer. }
  destruct v as [|mz|mz].
  - exists 0%float. repeat split; vm_compute; reflexivity.
  - exact (G false mz Hv).
  - destruct (G true mz Hv) as (f & H1 & H2 & H3). exists f.
    split; [exact H1 | split; [exact H2 |]]. rewrite H3. reflexivity.
Qed.

Lemma rjust_integer (v : Z) : rjust 4 (str_int v ++ ".00") = str_int v ++ ".00".
Proof.
  apply rjust_short. rewrite length_append. pose proof (str_int_nonempty v).
  cbn [String.length]. lia.
Qed.

(** X19: integer stresses are written with two zero decimals: with the
    default [sf_stress=1.0] and [prestress=0] an integer stress [v] below
    [2^53] in magnitude is written as [v] followed by [".00"], and with an
    integer factor [a] and an integer prestress [b] it is written as
    [a * v + b] followed by [".00"] when that value is below [2^53]. *)
Theorem integer_stress_text :
  (forall (sp : StressSpectrum) (v : Z),
      sf_stress sp = default_sf_stress -> prestres sp = default_prestress ->
      Z.abs v < 2 ^ 53 ->
      stress_text sp (PyInt v) = Ok (str_int v ++ ".00"))
  /\ (forall (sp : StressSpectrum) (a b v : Z),
         sf_stress sp = PyInt a -> prestres sp = PyInt b ->
         Z.abs (a * v + b) < 2 ^ 53 ->
         stress_text sp (PyInt v) = Ok (str_int (a * v + b) ++ ".00")).
Proof.
  split.
  - intros sp v Hsf Hpre Hv. unfold stress_text, scaled_stress. rewrite Hsf, Hpre.
    destruct (format_2f_integer v Hv) as (f & Hf & Hz & Ht).
    unfold default_sf_stress, default_prestress.
    cbn [py_mul arith to_float bind]. rewrite Hf. cbn [bind].
    rewrite mul_one_l. cbn [py_add arith to_float bind].
    replace (float_of_int 0) with (Ok 0%float) by (vm_compute; reflexivity).
    cbn [bind]. unfold format_4_2f. cbn [to_float bind].
    now rewrite Hz, Ht, rjust_integer.
  - intros sp a b v Hsf Hpre Hv. unfold stress_text, scaled_stress. rewrite Hsf, Hpre.
    destruct (format_2f_integer (a * v + b) Hv) as (f & Hf & _ & Ht).
    cbn [py_mul py_add arith bind]. unfold format_4_2f. cbn [to_float].
    rewrite Hf. cbn [bind]. now rewrite Ht, rjust_integer.
Qed.

Lemma integer_stress_text_witness :
  stress_text spectrum_empty (PyInt (-200)) = Ok (str_int (-200) ++ ".00")
  /\ stress_text (mkStressSpectrum "out.spc" (PyInt 10) (PyInt 2) default_sf_cycles [])
       (PyInt 300)
     = Ok (str_int (2 * 300 + 10) ++ ".00").
Proof.
  split.
  - apply (proj1 integer_stress_text spectrum_empty (-200)).
    + reflexivity.
    + reflexivity.
    + vm_compute. reflexivity.
  - apply (proj2 integer_stress_text
             (mkStressSpectrum "out.spc" (PyInt 10) (PyInt 2) default_sf_cycles [])
             2 10 300).
    + reflexivity.
    + reflexivity.
    + vm_compute. reflexivity.
Defined.
